(** * Chatpicking: fetch.mjs and collect.mjs

    A shallow embedding of the two scripts of the repository
    (scripts/fetch.mjs and scripts/collect.mjs) and the properties of
    their request correlation, text extraction and collection session.

    Conventions of the embedding.
    - A JavaScript string is the list of its UTF-16 code units.
    - A decoded frame is a JSON value. A number is a double, given by its
      exact value; reading, printing and multiplying round to the nearest
      double as the runtime does.
    - A function that can throw returns a [result]; the [try]/[catch]
      blocks of the scripts are the places where a [Throw] is consumed.
    - The event loop is a step function over the events the runtime can
      deliver (socket events, timers, signals), each stamped with the
      clock reading at which its callback runs; [main] has gone on to its
      next [await] before the next event is delivered.
    - The ws library is not part of the repository: what its constructor
      does with the address and what its socket emits are inputs of a
      run. *)

From Stdlib Require Import ZArith NArith String Ascii Lia DecimalN.
From stdpp Require Import base list.

Set Warnings "-register-all".
Local Open Scope Z_scope.

(** ** JavaScript strings *)

Module Js.

Definition jsstring := list N.

(** Decoding of the UTF-8 bytes of a Rocq string literal into UTF-16 code
    units, so that the literals below read as in the scripts. *)
Fixpoint utf16_of_utf8 (fuel : nat) (bs : list N) : jsstring :=
  match fuel with
  | O => []
  | S fuel =>
    match bs with
    | [] => []
    | b0 :: rest =>
      if (b0 <? 128)%N then b0 :: utf16_of_utf8 fuel rest
      else if (b0 <? 224)%N then
        match rest with
        | b1 :: rest' =>
          ((b0 - 192) * 64 + (b1 - 128))%N :: utf16_of_utf8 fuel rest'
        | _ => []
        end
      else if (b0 <? 240)%N then
        match rest with
        | b1 :: b2 :: rest' =>
          ((b0 - 224) * 4096 + (b1 - 128) * 64 + (b2 - 128))%N
            :: utf16_of_utf8 fuel rest'
        | _ => []
        end
      else
        match rest with
        | b1 :: b2 :: b3 :: rest' =>
          let cp := ((b0 - 240) * 262144 + (b1 - 128) * 4096
                     + (b2 - 128) * 64 + (b3 - 128))%N in
          let v := (cp - 65536)%N in
          (55296 + v / 1024)%N :: (56320 + v mod 1024)%N
            :: utf16_of_utf8 fuel rest'
        | _ => []
        end
    end
  end.

Definition js (s : string) : jsstring :=
  let bs := map N_of_ascii (list_ascii_of_string s) in
  utf16_of_utf8 (length bs) bs.

Definition str_eqb (a b : jsstring) : bool := bool_decide (a = b).

(** WhiteSpace and LineTerminator code units, the set [String.prototype.trim]
    and [parseInt] strip. *)
Definition is_space (c : N) : bool :=
  ((9 <=? c) && (c <=? 13) || (c =? 32) || (c =? 160) || (c =? 5760)
   || (8192 <=? c) && (c <=? 8202) || (c =? 8232) || (c =? 8233)
   || (c =? 8239) || (c =? 8287) || (c =? 12288) || (c =? 65279))%N.

Fixpoint trim_start (s : jsstring) : jsstring :=
  match s with
  | c :: s' => if is_space c then trim_start s' else s
  | [] => []
  end.

Definition trim_end (s : jsstring) : jsstring :=
  reverse (trim_start (reverse s)).

Definition trim (s : jsstring) : jsstring := trim_end (trim_start s).

(** Decimal digits of a natural number, most significant first. *)
Fixpoint uint_units (d : Decimal.uint) : jsstring :=
  match d with
  | Decimal.Nil => []
  | Decimal.D0 d => 48%N :: uint_units d
  | Decimal.D1 d => 49%N :: uint_units d
  | Decimal.D2 d => 50%N :: uint_units d
  | Decimal.D3 d => 51%N :: uint_units d
  | Decimal.D4 d => 52%N :: uint_units d
  | Decimal.D5 d => 53%N :: uint_units d
  | Decimal.D6 d => 54%N :: uint_units d
  | Decimal.D7 d => 55%N :: uint_units d
  | Decimal.D8 d => 56%N :: uint_units d
  | Decimal.D9 d => 57%N :: uint_units d
  end.

Definition dec_N (n : N) : jsstring := uint_units (N.to_uint n).

(** [String(n)] for an integer [n]. *)
Definition dec_Z (n : Z) : jsstring :=
  if n <? 0 then 45%N :: dec_N (Z.to_N (- n)) else dec_N (Z.to_N n).

(** The digits of [n] padded with zeros on the left to [w] places. *)
Definition pad (w : nat) (n : Z) : jsstring :=
  let d := dec_N (Z.to_N n) in
  replicate (w - length d) 48%N ++ d.

Definition is_digit (c : N) : bool := ((48 <=? c) && (c <=? 57))%N.

(** The value of the longest prefix of decimal digits, with the number of
    digits read and the rest of the string. *)
Fixpoint read_digits (acc : Z) (count : nat) (s : jsstring)
  : Z * nat * jsstring :=
  match s with
  | c :: s' =>
    if is_digit c then read_digits (acc * 10 + (Z.of_N c - 48)) (S count) s'
    else (acc, count, s)
  | [] => (acc, count, [])
  end.

(** *** Numbers

    A number is a double: NaN, an infinity, or a finite value, which is
    written [Int z] when it is the integer [z] and [Frac m k] when it is
    [m / 2^k] with [m] odd. The two zeros are one value, [Int 0]: the
    scripts print, compare and test numbers, and none of that tells -0
    from 0. *)
Inductive number :=
| NaN
| Infinity (negative : bool)
| Int (z : Z)
| Frac (m : Z) (k : positive).

(** The number [q * 2^s]. *)
Definition dyadic (q s : Z) : number :=
  if 0 <=? s then Int (q * 2 ^ s)
  else
    let g := Z.gcd q (2 ^ (- s)) in
    let den := 2 ^ (- s) / g in
    if den =? 1 then Int (q / g) else Frac (q / g) (Z.to_pos (Z.log2 den)).

(** The exponent of the double nearest to [a / d], for [a, d > 0]: the
    [s] with [2^52 <= a / (d * 2^s) < 2^53], and -1074 for the subnormal
    values. *)
Definition exponent (a d : Z) : Z :=
  let s0 := Z.log2 a - Z.log2 d - 52 in
  let s1 := if a * 2 ^ Z.max (- s0) 0 / (d * 2 ^ Z.max s0 0) <? 2 ^ 52
            then s0 - 1 else s0 in
  Z.max s1 (-1074).

(** [a / (d * 2^s)] rounded to the nearest integer, a tie to the even
    one. *)
Definition mantissa (a d s : Z) : Z :=
  let num := a * 2 ^ Z.max (- s) 0 in
  let den := d * 2 ^ Z.max s 0 in
  let q := num / den in
  let r := num mod den in
  if (den <? 2 * r) || ((den =? 2 * r) && Z.odd q) then q + 1 else q.

(** The double nearest to [n / d] for [d > 0], a tie going to the even
    mantissa: 53 bits of mantissa, exponents down to the subnormal
    [2^-1074], and an infinity from [2^1024 - 2^970] on. *)
Definition round_ratio (n d : Z) : number :=
  if n =? 0 then Int 0
  else
    let s := exponent (Z.abs n) d in
    let q := mantissa (Z.abs n) d s in
    if (971 <? s) || ((s =? 971) && (2 ^ 53 <=? q))
    then Infinity (n <? 0)
    else dyadic (Z.sgn n * q) s.

(** The double nearest to the integer [z]; the integers up to 2^53 are
    doubles. *)
Definition of_Z (z : Z) : number :=
  if Z.abs z <=? 9007199254740992 then Int z else round_ratio z 1.

(** The double nearest to the value a number is written as. *)
Definition double (x : number) : number :=
  match x with
  | Int z => of_Z z
  | Frac m k => round_ratio m (2 ^ Z.pos k)
  | _ => x
  end.

(** [x * c] for an integer constant [c > 0]. *)
Definition times (x : number) (c : Z) : number :=
  match x with
  | NaN => NaN
  | Infinity negative => Infinity negative
  | Int z => of_Z (z * c)
  | Frac m k => round_ratio (m * c) (2 ^ Z.pos k)
  end.

(** [Boolean(x)]: NaN and zero are falsy. *)
Definition nonzero (x : number) : bool :=
  match x with
  | NaN | Int 0 => false
  | _ => true
  end.

(** [a === b] on numbers: NaN equals nothing. *)
Definition num_strict_eq (a b : number) : bool :=
  match a, b with
  | Int x, Int y => x =? y
  | Frac m k, Frac m' k' => (m =? m') && (k =? k')%positive
  | Infinity s, Infinity s' => eqb s s'
  | _, _ => false
  end.

(** *** Printing a number: [String(x)]

    The digits are the shortest decimal that reads back as [x], the
    nearest to [x] among those; [n] places the decimal point. *)

(** The least [j >= 1] with [q <= p * 10^j], for [0 < p < q]. *)
Fixpoint first_scale (fuel : nat) (j p q : Z) : Z :=
  match fuel with
  | O => j
  | S fuel => if q <=? p * 10 then j else first_scale fuel (j + 1) (p * 10) q
  end.

(** The [n] with [10^(n-1) <= p / q < 10^n], for [p, q > 0]. *)
Definition magnitude (p q : Z) : Z :=
  if q <=? p then Z.of_nat (length (dec_N (Z.to_N (p / q))))
  else 1 - first_scale 400 1 p q.

(** The double that [c * 10^e] denotes. *)
Definition read_decimal (c e : Z) : number :=
  if 0 <=? e then of_Z (c * 10 ^ e) else round_ratio c (10 ^ (- e)).

(** Among the decimals [c * 10^(n-k)] the one nearest to [p / q] that
    reads back as [x], if one does; a tie goes to the even [c]. *)
Definition candidate (x : number) (p q n k : Z) : option Z :=
  let e := n - k in
  let P := if 0 <=? e then p else p * 10 ^ (- e) in
  let Q := if 0 <=? e then q * 10 ^ e else q in
  let lo := P / Q in
  let reads c := num_strict_eq (read_decimal c e) x in
  let lo_nearer :=
    (2 * P <? (2 * lo + 1) * Q)
    || ((2 * P =? (2 * lo + 1) * Q) && Z.even lo) in
  match reads lo, reads (lo + 1) with
  | true, true => Some (if lo_nearer then lo else lo + 1)
  | true, false => Some lo
  | false, true => Some (lo + 1)
  | false, false => None
  end.

Fixpoint shortest (fuel : nat) (k : Z) (x : number) (p q n : Z) : Z * Z :=
  match fuel with
  | O => (p * 10 ^ Z.max (k - n) 0 / (q * 10 ^ Z.max (n - k) 0), k)
  | S fuel =>
    match candidate x p q n k with
    | Some c => (c, k)
    | None => shortest fuel (k + 1) x p q n
    end
  end.

Fixpoint skip_zeros (s : jsstring) : jsstring :=
  match s with
  | 48%N :: s' => skip_zeros s'
  | _ => s
  end.

(** The text of the digits [ds] with the decimal point after [n] of
    them. *)
Definition place_point (ds : jsstring) (n : Z) : jsstring :=
  let k := Z.of_nat (length ds) in
  if (k <=? n) && (n <=? 21) then ds ++ replicate (Z.to_nat (n - k)) 48%N
  else if (0 <? n) && (n <=? 21)
  then take (Z.to_nat n) ds ++ 46%N :: drop (Z.to_nat n) ds
  else if (-6 <? n) && (n <=? 0)
  then 48%N :: 46%N :: replicate (Z.to_nat (- n)) 48%N ++ ds
  else
    let exponent :=
      101%N :: (if n - 1 <? 0 then 45%N else 43%N)
      :: dec_N (Z.to_N (Z.abs (n - 1))) in
    match ds with
    | [] => []
    | [d] => d :: exponent
    | d :: rest => d :: 46%N :: rest ++ exponent
    end.

(** The text of the positive double [p / q]. *)
Definition print_ratio (p q : Z) : jsstring :=
  let n := magnitude p q in
  let '(c, k) := shortest 17 1 (round_ratio p q) p q n in
  let ds := dec_N (Z.to_N c) in
  place_point (reverse (skip_zeros (reverse ds)))
              (n + (Z.of_nat (length ds) - k)).

Definition number_to_string (x : number) : jsstring :=
  match double x with
  | NaN => js "NaN"
  | Infinity false => js "Infinity"
  | Infinity true => js "-Infinity"
  | Int z =>
    if Z.abs z <=? 9007199254740992 then dec_Z z
    else if z <? 0 then 45%N :: print_ratio (- z) 1
    else print_ratio z 1
  | Frac m k =>
    if m <? 0 then 45%N :: print_ratio (- m) (2 ^ Z.pos k)
    else print_ratio m (2 ^ Z.pos k)
  end.

(** *** Reading a number *)

Definition split_sign (s : jsstring) : Z * jsstring :=
  match s with
  | 45%N :: s' => (-1, s')
  | 43%N :: s' => (1, s')
  | _ => (1, s)
  end.

(** [parseInt(s, 10)] on a string: the digits after the leading white
    space and a sign, up to the first code unit that is no digit; all of
    them count, and their value is rounded once. *)
Definition parseInt_string (s : jsstring) : number :=
  let '(sign, body) := split_sign (trim_start s) in
  let '(v, count, _) := read_digits 0 0 body in
  match count with
  | O => NaN
  | _ => of_Z (sign * v)
  end.

(** The value of a digit in a radix up to 16. *)
Definition digit_value (radix : Z) (c : N) : option Z :=
  let v := if is_digit c then Z.of_N c - 48
           else if ((97 <=? c) && (c <=? 102))%N then Z.of_N c - 87
           else if ((65 <=? c) && (c <=? 70))%N then Z.of_N c - 55
           else radix in
  if v <? radix then Some v else None.

Fixpoint read_radix (radix acc : Z) (s : jsstring) : option Z :=
  match s with
  | [] => Some acc
  | c :: s' =>
    match digit_value radix c with
    | Some v => read_radix radix (acc * radix + v) s'
    | None => None
    end
  end.

(** The literals [0x..], [0o..] and [0b..]. *)
Definition radix_literal (radix : Z) (body : jsstring) : number :=
  match body with
  | [] => NaN
  | _ =>
    match read_radix radix 0 body with
    | Some v => of_Z v
    | None => NaN
    end
  end.

(** The double of [sign * m * 10^e] for [m >= 0]. *)
Definition decimal_value (sign m e : Z) : number :=
  if m =? 0 then Int 0
  else
    let digits := Z.of_nat (length (dec_N (Z.to_N m))) in
    if 310 <? digits + e then Infinity (sign <? 0)
    else if digits + e <? -330 then Int 0
    else read_decimal (sign * m) e.

(** A decimal literal without its sign: digits, a point and digits, an
    exponent; at least one digit before the exponent. *)
Definition decimal_literal (sign : Z) (body : jsstring) : number :=
  let '(i, ni, rest) := read_digits 0 0 body in
  let '(m, nf, rest) :=
    match rest with
    | 46%N :: rest' => read_digits i 0 rest'
    | _ => (i, O, rest)
    end in
  match (ni + nf)%nat with
  | O => NaN
  | _ =>
    match rest with
    | [] => decimal_value sign m (- Z.of_nat nf)
    | c :: rest' =>
      if (c =? 101)%N || (c =? 69)%N then
        let '(esign, digits) := split_sign rest' in
        match read_digits 0 0 digits with
        | (e, S _, []) => decimal_value sign m (esign * e - Z.of_nat nf)
        | _ => NaN
        end
      else NaN
    end
  end.

(** [Number(s)] on a string. *)
Definition number_of_string (s : jsstring) : number :=
  match trim s with
  | [] => Int 0
  | 48%N :: 120%N :: body | 48%N :: 88%N :: body => radix_literal 16 body
  | 48%N :: 111%N :: body | 48%N :: 79%N :: body => radix_literal 8 body
  | 48%N :: 98%N :: body | 48%N :: 66%N :: body => radix_literal 2 body
  | t =>
    let '(sign, body) := split_sign t in
    if str_eqb body (js "Infinity") then Infinity (sign <? 0)
    else decimal_literal sign body
  end.

End Js.

(** ** JSON values and the operations the scripts apply to them *)

Module Json.
Import Js.

(** What [JSON.parse] returns; the number of a [JNum] is a double that is
    not NaN. *)
Inductive json :=
| JNull
| JBool (b : bool)
| JNum (n : number)
| JStr (s : jsstring)
| JArr (items : list json)
| JObj (fields : list (jsstring * json)).

(** A JavaScript value read out of a decoded frame: [None] is [undefined]. *)
Definition value := option json.
Abbreviation undefined := (@None json).

Inductive error :=
| Error (message : jsstring)   (* new Error(message) *)
| SyntaxError                  (* JSON.parse on text that is not JSON *)
| TypeError                    (* a property read on null or undefined, or
                                  an object that has no primitive value *)
| RangeError.                  (* toISOString on an invalid date *)

Inductive result (A : Type) :=
| Ok (a : A)
| Throw (e : error).
Arguments Ok {A} a.
Arguments Throw {A} e.

Definition bind {A B} (r : result A) (k : A -> result B) : result B :=
  match r with
  | Ok a => k a
  | Throw e => Throw e
  end.

Notation "'let*' x ':=' r 'in' k" := (bind r (fun x => k))
  (at level 10, x name, r at level 100, k at level 200).

(** [JSON.parse] keeps the last of several members with one name. *)
Fixpoint lookup_field (k : jsstring) (fields : list (jsstring * json)) : value :=
  match fields with
  | [] => undefined
  | (k', v) :: rest =>
    match lookup_field k rest with
    | Some v' => Some v'
    | None => if str_eqb k' k then Some v else undefined
    end
  end.

(** [v.k], for the member names the scripts read (none of them is a
    property of a primitive, an array or a prototype). *)
Definition get (v : value) (k : jsstring) : result value :=
  match v with
  | None | Some JNull => Throw TypeError
  | Some (JObj fields) => Ok (lookup_field k fields)
  | Some _ => Ok undefined
  end.

(** [v?.k] *)
Definition get_opt (v : value) (k : jsstring) : value :=
  match v with
  | Some (JObj fields) => lookup_field k fields
  | _ => undefined
  end.

Definition truthy (v : value) : bool :=
  match v with
  | None | Some JNull => false
  | Some (JBool b) => b
  | Some (JNum n) => nonzero n
  | Some (JStr s) => match s with [] => false | _ => true end
  | Some (JArr _) | Some (JObj _) => true
  end.

(** [a || b] *)
Definition or_else (a b : value) : value := if truthy a then a else b.

(** [String(j)], as a template literal, [join] and [parseInt] apply it.
    An array prints its elements separated by commas, null elements as
    nothing. An object prints through the [toString] it inherits, unless
    it has a member of that name: a member out of [JSON.parse] is no
    function, the [valueOf] that is tried next returns the object itself,
    and the conversion throws a TypeError. *)
Fixpoint to_string (j : json) : result jsstring :=
  match j with
  | JNull => Ok (js "null")
  | JBool true => Ok (js "true")
  | JBool false => Ok (js "false")
  | JNum n => Ok (number_to_string n)
  | JStr s => Ok s
  | JArr items =>
    (fix commas (l : list json) : result jsstring :=
       match l with
       | [] => Ok []
       | x :: l' =>
         let* sx := match x with JNull => Ok [] | _ => to_string x end in
         match l' with
         | [] => Ok sx
         | _ => let* rest := commas l' in Ok (sx ++ 44%N :: rest)
         end
       end) items
  | JObj fields =>
    match lookup_field (js "toString") fields with
    | Some _ => Throw TypeError
    | None => Ok (js "[object Object]")
    end
  end.

Definition value_to_string (v : value) : result jsstring :=
  match v with
  | None => Ok (js "undefined")
  | Some j => to_string j
  end.

(** [Number(v)], as [v * 1000] applies it. An array is read as the
    string it prints as; an object is NaN, or has no primitive value. *)
Definition to_number (v : value) : result number :=
  match v with
  | None => Ok NaN
  | Some JNull => Ok (Int 0)
  | Some (JBool b) => Ok (Int (if b then 1 else 0))
  | Some (JNum n) => Ok n
  | Some (JStr s) => Ok (number_of_string s)
  | Some (JArr items) =>
    let* s := to_string (JArr items) in Ok (number_of_string s)
  | Some (JObj fields) =>
    let* s := to_string (JObj fields) in Ok (number_of_string s)
  end.

(** [parseInt(v, 10)] *)
Definition parseInt (v : value) : result number :=
  let* s := value_to_string v in Ok (parseInt_string s).

(** [v === s] for a string [s] *)
Definition is_string (v : value) (s : jsstring) : bool :=
  match v with
  | Some (JStr s') => str_eqb s' s
  | _ => false
  end.

(** [v === n] for an integer [n] *)
Definition is_number (v : value) (n : Z) : bool :=
  match v with
  | Some (JNum n') => num_strict_eq n' (Int n)
  | _ => false
  end.

(** [items.join('')] *)
Fixpoint join_empty (items : list json) : result jsstring :=
  match items with
  | [] => Ok []
  | x :: rest =>
    let* sx := match x with JNull => Ok [] | _ => to_string x end in
    let* others := join_empty rest in
    Ok (sx ++ others)
  end.

(** What [JSON.stringify] writes for a number: null when it is not
    finite. *)
Definition of_number (n : number) : json :=
  match n with
  | NaN | Infinity _ => JNull
  | _ => JNum n
  end.

End Json.

(** ** Dates *)

Module Date.
Import Js Json.

(** [new Date(n)]: the time value of the date, an integer number of
    milliseconds ([n] without its fraction), or [None] for the invalid
    date when [n] is not finite or beyond 8.64e15. *)
Definition time_clip (n : number) : option Z :=
  match n with
  | Int t => if Z.abs t <=? 8640000000000000 then Some t else None
  | Frac m k =>
    if Z.abs m <=? 8640000000000000 * 2 ^ Z.pos k
    then Some (Z.quot m (2 ^ Z.pos k))
    else None
  | NaN | Infinity _ => None
  end.

(** Year, month and day of the day number [z] (days since 1970-01-01). *)
Definition civil_of_days (z : Z) : Z * Z * Z :=
  let z := z + 719468 in
  let era := z / 146097 in
  let doe := z - era * 146097 in
  let yoe := (doe - doe / 1460 + doe / 36524 - doe / 146096) / 365 in
  let doy := doe - (365 * yoe + yoe / 4 - yoe / 100) in
  let mp := (5 * doy + 2) / 153 in
  let d := doy - (153 * mp + 2) / 5 + 1 in
  let m := if mp <? 10 then mp + 3 else mp - 9 in
  let y := yoe + era * 400 + (if m <=? 2 then 1 else 0) in
  (y, m, d).

Definition year_string (y : Z) : jsstring :=
  if (0 <=? y) && (y <=? 9999) then pad 4 y
  else if y <? 0 then 45%N :: pad 6 (- y)
  else 43%N :: pad 6 y.

(** The text [toISOString] gives for the valid time value [t]. *)
Definition iso_string (t : Z) : jsstring :=
  let '(y, m, d) := civil_of_days (t / 86400000) in
  let r := t mod 86400000 in
  year_string y ++ js "-" ++ pad 2 m ++ js "-" ++ pad 2 d ++ js "T"
    ++ pad 2 (r / 3600000) ++ js ":" ++ pad 2 (r / 60000 mod 60) ++ js ":"
    ++ pad 2 (r / 1000 mod 60) ++ js "." ++ pad 3 (r mod 1000) ++ js "Z".

(** [d.toISOString()] *)
Definition toISOString (tv : option Z) : result jsstring :=
  match tv with
  | Some t => Ok (iso_string t)
  | None => Throw RangeError
  end.

(** [new Date(v * 1000).toISOString()] *)
Definition iso_of_seconds (v : value) : result jsstring :=
  let* n := to_number v in
  toISOString (time_clip (times n 1000)).

End Date.

(** ** Text extraction and record formatting

    [extractText] and [formatMessage] stand in both scripts with the same
    text; one embedding serves both. *)

Module Message.
Import Js Json Date.

(** [message.filter(seg => seg.type === 'text')]: reading [type] off a
    null segment throws. *)
Fixpoint filter_text (segs : list json) : result (list json) :=
  match segs with
  | [] => Ok []
  | seg :: rest =>
    let* ty := get (Some seg) (js "type") in
    let* kept := filter_text rest in
    Ok (if is_string ty (js "text") then seg :: kept else kept)
  end.

(** [seg => seg.data?.text || ''] *)
Definition seg_text (seg : json) : json :=
  match or_else (get_opt (get_opt (Some seg) (js "data")) (js "text"))
                (Some (JStr [])) with
  | Some t => t
  | None => JStr []
  end.

(** The filter runs over all the segments, then the map, then [join],
    which prints each text, then [trim]. *)
Definition extractText (message : value) : result jsstring :=
  match message with
  | Some (JArr segs) =>
    let* kept := filter_text segs in
    let* joined := join_empty (map seg_text kept) in
    Ok (trim joined)
  | _ => Ok []
  end.

Record CollectedRecord := {
  sender : json;
  user_id : json;
  time : json;
  timestamp : json;
  content : jsstring;
}.

(** [v || null] *)
Definition or_null (v : value) : json :=
  match or_else v (Some JNull) with
  | Some j => j
  | None => JNull
  end.

(** [formatMessage(msg)]; [Ok None] is the [null] it returns. The members
    of the record are evaluated in the order they are written: the
    fallback of the sender is printed only when the nickname and the card
    are both falsy, and the date is built after the sender. *)
Definition formatMessage (msg : value) : result (option CollectedRecord) :=
  let* message := get msg (js "message") in
  let* text := extractText message in
  match text with
  | [] => Ok None
  | _ =>
    let* sender_v := get msg (js "sender") in
    let name := or_else (get_opt sender_v (js "nickname"))
                        (get_opt sender_v (js "card")) in
    let fallback :=
      let* id := value_to_string
                   (or_else (get_opt sender_v (js "user_id"))
                            (Some (JStr (js "未知")))) in
      Ok (JStr (js "用户" ++ id)) in
    let* sender_j :=
      match name with
      | Some j => if truthy name then Ok j else fallback
      | None => fallback
      end in
    let* time_v := get msg (js "time") in
    let* time_s :=
      if truthy time_v
      then (let* s := iso_of_seconds time_v in Ok (JStr s))
      else Ok JNull in
    Ok (Some {|
      sender := sender_j;
      user_id := or_null (get_opt sender_v (js "user_id"));
      time := time_s;
      timestamp := or_null time_v;
      content := text;
    |})
  end.

(** JSON encodings of the wire shapes, for stating examples. *)
Definition text_seg (t : jsstring) : json :=
  JObj [(js "type", JStr (js "text")); (js "data", JObj [(js "text", JStr t)])].
Definition image_seg : json :=
  JObj [(js "type", JStr (js "image")); (js "data", JObj [])].

End Message.

(** ** The runtime shared by the two scripts *)

Module Runtime.
Import Js Json.

(** [process.env]: the three variables the scripts read. *)
Record environment := {
  NAPCAT_WS : option jsstring;
  NAPCAT_GROUP : option jsstring;
  NAPCAT_TOKEN : option jsstring;
}.

(** [process.env.X || fallback] *)
Definition env_or (x : option jsstring) (fallback : jsstring) : jsstring :=
  match x with
  | Some (c :: s) => c :: s
  | _ => fallback
  end.

(** A string-valued variable that may hold [undefined] ([argv[++i]] past
    the end of the arguments). *)
Definition text_value (s : option jsstring) : value :=
  match s with
  | Some t => Some (JStr t)
  | None => undefined
  end.

(** [String(s)] for such a variable. *)
Definition text_to_string (s : option jsstring) : jsstring :=
  match s with
  | Some t => t
  | None => js "undefined"
  end.

(** [parseInt(argv[++i], 10) || fallback] *)
Definition int_or (arg : option jsstring) (fallback : number) : number :=
  let n := parseInt_string (text_to_string arg) in
  if nonzero n then n else fallback.

(** A raw inbound frame as [JSON.parse(raw.toString())] sees it: text that
    does not parse (a SyntaxError) or the value it decodes to. *)
Inductive frame :=
| Malformed
| Decoded (data : json).

(** [setTimeout] runs with a delay of 1 when the one it is given lies
    outside 1 .. 2^31-1, and counts whole milliseconds. *)
Definition timer_delay (ms : number) : Z :=
  match ms with
  | Int z => if (1 <=? z) && (z <=? 2147483647) then z else 1
  | Frac m k =>
    if (2 ^ Z.pos k <=? m) && (m <=? 2147483647 * 2 ^ Z.pos k)
    then m / 2 ^ Z.pos k
    else 1
  | NaN | Infinity _ => 1
  end.

(** The address the socket is constructed with:
    [`${napcat}?access_token=${token}`] when the token is truthy, else the
    address of the arguments, which is undefined after a [--napcat]
    without operand. *)
Definition wsUrl (napcat token : option jsstring) : option jsstring :=
  if truthy (text_value token)
  then Some (text_to_string napcat ++ js "?access_token="
             ++ text_to_string token)
  else napcat.

(** [new WebSocket(wsUrl)]: the ws library hands back a socket that is
    connecting, or throws on an address it cannot use (an address that is
    no URL, as the undefined one, or a URL of another protocol). *)
Inductive construction :=
| Constructed
| Refused.

Definition connect_failed (message : jsstring) : error :=
  Error (js "连接 NapCat 失败: " ++ message
         ++ js "。请确认 NapCat 已启动并配置了 OneBot v11 WebSocket 服务。").

Definition connect_timeout (napcat : option jsstring) : error :=
  Error (js "连接 NapCat 超时: " ++ text_to_string napcat).

End Runtime.

(** ** collect.mjs *)

Module Collect.
Import Js Json Date Message Runtime.

Record arguments := {
  napcat : option jsstring;
  group : option jsstring;
  duration : number;
  token : option jsstring;
}.

Inductive parsed :=
| Parsed (a : arguments)
| Usage            (* --help: the usage text, exit status 0 *)
| MissingGroup.    (* the error object on stderr, exit status 1 *)

(** The [for]/[switch] loop over [argv] from index 2; [None] is the exit
    taken at [--help]. *)
Fixpoint parse_loop (argv : list jsstring) (a : arguments) : option arguments :=
  match argv with
  | [] => Some a
  | flag :: rest =>
    let operand := head rest in
    if str_eqb flag (js "--napcat") then
      match rest with
      | _ :: rest' =>
        parse_loop rest' {| napcat := operand; group := group a;
                            duration := duration a; token := token a |}
      | [] => Some {| napcat := None; group := group a;
                      duration := duration a; token := token a |}
      end
    else if str_eqb flag (js "--group") then
      match rest with
      | _ :: rest' =>
        parse_loop rest' {| napcat := napcat a; group := operand;
                            duration := duration a; token := token a |}
      | [] => Some {| napcat := napcat a; group := None;
                      duration := duration a; token := token a |}
      end
    else if str_eqb flag (js "--duration") then
      match rest with
      | _ :: rest' =>
        parse_loop rest' {| napcat := napcat a; group := group a;
                            duration := int_or operand (Int 60);
                            token := token a |}
      | [] => Some {| napcat := napcat a; group := group a;
                      duration := int_or None (Int 60); token := token a |}
      end
    else if str_eqb flag (js "--token") then
      match rest with
      | _ :: rest' =>
        parse_loop rest' {| napcat := napcat a; group := group a;
                            duration := duration a; token := operand |}
      | [] => Some {| napcat := napcat a; group := group a;
                      duration := duration a; token := None |}
      end
    else if str_eqb flag (js "--help") then None
    else parse_loop rest a
  end.

Definition parseArgs (env : environment) (argv : list jsstring) : parsed :=
  let defaults := {|
    napcat := Some (env_or (NAPCAT_WS env) (js "ws://127.0.0.1:3001"));
    group := Some (env_or (NAPCAT_GROUP env) []);
    duration := Int 60;
    token := Some (env_or (NAPCAT_TOKEN env) []);
  |} in
  match parse_loop (drop 2 argv) defaults with
  | None => Usage
  | Some a => if truthy (text_value (group a)) then Parsed a else MissingGroup
  end.

(** The report [main] prints on stdout. *)
Record report := {
  success : bool;
  group_id : option jsstring;
  collected_count : nat;
  duration_minutes : number;
  start_time : jsstring;
  end_time : jsstring;
  messages : list CollectedRecord;
}.

Inductive output :=
| Printed (r : report)    (* console.log of the report, exit status 0 *)
| Failed (e : error).     (* console.error of the error object, exit(1) *)

(** What the runtime can deliver to the process while [main] is suspended.
    The script installs no listener for a signal, so a signal has the
    default disposition of the runtime: the process ends there. *)
Inductive event :=
| Open                            (* ws emits 'open' *)
| SocketError (message : jsstring)   (* ws emits 'error' *)
| ConnectTimer                    (* the 10000 ms timer of connectPromise *)
| Message (raw : frame)           (* ws emits 'message' *)
| Closed                          (* ws emits 'close' *)
| DeadlineTimer                   (* the timer of the collection wait *)
| Signal.                         (* SIGINT, SIGTERM, ... *)

Inductive phase :=
| Crashed
    (* [new WebSocket] threw, outside the [try] of [main]: the error is
       not caught by the script, which prints no report and no error
       object *)
| Connecting (due : Z)
    (* suspended at [await connectPromise]; the connect timer is due at [due] *)
| Collecting (due : Z) (collectedMessages : list CollectedRecord)
    (* suspended at the collection wait *)
| Exited (o : output)
| Killed.                          (* ended by a signal, nothing printed *)

Record process := {
  args : arguments;
  startTime : Z;
  state : phase;
}.

(** [parseInt(args.group, 10)] *)
Definition targetGroup (a : arguments) : number :=
  parseInt_string (text_to_string (group a)).

(** [args.duration * 60 * 1000] *)
Definition durationMs (a : arguments) : number :=
  times (times (duration a) 60) 1000.

(** The body of the 'message' listener inside its [try]: the record to
    push, if any. The three tests of the filter are evaluated in turn, so
    the group id is printed and read only in a group message. *)
Definition accept (target : number) (raw : frame)
  : result (option CollectedRecord) :=
  match raw with
  | Malformed => Throw SyntaxError
  | Decoded ev =>
    let* post_type := get (Some ev) (js "post_type") in
    if is_string post_type (js "message") then
      let* message_type := get (Some ev) (js "message_type") in
      if is_string message_type (js "group") then
        let* gid := get (Some ev) (js "group_id") in
        let* n := parseInt gid in
        if num_strict_eq n target then formatMessage (Some ev) else Ok None
      else Ok None
    else Ok None
  end.

(** The 'message' listener with its [catch], which ignores whatever was
    thrown. *)
Definition on_message (target : number) (raw : frame)
    (collectedMessages : list CollectedRecord) : list CollectedRecord :=
  match accept target raw with
  | Ok (Some formatted) => collectedMessages ++ [formatted]
  | Ok None | Throw _ => collectedMessages
  end.

Definition result_of (a : arguments) (t0 t1 : Z)
    (collectedMessages : list CollectedRecord) : report := {|
  success := true;
  group_id := group a;
  collected_count := length collectedMessages;
  duration_minutes := duration a;
  start_time := iso_string t0;
  end_time := iso_string t1;
  messages := collectedMessages;
|}.

(** [main] up to its first suspension, at clock reading [t0], with what
    [new WebSocket(wsUrl)] did. *)
Definition main_start (a : arguments) (ws : construction) (t0 : Z) : process :=
  {| args := a; startTime := t0;
     state := match ws with
              | Constructed => Connecting (t0 + 10000)
              | Refused => Crashed
              end |}.

(** One callback of the event loop, run at clock reading [t]. A timer
    callback never runs before its timer is due. *)
Definition main_step (p : process) (te : Z * event) : process :=
  let '(t, e) := te in
  let goto s := {| args := args p; startTime := startTime p; state := s |} in
  match state p, e with
  | (Crashed | Exited _ | Killed), _ => p
  | _, Signal => goto Killed
  | Connecting due, Open =>
    goto (Collecting (t + timer_delay (durationMs (args p))) [])
  | Connecting due, SocketError m => goto (Exited (Failed (connect_failed m)))
  | Connecting due, ConnectTimer =>
    if due <=? t
    then goto (Exited (Failed (connect_timeout (napcat (args p)))))
    else p
  | Connecting _, _ => p
  | Collecting due buf, Message raw =>
    goto (Collecting due (on_message (targetGroup (args p)) raw buf))
  | Collecting due buf, DeadlineTimer =>
    if due <=? t
    then goto (Exited (Printed (result_of (args p) (startTime p) t buf)))
    else p
  | Collecting _ _, _ => p
  end.

Definition main_run (p : process) (trace : list (Z * event)) : process :=
  foldl main_step p trace.

(** The whole script on the command line [argv], with the constructor
    [WebSocket] of the ws library, the clock reading [t0] at the start
    and the events of the run. *)
Definition main (env : environment) (argv : list jsstring)
    (WebSocket : option jsstring -> construction) (t0 : Z)
    (trace : list (Z * event)) : option process :=
  match parseArgs env argv with
  | Parsed a =>
    Some (main_run (main_start a (WebSocket (wsUrl (napcat a) (token a))) t0)
                   trace)
  | Usage | MissingGroup => None
  end.

End Collect.

(** ** fetch.mjs *)

Module Fetch.
Import Js Json Date Message Runtime.

Record arguments := {
  napcat : option jsstring;
  group : option jsstring;
  count : number;
  token : option jsstring;
}.

Inductive parsed :=
| Parsed (a : arguments)
| Usage            (* --help: the usage text, exit status 0 *)
| MissingGroup.    (* the error object on stderr, exit status 1 *)

Fixpoint parse_loop (argv : list jsstring) (a : arguments) : option arguments :=
  match argv with
  | [] => Some a
  | flag :: rest =>
    let operand := head rest in
    if str_eqb flag (js "--napcat") then
      match rest with
      | _ :: rest' =>
        parse_loop rest' {| napcat := operand; group := group a;
                            count := count a; token := token a |}
      | [] => Some {| napcat := None; group := group a;
                      count := count a; token := token a |}
      end
    else if str_eqb flag (js "--group") then
      match rest with
      | _ :: rest' =>
        parse_loop rest' {| napcat := napcat a; group := operand;
                            count := count a; token := token a |}
      | [] => Some {| napcat := napcat a; group := None;
                      count := count a; token := token a |}
      end
    else if str_eqb flag (js "--count") then
      match rest with
      | _ :: rest' =>
        parse_loop rest' {| napcat := napcat a; group := group a;
                            count := int_or operand (Int 100);
                            token := token a |}
      | [] => Some {| napcat := napcat a; group := group a;
                      count := int_or None (Int 100); token := token a |}
      end
    else if str_eqb flag (js "--token") then
      match rest with
      | _ :: rest' =>
        parse_loop rest' {| napcat := napcat a; group := group a;
                            count := count a; token := operand |}
      | [] => Some {| napcat := napcat a; group := group a;
                      count := count a; token := None |}
      end
    else if str_eqb flag (js "--help") then None
    else parse_loop rest a
  end.

Definition parseArgs (env : environment) (argv : list jsstring) : parsed :=
  let defaults := {|
    napcat := Some (env_or (NAPCAT_WS env) (js "ws://127.0.0.1:3001"));
    group := Some (env_or (NAPCAT_GROUP env) []);
    count := Int 100;
    token := Some (env_or (NAPCAT_TOKEN env) []);
  |} in
  match parse_loop (drop 2 argv) defaults with
  | None => Usage
  | Some a => if truthy (text_value (group a)) then Parsed a else MissingGroup
  end.

(** *** The request correlator: [sendRequest] *)

Inductive promise :=
| Pending
| Fulfilled (v : value)
| Rejected (e : error).

(** [resolve] and [reject] settle a promise once; on a settled promise
    they do nothing. *)
Definition resolve (p : promise) (v : value) : promise :=
  match p with
  | Pending => Fulfilled v
  | _ => p
  end.

Definition reject (p : promise) (e : error) : promise :=
  match p with
  | Pending => Rejected e
  | _ => p
  end.

(** The state one call of [sendRequest] leaves behind: the variables its
    closures capture, its timer, its listener and its promise. *)
Record request := {
  echo : jsstring;
  action : jsstring;
  due : Z;               (* when the 15000 ms timer is due *)
  timer_set : bool;      (* the timer is neither cleared nor has it run *)
  listening : bool;      (* [handler] is a 'message' listener of ws *)
  outcome : promise;
}.

(** The module variable [requestId], the calls made so far in call order,
    and the frames handed to [ws.send]. *)
Record correlator := {
  requestId : Z;
  requests : list request;
  sent : list json;
}.

Definition start : correlator :=
  {| requestId := 0; requests := []; sent := [] |}.

(** [++requestId] on a double: 2^53 + 1 rounds back to 2^53. *)
Definition increment (n : Z) : Z :=
  if n <? 9007199254740992 then n + 1 else n.

(** [`req_${++requestId}_${Date.now()}`] *)
Definition mint (id now : Z) : jsstring :=
  js "req_" ++ dec_Z id ++ js "_" ++ dec_Z now.

Definition request_timeout (act : jsstring) : error :=
  Error (js "请求超时: " ++ act).

(** [new Error(`API 错误 [${action}]: retcode=${data.retcode},
    msg=${data.msg || data.message || '未知'}`)]: the template prints the
    return code, then the message, and throws what printing throws. *)
Definition api_error (act : jsstring) (data : json) : result error :=
  let* retcode := value_to_string (get_opt (Some data) (js "retcode")) in
  let* msg := value_to_string
                (or_else (or_else (get_opt (Some data) (js "msg"))
                                  (get_opt (Some data) (js "message")))
                         (Some (JStr (js "未知")))) in
  Ok (Error (js "API 错误 [" ++ act ++ js "]: retcode=" ++ retcode
             ++ js ", msg=" ++ msg)).

(** [sendRequest(ws, action, params)] called at clock reading [now]; the
    promise it returns is the one of the last request of the result. *)
Definition sendRequest (now : Z) (act : jsstring) (params : json)
    (c : correlator) : correlator :=
  let id := increment (requestId c) in
  let e := mint id now in
  {| requestId := id;
     requests := requests c ++ [{|
       echo := e; action := act; due := now + 15000;
       timer_set := true; listening := true; outcome := Pending |}];
     sent := sent c ++ [JObj [(js "action", JStr act); (js "params", params);
                              (js "echo", JStr e)]] |}.

(** The closure [handler] of request [r] on one raw frame. A frame whose
    [echo] is the token is an object, so its other members read without
    throwing. On such a frame the timer is cleared and the listener
    removed first; with a return code that is not 0 the error is built
    next, and when building it throws, the [catch] of the handler takes
    what was thrown and the promise is left as it was. *)
Definition handler (raw : frame) (r : request) : request :=
  match raw with
  | Malformed => r
  | Decoded data =>
    match get (Some data) (js "echo") with
    | Throw _ => r
    | Ok e =>
      if is_string e (echo r) then
        {| echo := echo r; action := action r; due := due r;
           timer_set := false;      (* clearTimeout(timeout) *)
           listening := false;      (* ws.removeListener('message', handler) *)
           outcome :=
             if is_number (get_opt (Some data) (js "retcode")) 0
             then resolve (outcome r) (get_opt (Some data) (js "data"))
             else match api_error (action r) data with
                  | Ok err => reject (outcome r) err
                  | Throw _ => outcome r
                  end |}
      else r
    end
  end.

(** ws emits 'message': every listener registered at that moment runs. *)
Definition emit_message (raw : frame) (c : correlator) : correlator :=
  {| requestId := requestId c;
     requests := map (fun r => if listening r then handler raw r else r)
                     (requests c);
     sent := sent c |}.

(** The timeout callback of a request. *)
Definition on_timeout (r : request) : request :=
  {| echo := echo r; action := action r; due := due r;
     timer_set := false; listening := listening r;
     outcome := reject (outcome r) (request_timeout (action r)) |}.

(** The timer of request [i] runs at clock reading [t], if it is still set
    and due. *)
Definition fire_timer (t : Z) (i : nat) (c : correlator) : correlator :=
  match requests c !! i with
  | Some r =>
    if timer_set r && (due r <=? t)
    then {| requestId := requestId c;
            requests := <[i := on_timeout r]> (requests c);
            sent := sent c |}
    else c
  | None => c
  end.

Inductive event :=
| Call (act : jsstring) (params : json)   (* a caller runs sendRequest *)
| Message (raw : frame)                   (* ws emits 'message' *)
| TimerFired (i : nat)                    (* the timer of request i *)
| Closed.                                 (* ws emits 'close' *)

Definition step (c : correlator) (te : Z * event) : correlator :=
  let '(t, e) := te in
  match e with
  | Call act params => sendRequest t act params c
  | Message raw => emit_message raw c
  | TimerFired i => fire_timer t i c
  | Closed => c      (* neither sendRequest nor main listens for 'close' *)
  end.

Definition run (c : correlator) (trace : list (Z * event)) : correlator :=
  foldl step c trace.

(** *** [main] *)

Record report := {
  success : bool;
  group_id : option jsstring;
  fetched_count : nat;
  requested_count : number;
  fetch_time : jsstring;
  messages : list CollectedRecord;
}.

Inductive output :=
| Printed (r : report)    (* console.log of the report, exit status 0 *)
| Failed (e : error).     (* console.error of the error object, exit(1) *)

(** [historyData?.messages || historyData || []] *)
Definition rawMessages (historyData : value) : value :=
  or_else (or_else (get_opt historyData (js "messages")) historyData)
          (Some (JArr [])).

(** [Array.isArray(rawMessages) ? rawMessages : []] *)
Definition item_list (raw : value) : list json :=
  match raw with
  | Some (JArr items) => items
  | _ => []
  end.

(** [.map(formatMessage)]: the first item that throws ends the map. *)
Fixpoint map_format (items : list json)
  : result (list (option CollectedRecord)) :=
  match items with
  | [] => Ok []
  | item :: rest =>
    let* formatted := formatMessage (Some item) in
    let* others := map_format rest in
    Ok (formatted :: others)
  end.

(** [.filter(Boolean)] over records and nulls *)
Definition filter_Boolean (l : list (option CollectedRecord))
  : list CollectedRecord := omap id l.

(** The part of [main] after the history arrived, at clock reading [t]. *)
Definition result_of (a : arguments) (historyData : value) (t : Z)
  : result report :=
  let* formatted := map_format (item_list (rawMessages historyData)) in
  let msgs := filter_Boolean formatted in
  Ok {| success := true;
        group_id := group a;
        fetched_count := length msgs;
        requested_count := count a;
        fetch_time := iso_string t;
        messages := msgs |}.

(** The [params] of the one request of [main], as [JSON.stringify] sends
    them. *)
Definition history_params (a : arguments) : json :=
  JObj [(js "group_id",
         of_number (parseInt_string (text_to_string (group a))));
        (js "count", of_number (count a))].

Inductive main_event :=
| Open                               (* ws emits 'open' *)
| SocketError (message : jsstring)   (* ws emits 'error' *)
| ConnectTimer                       (* the 10000 ms timer of connectPromise *)
| Frame (raw : frame)                (* ws emits 'message' *)
| RequestTimer                       (* the 15000 ms timer of the request *)
| Disconnected.                      (* ws emits 'close' *)

Inductive phase :=
| Crashed                       (* [new WebSocket] threw, outside the [try] *)
| Connecting (due : Z)          (* suspended at [await connectPromise] *)
| Requesting (c : correlator)   (* suspended at [await sendRequest(...)] *)
| Exited (o : output).

Record process := {
  args : arguments;
  state : phase;
}.

Definition main_start (a : arguments) (ws : construction) (t0 : Z) : process :=
  {| args := a;
     state := match ws with
              | Constructed => Connecting (t0 + 10000)
              | Refused => Crashed
              end |}.

(** Where [main] goes once the callbacks of one event have run: it resumes
    from its [await] if the promise of its request is settled. *)
Definition resume (a : arguments) (t : Z) (c : correlator) : phase :=
  match outcome <$> requests c !! 0%nat with
  | Some (Fulfilled historyData) =>
    match result_of a historyData t with
    | Ok r => Exited (Printed r)
    | Throw e => Exited (Failed e)
    end
  | Some (Rejected e) => Exited (Failed e)
  | _ => Requesting c
  end.

Definition main_step (p : process) (te : Z * main_event) : process :=
  let '(t, e) := te in
  let goto s := {| args := args p; state := s |} in
  match state p, e with
  | (Crashed | Exited _), _ => p
  | Connecting due, Open =>
    goto (Requesting (sendRequest t (js "get_group_msg_history")
                                  (history_params (args p)) start))
  | Connecting due, SocketError m => goto (Exited (Failed (connect_failed m)))
  | Connecting due, ConnectTimer =>
    if due <=? t
    then goto (Exited (Failed (connect_timeout (napcat (args p)))))
    else p
  | Connecting _, _ => p
  | Requesting c, Frame raw => goto (resume (args p) t (emit_message raw c))
  | Requesting c, RequestTimer => goto (resume (args p) t (fire_timer t 0 c))
  | Requesting _, _ => p
  end.

Definition main_run (p : process) (trace : list (Z * main_event)) : process :=
  foldl main_step p trace.

Definition main (env : environment) (argv : list jsstring)
    (WebSocket : option jsstring -> construction) (t0 : Z)
    (trace : list (Z * main_event)) : option process :=
  match parseArgs env argv with
  | Parsed a =>
    Some (main_run (main_start a (WebSocket (wsUrl (napcat a) (token a))) t0)
                   trace)
  | Usage | MissingGroup => None
  end.

End Fetch.

(** ** Vocabulary of the properties *)

Module Props.
Import Js Json Date Message Runtime.

(** Following the words of the interface description: a segment has a
    kind and may carry a text; extraction concatenates the texts of the
    segments of the text kind and trims the result. *)
Record segment := {
  kind : jsstring;
  text : option jsstring;
}.

Definition extract_spec (segs : list segment) : jsstring :=
  trim (concat (map (fun s => default [] (text s))
                    (filter (fun s => kind s = js "text") segs))).

(** The wire form of a segment. *)
Definition encode_segment (s : segment) : json :=
  JObj [(js "type", JStr (kind s));
        (js "data", JObj match text s with
                         | Some t => [(js "text", JStr t)]
                         | None => []
                         end)].

(** The frame is a group message event. *)
Definition is_group_message (raw : frame) : bool :=
  match raw with
  | Decoded ev =>
    is_string (get_opt (Some ev) (js "post_type")) (js "message")
    && is_string (get_opt (Some ev) (js "message_type")) (js "group")
  | Malformed => false
  end.

(** The group id of the frame is the target of the session. *)
Definition scope_matches (target : number) (raw : frame) : bool :=
  match raw with
  | Decoded ev =>
    match parseInt (get_opt (Some ev) (js "group_id")) with
    | Ok n => num_strict_eq n target
    | Throw _ => false
    end
  | Malformed => false
  end.

(** The text extracted from the message of a frame or of a history item. *)
Definition extracted_text (ev : json) : result jsstring :=
  let* message := get (Some ev) (js "message") in
  extractText message.

Definition has_text (ev : json) : bool :=
  match extracted_text ev with
  | Ok (_ :: _) => true
  | _ => false
  end.

(** The number of items of a list with non-empty extracted text. *)
Definition text_count (items : list json) : nat :=
  length (filter (fun ev => has_text ev = true) items).

(** The record the formatter returns for a frame, if it returns one. *)
Definition formatted (raw : frame) : option CollectedRecord :=
  match raw with
  | Decoded ev =>
    match formatMessage (Some ev) with
    | Ok (Some r) => Some r
    | _ => None
    end
  | Malformed => None
  end.

(** The record a collection session keeps of a frame, if it keeps one. *)
Definition accepted (target : number) (raw : frame) : option CollectedRecord :=
  if is_group_message raw && scope_matches target raw
  then formatted raw
  else None.

(** The frames among the events of a trace, in arrival order. *)
Definition frames_of (trace : list (Z * Collect.event)) : list frame :=
  omap (fun te => match te.2 with
                  | Collect.Message raw => Some raw
                  | _ => None
                  end) trace.

(** An event that does not end the collection wait whose timer is due at
    [due]: anything but a signal or the timer at or after [due]. *)
Definition waiting (due : Z) (te : Z * Collect.event) : bool :=
  match te.2 with
  | Collect.Signal => false
  | Collect.DeadlineTimer => te.1 <? due
  | _ => true
  end.

(** No frame and no signal: what a closed socket can still deliver. *)
Definition silent (due : Z) (te : Z * Collect.event) : bool :=
  match te.2 with
  | Collect.Message _ | Collect.Signal => false
  | Collect.DeadlineTimer => te.1 <? due
  | _ => true
  end.

(** The frame carries the correlation token [e] in its echo field. *)
Definition addressed (e : jsstring) (raw : frame) : bool :=
  match raw with
  | Decoded data => is_string (get_opt (Some data) (js "echo")) e
  | Malformed => false
  end.

(** A run of inbound frames through the listeners of the correlator. *)
Definition deliver (c : Fetch.correlator) (frames : list frame)
  : Fetch.correlator :=
  foldl (fun c raw => Fetch.emit_message raw c) c frames.

(** The tokens of the requests that still listen. *)
Definition pending_tokens (c : Fetch.correlator) : list jsstring :=
  Fetch.echo <$> filter (fun r => Fetch.listening r = true) (Fetch.requests c).

(** The numbering of the requests of a correlator: the call of rank [k]
    carries the counter value [min (k + 1) 2^53]. *)
Definition numbered (c : Fetch.correlator) : Prop :=
  Fetch.requestId c
  = Z.min (Z.of_nat (length (Fetch.requests c))) 9007199254740992
  /\ forall (k : nat) (r : Fetch.request),
       Fetch.requests c !! k = Some r ->
       exists now,
         Fetch.echo r
         = Fetch.mint (Z.min (Z.of_nat k + 1) 9007199254740992) now.

(** The report a process has printed, if it has printed one. *)
Definition collected (p : Collect.process) : option Collect.report :=
  match Collect.state p with
  | Collect.Exited (Collect.Printed r) => Some r
  | _ => None
  end.

Definition fetched (p : Fetch.process) : option Fetch.report :=
  match Fetch.state p with
  | Fetch.Exited (Fetch.Printed r) => Some r
  | _ => None
  end.

(** A response frame of the bus. *)
Definition response (e : jsstring) (retcode : Z) (data : json) : json :=
  JObj [(js "echo", JStr e); (js "retcode", JNum (Int retcode));
        (js "data", data)].

(** A frame that is no JSON object: text that does not parse, or a value
    that is null, a boolean, a number, a string or an array. *)
Definition not_object (raw : frame) : bool :=
  match raw with
  | Malformed => true
  | Decoded (JObj _) => false
  | Decoded _ => true
  end.

(** What [main] of fetch.mjs passes over while it waits for the answer to
    the request with token [e] whose timer is due at [due]: frames that do
    not carry the token, socket errors, a close, and timer events that are
    stale or early. *)
Definition passed_over (e : jsstring) (due : Z)
    (te : Z * Fetch.main_event) : bool :=
  match te.2 with
  | Fetch.Frame raw => negb (addressed e raw)
  | Fetch.RequestTimer => te.1 <? due
  | _ => true
  end.

(** What leaves a script at [await connectPromise] when the connect timer
    is due at [due]: anything but the opening, a socket error, a signal or
    the timer at or after [due]. *)
Definition before_open (due : Z) (te : Z * Collect.event) : bool :=
  match te.2 with
  | Collect.Open | Collect.SocketError _ | Collect.Signal => false
  | Collect.ConnectTimer => te.1 <? due
  | _ => true
  end.

Definition before_open_fetch (due : Z) (te : Z * Fetch.main_event) : bool :=
  match te.2 with
  | Fetch.Open | Fetch.SocketError _ => false
  | Fetch.ConnectTimer => te.1 <? due
  | _ => true
  end.

(** The frame [main] of fetch.mjs hands to [ws.send] when the socket opens
    at [t1]. *)
Definition history_request (a : Fetch.arguments) (t1 : Z) : json :=
  JObj [(js "action", JStr (js "get_group_msg_history"));
        (js "params", Fetch.history_params a);
        (js "echo", JStr (Fetch.mint 1 t1))].

(** The words [parseArgs] reads as options. *)
Definition is_option (w : jsstring) : bool :=
  str_eqb w (js "--napcat") || str_eqb w (js "--group")
  || str_eqb w (js "--duration") || str_eqb w (js "--count")
  || str_eqb w (js "--token") || str_eqb w (js "--help").

(** [Array.isArray(v)] *)
Definition is_array (v : value) : bool :=
  match v with
  | Some (JArr _) => true
  | _ => false
  end.

(** A request as a matching frame leaves it: timer cleared, listener
    removed. *)
Definition dismantled (r : Fetch.request) : bool :=
  negb (Fetch.timer_set r) && negb (Fetch.listening r).

(** A value that has no text: an object with a member named [toString],
    or an array that holds a value without text. *)
Fixpoint unprintable (j : json) : bool :=
  match j with
  | JObj fields =>
    match lookup_field (js "toString") fields with
    | Some _ => true
    | None => false
    end
  | JArr items => existsb unprintable items
  | _ => false
  end.

Definition unprintable_value (v : value) : bool :=
  match v with
  | Some j => unprintable j
  | None => false
  end.

(** A segment of the text kind whose text cannot be printed. *)
Definition unprintable_text (seg : json) : bool :=
  is_string (get_opt (Some seg) (js "type")) (js "text")
  && unprintable (seg_text seg).

(** The text has no digits where [parseInt] reads them: after its leading
    white space and one sign, it ends or goes on with a code unit that is
    no decimal digit. *)
Definition no_leading_digit (s : jsstring) : bool :=
  match (split_sign (trim_start s)).2 with
  | c :: _ => negb (is_digit c)
  | [] => true
  end.

(** The integers every one of which is a double of its own: those below
    2^53 in absolute value. *)
Definition safe (n : Z) : Prop := Z.abs n < 9007199254740992.

(** The one request of [main] of fetch.mjs, issued at [t1]: pending, with
    its timer and listener both in place or both gone. *)
Definition history_call (t1 : Z) (r : Fetch.request) : Prop :=
  Fetch.echo r = Fetch.mint 1 t1
  /\ Fetch.action r = js "get_group_msg_history"
  /\ Fetch.due r = t1 + 15000
  /\ Fetch.timer_set r = Fetch.listening r
  /\ Fetch.outcome r = Fetch.Pending.

End Props.

(** ** Sample data *)

Module Samples.
Import Js Json Date Message Runtime Props.

Definition no_env : environment :=
  {| NAPCAT_WS := None; NAPCAT_GROUP := None; NAPCAT_TOKEN := None |}.

(** A constructor that takes every address. *)
Definition accepting (address : option jsstring) : construction := Constructed.

(** A group message event of group [gid] sent at [t] with one text segment. *)
Definition group_event (gid t : Z) (txt : string) : json :=
  JObj [(js "post_type", JStr (js "message"));
        (js "message_type", JStr (js "group"));
        (js "group_id", JNum (Int gid));
        (js "time", JNum (Int t));
        (js "sender", JObj [(js "nickname", JStr (js "alice"));
                            (js "user_id", JNum (Int 10001))]);
        (js "message", JArr [text_seg (js txt)])].

(** A history item with one segment. *)
Definition item (t : Z) (seg : json) : json :=
  JObj [(js "time", JNum (Int t));
        (js "sender", JObj [(js "user_id", JNum (Int 10001))]);
        (js "message", JArr [seg])].

Definition three_items : list json :=
  [item 1700000000 (text_seg (js "one")); item 1700000001 image_seg;
   item 1700000002 (text_seg (js "three"))].

Definition collect_args (minutes : Z) : Collect.arguments :=
  {| Collect.napcat := Some (js "ws://127.0.0.1:3001");
     Collect.group := Some (js "123456789");
     Collect.duration := Int minutes;
     Collect.token := Some [] |}.

Definition fetch_args (n : Z) : Fetch.arguments :=
  {| Fetch.napcat := Some (js "ws://127.0.0.1:3001");
     Fetch.group := Some (js "123456789");
     Fetch.count := Int n;
     Fetch.token := Some [] |}.


(** node collect.mjs --group 123456789 --duration 0 *)
Definition zero_argv : list jsstring :=
  [js "node"; js "collect.mjs"; js "--group"; js "123456789";
   js "--duration"; js "0"].

(** A session that is opened at 100, sees the timer event at 101 and a
    message of the target group at 60000, and whose timer runs an hour
    after the opening. *)
Definition hour_trace : list (Z * Collect.event) :=
  [(100, Collect.Open); (101, Collect.DeadlineTimer);
   (60000, Collect.Message (Decoded (group_event 123456789 1700000000 "hi")));
   (3600100, Collect.DeadlineTimer)].

(** A session with one record in its buffer and its timer due at 3600100. *)
Definition one_buffered : Collect.process :=
  Collect.main_run (Collect.main_start (collect_args 60) Constructed 0)
    [(100, Collect.Open);
     (200, Collect.Message (Decoded (group_event 123456789 1700000000 "hi")))].

Definition history : jsstring := js "get_group_msg_history".

(** Two requests issued at 1000 and 1001 and both outstanding. *)
Definition two_pending : Fetch.correlator :=
  Fetch.run Fetch.start
    [(1000, Fetch.Call history (JObj [])); (1001, Fetch.Call history (JObj []))].

(** One request issued at 1000 whose timer ran at 16000. *)
Definition timed_out : Fetch.correlator :=
  Fetch.run Fetch.start
    [(1000, Fetch.Call history (JObj [])); (16000, Fetch.TimerFired 0)].

(** One request issued at 1000 and a close of the socket at 2000. *)
Definition closed_early : Fetch.correlator :=
  Fetch.run Fetch.start
    [(1000, Fetch.Call history (JObj [])); (2000, Fetch.Closed)].

(** A history item with the text "hi" and a time of 9 * 10^12 seconds,
    beyond the range of dates. *)
Definition late_item : json := item 9000000000000 (text_seg (js "hi")).

(** A history of three items: one with text, one without, and one with
    text and a time that is no date. *)
Definition late_history : list json :=
  [item 1700000000 (text_seg (js "one")); item 1700000001 image_seg;
   late_item].

(** A value that cannot be printed: an object with a member [toString]. *)
Definition opaque : json := JObj [(js "toString", JNum (Int 1))].

(** An answer to the request with token [e] whose return code cannot be
    printed. *)
Definition opaque_answer (e : jsstring) : json :=
  JObj [(js "echo", JStr e); (js "retcode", opaque)].

End Samples.

(** ** Facts about strings and tokens *)

Module StringFacts.
Import Js.

Lemma str_eqb_eq (a b : jsstring) : str_eqb a b = true <-> a = b.
Proof. unfold str_eqb. apply bool_decide_eq_true. Qed.

Lemma str_eqb_refl (a : jsstring) : str_eqb a a = true.
Proof. by apply str_eqb_eq. Qed.

Lemma str_eqb_neq (a b : jsstring) : a <> b -> str_eqb a b = false.
Proof. intros H. unfold str_eqb. by apply bool_decide_eq_false. Qed.

Lemma uint_units_digits (d : Decimal.uint) :
  Forall (fun c => is_digit c = true) (uint_units d).
Proof. induction d; simpl; constructor; auto. Qed.

Lemma uint_units_inj (d d' : Decimal.uint) :
  uint_units d = uint_units d' -> d = d'.
Proof.
  revert d'. induction d; intros d' H; destruct d'; simpl in H;
    try discriminate; try reflexivity;
    injection H as H; f_equal; auto.
Qed.

Lemma dec_N_inj (n m : N) : dec_N n = dec_N m -> n = m.
Proof.
  unfold dec_N. intros H%uint_units_inj.
  rewrite <- (Unsigned.of_to n), <- (Unsigned.of_to m). by rewrite H.
Qed.

Lemma dec_Z_nonneg_digits (n : Z) :
  0 <= n -> Forall (fun c => is_digit c = true) (dec_Z n).
Proof.
  intros Hn. unfold dec_Z. destruct (Z.ltb_spec n 0); [lia |].
  apply uint_units_digits.
Qed.

Lemma dec_Z_nonneg_inj (n m : Z) :
  0 <= n -> 0 <= m -> dec_Z n = dec_Z m -> n = m.
Proof.
  intros Hn Hm. unfold dec_Z.
  destruct (Z.ltb_spec n 0), (Z.ltb_spec m 0); try lia.
  intros Heq%dec_N_inj. lia.
Qed.

(** Two runs of digits closed by the same non-digit are the same run. *)
Lemma digits_prefix_unique (sep : N) (a b x y : jsstring) :
  is_digit sep = false ->
  Forall (fun c => is_digit c = true) a ->
  Forall (fun c => is_digit c = true) b ->
  a ++ sep :: x = b ++ sep :: y -> a = b.
Proof.
  intros Hsep Ha. revert b.
  induction Ha as [| c a Hc Ha IH]; intros b Hb Heq.
  - destruct Hb as [| d b Hd Hb]; [done |].
    simpl in Heq. injection Heq as -> _. congruence.
  - destruct Hb as [| d b Hd Hb]; simpl in Heq.
    + injection Heq as -> _. congruence.
    + injection Heq as -> Heq. f_equal. by apply IH.
Qed.

End StringFacts.

(** ** Facts about numbers *)

Module NumberFacts.
Import Js Json Date Runtime Props StringFacts.

Lemma of_Z_exact (z : Z) : Z.abs z <= 9007199254740992 -> of_Z z = Int z.
Proof.
  intros H. unfold of_Z.
  by destruct (Z.leb_spec (Z.abs z) 9007199254740992); [| lia].
Qed.

Lemma dyadic_not_NaN (q s : Z) : dyadic q s <> NaN.
Proof.
  unfold dyadic. destruct (0 <=? s); [done |]. by destruct (_ =? 1).
Qed.

Lemma round_ratio_not_NaN (n d : Z) : round_ratio n d <> NaN.
Proof.
  unfold round_ratio. destruct (n =? 0); [done |]. cbv zeta.
  destruct (_ || _); [done | apply dyadic_not_NaN].
Qed.

Lemma of_Z_not_NaN (z : Z) : of_Z z <> NaN.
Proof.
  unfold of_Z. destruct (_ <=? _); [done | apply round_ratio_not_NaN].
Qed.

(** Beyond 2^53 the exponent of an integer is the number of bits it has
    over 53. *)
Lemma exponent_big (a : Z) :
  9007199254740992 < a -> exponent a 1 = Z.log2 a - 52 /\ 1 <= Z.log2 a - 52.
Proof.
  intros Ha.
  assert (HL : 53 <= Z.log2 a).
  { change 53 with (Z.log2 9007199254740992). apply Z.log2_le_mono. lia. }
  split; [| lia]. unfold exponent. change (Z.log2 1) with 0.
  rewrite Z.sub_0_r.
  rewrite (Z.max_r (- (Z.log2 a - 52)) 0), (Z.max_l (Z.log2 a - 52) 0) by lia.
  rewrite Z.pow_0_r, Z.mul_1_r, Z.mul_1_l.
  assert (Hq : 2 ^ 52 <= a / 2 ^ (Z.log2 a - 52)).
  { apply Z.div_le_lower_bound; [apply Z.pow_pos_nonneg; lia |].
    rewrite <- Z.pow_add_r by lia.
    replace (Z.log2 a - 52 + 52) with (Z.log2 a) by lia.
    apply Z.log2_spec. lia. }
  destruct (Z.ltb_spec (a / 2 ^ (Z.log2 a - 52)) (2 ^ 52)); lia.
Qed.

Lemma mantissa_lower (a s : Z) :
  0 <= s -> a / 2 ^ s <= mantissa a 1 s.
Proof.
  intros Hs. unfold mantissa.
  rewrite (Z.max_r (- s) 0), (Z.max_l s 0) by lia.
  rewrite Z.pow_0_r, Z.mul_1_r, Z.mul_1_l. cbv zeta.
  destruct (_ || _); lia.
Qed.

(** An integer beyond 2^53 rounds to an integer that is not below 2^53,
    or to an infinity. *)
Lemma round_big (z : Z) :
  9007199254740992 < Z.abs z ->
  (exists b, round_ratio z 1 = Infinity b)
  \/ (exists v, round_ratio z 1 = Int v /\ 9007199254740992 <= Z.abs v).
Proof.
  intros Hz. unfold round_ratio.
  destruct (Z.eqb_spec z 0) as [-> | Hz0]; [cbn in Hz; lia |].
  cbv zeta. destruct (exponent_big (Z.abs z) Hz) as [-> Hs].
  set (s := Z.log2 (Z.abs z) - 52) in *.
  pose proof (mantissa_lower (Z.abs z) s ltac:(lia)) as Hq.
  assert (Hlow : 2 ^ 52 <= Z.abs z / 2 ^ s).
  { apply Z.div_le_lower_bound; [apply Z.pow_pos_nonneg; lia |].
    rewrite <- Z.pow_add_r by lia.
    replace (s + 52) with (Z.log2 (Z.abs z)) by (unfold s; lia).
    apply Z.log2_spec. lia. }
  destruct (_ || _); [left; eauto |]. right.
  unfold dyadic. destruct (Z.leb_spec 0 s); [| lia].
  eexists. split; [reflexivity |].
  rewrite !Z.abs_mul.
  assert (H2 : 2 ^ 1 <= 2 ^ s) by (apply Z.pow_le_mono_r; lia).
  change (2 ^ 1) with 2 in H2.
  rewrite (Z.abs_eq (2 ^ s)) by lia.
  rewrite (Z.abs_eq (mantissa (Z.abs z) 1 s)) by lia.
  replace (Z.abs (Z.sgn z)) with 1 by lia.
  change 9007199254740992 with (2 ^ 52 * 2).
  rewrite Z.mul_1_l. apply Z.mul_le_mono_nonneg; lia.
Qed.

Lemma of_Z_big (z : Z) :
  9007199254740992 < Z.abs z ->
  (exists b, of_Z z = Infinity b)
  \/ (exists v, of_Z z = Int v /\ 9007199254740992 <= Z.abs v).
Proof.
  intros Hz. unfold of_Z.
  destruct (Z.leb_spec (Z.abs z) 9007199254740992); [lia |].
  by apply round_big.
Qed.

(** The nearest double of an integer is a safe integer only when the
    integer is that one. *)
Lemma of_Z_safe (m n : Z) : safe n -> of_Z m = Int n -> m = n.
Proof.
  unfold safe. intros Hn Hm.
  destruct (Z.le_gt_cases (Z.abs m) 9007199254740992) as [Hsmall | Hbig].
  - rewrite of_Z_exact in Hm by done. by injection Hm.
  - destruct (of_Z_big m Hbig) as [[b Hb] | (v & Hv & Hlow)];
      rewrite Hm in *; [done |].
    injection Hv as <-. lia.
Qed.

(** The date of a number of milliseconds that is an integer. *)
Lemma time_clip_of_Z (p : Z) :
  time_clip (of_Z p)
  = if Z.abs p <=? 8640000000000000 then Some p else None.
Proof.
  destruct (Z.le_gt_cases (Z.abs p) 9007199254740992) as [Hsmall | Hbig].
  - by rewrite of_Z_exact.
  - destruct (Z.leb_spec (Z.abs p) 8640000000000000); [lia |].
    destruct (of_Z_big p Hbig) as [[b ->] | (v & -> & Hlow)]; [done |].
    cbn [time_clip].
    by destruct (Z.leb_spec (Z.abs v) 8640000000000000); [lia |].
Qed.

(** A safe integer prints as its decimal digits. *)
Lemma number_to_string_exact (n : Z) :
  Z.abs n <= 9007199254740992 -> number_to_string (Int n) = dec_Z n.
Proof.
  intros Hn. unfold number_to_string, double. rewrite of_Z_exact by done.
  by destruct (Z.leb_spec (Z.abs n) 9007199254740992); [| lia].
Qed.

Lemma read_digits_count (s : jsstring) (acc : Z) (count : nat) :
  exists v k rest, read_digits acc count s = (v, (count + k)%nat, rest).
Proof.
  revert acc count. induction s as [| c s IH]; intros acc count.
  - exists acc, 0%nat, []. by rewrite Nat.add_0_r.
  - cbn [read_digits]. destruct (is_digit c).
    + destruct (IH (acc * 10 + (Z.of_N c - 48)) (S count))
        as (v & k & rest & ->).
      exists v, (S k), rest. do 2 f_equal. lia.
    + exists acc, 0%nat, (c :: s). by rewrite Nat.add_0_r.
Qed.

(** [parseInt] gives NaN exactly on the texts that have no digit where it
    reads them. *)
Lemma parseInt_string_NaN (s : jsstring) :
  parseInt_string s = NaN <-> no_leading_digit s = true.
Proof.
  unfold parseInt_string, no_leading_digit.
  destruct (split_sign (trim_start s)) as [sign body]. cbn [snd].
  destruct body as [| c body]; [done |]. cbn [read_digits].
  destruct (is_digit c); cbn [negb]; [| done].
  destruct (read_digits_count body (0 * 10 + (Z.of_N c - 48)) 1)
    as (v & k & rest & ->).
  cbn [Nat.add]. split; [| done]. intros H. by apply of_Z_not_NaN in H.
Qed.

End NumberFacts.

(** ** Facts about extraction and formatting *)

Module MessageFacts.
Import Js Json Date Message Runtime Props StringFacts.

Lemma filter_text_encoded (segs : list segment) :
  filter_text (map encode_segment segs)
  = Ok (map encode_segment (filter (fun s => kind s = js "text") segs)).
Proof.
  induction segs as [| s segs IH]; [done |].
  cbn [map filter_text].
  replace (get (Some (encode_segment s)) (js "type"))
    with (Ok (Some (JStr (kind s)))) by reflexivity.
  cbn [bind]. rewrite IH. cbn [bind is_string].
  rewrite filter_cons. unfold str_eqb.
  destruct (decide (kind s = js "text")) as [Hk | Hk].
  - by rewrite bool_decide_eq_true_2.
  - by rewrite bool_decide_eq_false_2.
Qed.

Lemma seg_text_encoded (s : segment) :
  seg_text (encode_segment s) = JStr (default [] (text s)).
Proof. destruct s as [k [[| c t] |]]; reflexivity. Qed.

Lemma join_empty_strings (l : list jsstring) :
  join_empty (map JStr l) = Ok (concat l).
Proof.
  induction l as [| s l IH]; [done |].
  cbn [map concat join_empty to_string bind]. by rewrite IH.
Qed.

(** On segments in their wire form, [extractText] is the extraction the
    interface describes. *)
Lemma extractText_refines (segs : list segment) :
  extractText (Some (JArr (map encode_segment segs))) = Ok (extract_spec segs).
Proof.
  unfold extractText, extract_spec. rewrite filter_text_encoded. cbn [bind].
  replace (map seg_text
             (map encode_segment (filter (fun s => kind s = js "text") segs)))
    with (map JStr (map (fun s => default [] (text s))
                        (filter (fun s => kind s = js "text") segs))).
  - by rewrite join_empty_strings.
  - rewrite <- !list_fmap_compose.
    apply list_fmap_ext. intros _ s _. symmetry. apply seg_text_encoded.
Qed.

(** Without a segment of the text kind the extracted text is empty. *)
Lemma extractText_no_text (segs : list segment) :
  extractText (Some (JArr (map encode_segment
                             (filter (fun s => kind s <> js "text") segs))))
  = Ok [].
Proof.
  rewrite extractText_refines. unfold extract_spec.
  replace (filter (fun s => kind s = js "text")
                  (filter (fun s => kind s <> js "text") segs))
    with (@nil segment); [done |].
  induction segs as [| s segs IH]; [done |].
  rewrite (filter_cons (fun s => kind s <> js "text")).
  destruct (decide (kind s <> js "text")) as [Hk | Hk]; [| exact IH].
  rewrite filter_cons. by rewrite decide_False.
Qed.

(** [formatMessage] returns null exactly when the text extracted from the
    message of its argument is empty. *)
Lemma formatMessage_null_iff (msg : value) :
  formatMessage msg = Ok None
  <-> exists message, get msg (js "message") = Ok message
                      /\ extractText message = Ok [].
Proof.
  unfold formatMessage. split.
  - destruct (get msg (js "message")) as [message |]; cbn [bind]; [| done].
    destruct (extractText message) as [[| c t] |] eqn:Htext; cbn [bind];
      [by eauto | | done].
    destruct (get msg (js "sender")) as [sender_v |]; cbn [bind]; [| done].
    destruct (match or_else _ _ with Some _ => _ | None => _ end);
      cbn [bind]; [| done].
    destruct (get msg (js "time")) as [time_v |]; cbn [bind]; [| done].
    destruct (truthy time_v); cbn [bind]; [| done].
    destruct (iso_of_seconds time_v); cbn [bind]; done.
  - intros (message & -> & Htext). cbn [bind]. by rewrite Htext.
Qed.

Lemma formatMessage_record_text (msg : value) (r : CollectedRecord) :
  formatMessage msg = Ok (Some r) ->
  exists message, get msg (js "message") = Ok message
                  /\ extractText message = Ok (content r) /\ content r <> [].
Proof.
  unfold formatMessage.
  destruct (get msg (js "message")) as [message |]; cbn [bind]; [| done].
  destruct (extractText message) as [[| c t] |] eqn:Htext; cbn [bind];
    [done | | done].
  destruct (get msg (js "sender")) as [sender_v |]; cbn [bind]; [| done].
  destruct (match or_else _ _ with Some _ => _ | None => _ end);
    cbn [bind]; [| done].
  destruct (get msg (js "time")) as [time_v |]; cbn [bind]; [| done].
  destruct (truthy time_v).
  - destruct (iso_of_seconds time_v); cbn [bind]; [| done].
    intros [= <-]. eauto.
  - cbn [bind]. intros [= <-]. eauto.
Qed.

End MessageFacts.

(** ** Facts about the collection session *)

Module CollectFacts.
Import Js Json Date Message Runtime Props StringFacts MessageFacts.
Import Collect.

Lemma on_message_accepted (target : number) (raw : frame)
    (buf : list CollectedRecord) :
  on_message target raw buf = buf ++ option_list (accepted target raw).
Proof.
  unfold on_message, accepted, accept, is_group_message, scope_matches, formatted.
  destruct raw as [| ev]; [by rewrite app_nil_r |].
  destruct ev as [| | | | | fields]; cbn [get get_opt bind is_string andb];
    try by rewrite app_nil_r.
  destruct (is_string (lookup_field (js "post_type") fields) _);
    cbn [andb bind]; [| by rewrite app_nil_r].
  destruct (is_string (lookup_field (js "message_type") fields) _);
    cbn [andb bind]; [| by rewrite app_nil_r].
  destruct (parseInt _) as [n |]; cbn [bind]; [| by rewrite app_nil_r].
  destruct (num_strict_eq n target); [| by rewrite app_nil_r].
  destruct (formatMessage _) as [[r |] |]; [done | |]; by rewrite app_nil_r.
Qed.


Lemma main_run_app (p : process) (l1 l2 : list (Z * event)) :
  main_run p (l1 ++ l2) = main_run (main_run p l1) l2.
Proof. apply foldl_app. Qed.

Lemma terminal_step (p : process) (te : Z * event) :
  (exists o, state p = Exited o) \/ state p = Killed -> main_step p te = p.
Proof.
  destruct te as [t e]. unfold main_step.
  intros [[o ->] | ->]; reflexivity.
Qed.

Lemma crashed_run (p : process) (trace : list (Z * event)) :
  state p = Crashed -> main_run p trace = p.
Proof.
  unfold main_run. intros Hp.
  induction trace as [| [t e] trace IH]; [done |].
  cbn [foldl]. unfold main_step at 2. by rewrite Hp.
Qed.

Lemma terminal_run (p : process) (trace : list (Z * event)) :
  (exists o, state p = Exited o) \/ state p = Killed -> main_run p trace = p.
Proof.
  unfold main_run. revert p.
  induction trace as [| te trace IH]; intros p H; [done |].
  cbn [foldl]. rewrite terminal_step by done. by apply IH.
Qed.

Lemma step_args (p : process) (te : Z * event) :
  args (main_step p te) = args p /\ startTime (main_step p te) = startTime p.
Proof.
  destruct te as [t e]. unfold main_step.
  destruct (state p), e; cbn; try done; by destruct (_ <=? _).
Qed.

(** While nothing ends the wait, the session stays in Collecting with the
    same timer and its buffer grows by the accepted records, in arrival
    order. *)
Lemma collecting_run (p : process) (due : Z) (buf : list CollectedRecord)
    (trace : list (Z * event)) :
  state p = Collecting due buf ->
  forallb (waiting due) trace = true ->
  main_run p trace
  = {| args := args p; startTime := startTime p;
       state := Collecting due
                  (buf ++ omap (accepted (targetGroup (args p)))
                               (frames_of trace)) |}.
Proof.
  unfold main_run. revert p buf.
  induction trace as [| [t e] trace IH]; intros p buf Hp Hw.
  - cbn. rewrite app_nil_r. destruct p; cbn in *; by subst.
  - cbn [forallb] in Hw. apply andb_prop in Hw as [Hte Hw].
    cbn [foldl].
    assert (Hstep : main_step p (t, e)
              = {| args := args p; startTime := startTime p;
                   state := Collecting due
                     (buf ++ omap (accepted (targetGroup (args p)))
                                  (frames_of [(t, e)])) |}).
    { unfold main_step. rewrite Hp. unfold waiting in Hte. cbn in Hte.
      destruct e; cbn; rewrite ?app_nil_r; try done;
        try (destruct p; cbn in *; by subst).
      - rewrite on_message_accepted.
        by destruct (accepted _ raw).
      - apply Z.ltb_lt in Hte.
        destruct (Z.leb_spec due t); [lia |].
        destruct p; cbn in *; by subst. }
    rewrite Hstep. erewrite IH; [| reflexivity | done]. cbn.
    do 2 f_equal. rewrite <- app_assoc. f_equal.
    unfold frames_of. destruct e; cbn; try done.
    by destruct (accepted _ raw).
Qed.

(** The timer of a collecting session, when due, ends it with the report
    of the buffer. *)
Lemma deadline_step (p : process) (due t : Z) (buf : list CollectedRecord) :
  state p = Collecting due buf -> due <= t ->
  state (main_step p (t, DeadlineTimer))
  = Exited (Printed (result_of (args p) (startTime p) t buf)).
Proof.
  intros Hp Hdue. unfold main_step. rewrite Hp.
  by destruct (Z.leb_spec due t); [| lia].
Qed.

(** Only the timer prints a report. *)
Lemma printed_by_timer (p : process) (due t : Z) (buf : list CollectedRecord)
    (e : event) (r : report) :
  state p = Collecting due buf ->
  state (main_step p (t, e)) = Exited (Printed r) ->
  e = DeadlineTimer /\ due <= t /\ r = result_of (args p) (startTime p) t buf.
Proof.
  intros Hp. unfold main_step. rewrite Hp.
  destruct e; cbn; rewrite ?Hp; try done.
  destruct (Z.leb_spec due t); cbn; rewrite ?Hp; [| done].
  intros [= <-]. done.
Qed.

End CollectFacts.

(** ** Facts about the request correlator *)

Module CorrelatorFacts.
Import Js Json Date Message Runtime Props StringFacts MessageFacts.
Import Fetch.

Lemma mint_inj (id id' now now' : Z) :
  0 <= id -> 0 <= id' -> mint id now = mint id' now' -> id = id'.
Proof.
  intros Hid Hid'. unfold mint. intros H%app_inv_head.
  change (js "_") with [95%N] in H. cbn [app] in H.
  apply dec_Z_nonneg_inj; [done | done |].
  eapply (digits_prefix_unique 95%N); [done | | | exact H];
    by apply dec_Z_nonneg_digits.
Qed.

Lemma increment_exact (n : Z) :
  n < 9007199254740992 -> increment n = n + 1.
Proof. intros H. unfold increment. by destruct (Z.ltb_spec n 9007199254740992); [| lia]. Qed.

Lemma increment_min (n : Z) :
  increment (Z.min n 9007199254740992) = Z.min (n + 1) 9007199254740992.
Proof. unfold increment. destruct (Z.ltb_spec (Z.min n 9007199254740992) 9007199254740992); lia. Qed.

(** The callbacks never change the token or the action of a request. *)
Lemma handler_echo (raw : frame) (r : request) :
  echo (handler raw r) = echo r /\ action (handler raw r) = action r.
Proof.
  unfold handler. destruct raw as [| data]; [done |].
  destruct (get _ _) as [e |]; [| done].
  by destruct (is_string e (echo r)).
Qed.

Lemma numbered_start : numbered start.
Proof. split; [done |]. intros k r H. by destruct k. Qed.

Lemma numbered_step (c : correlator) (te : Z * event) :
  numbered c -> numbered (step c te).
Proof.
  intros [Hid Hreq]. destruct te as [t [act params | raw | i |]];
    cbn [step]; [| | | done].
  - split; cbn [sendRequest requestId requests].
    + rewrite length_app, Hid, increment_min. cbn [length]. f_equal. lia.
    + intros k r Hk. apply lookup_app_Some in Hk as [Hk | [Hlen Hk]]; [eauto |].
      apply list_lookup_singleton_Some in Hk as [Hk <-]. cbn [echo].
      exists t. rewrite Hid, increment_min. do 2 f_equal. lia.
  - split; cbn [emit_message requestId requests].
    + by rewrite length_fmap.
    + intros k r Hk. rewrite list_lookup_fmap in Hk.
      destruct (requests c !! k) as [r0 |] eqn:Hr0; [| done].
      injection Hk as <-. destruct (Hreq k r0 Hr0) as [now Hnow].
      exists now. destruct (listening r0); [| done].
      by rewrite (proj1 (handler_echo raw r0)).
  - unfold fire_timer. destruct (requests c !! i) as [r0 |] eqn:Hr0; [| done].
    destruct (timer_set r0 && (due r0 <=? t)); [| done].
    split; cbn [requestId requests].
    + by rewrite length_insert.
    + intros k r Hk. destruct (decide (i = k)) as [<- | Hne].
      * rewrite list_lookup_insert_eq in Hk by (by eapply lookup_lt_Some).
        injection Hk as <-. exact (Hreq i r0 Hr0).
      * rewrite list_lookup_insert_ne in Hk by done. eauto.
Qed.

Lemma numbered_run (trace : list (Z * event)) : numbered (run start trace).
Proof.
  unfold run. generalize numbered_start. generalize start.
  induction trace as [| te trace IH]; intros c Hc; [done |].
  cbn [foldl]. apply IH. by apply numbered_step.
Qed.

(** Below the saturation of the counter the tokens are pairwise distinct. *)
Lemma numbered_distinct (c : correlator) :
  numbered c -> Z.of_nat (length (requests c)) <= 9007199254740992 ->
  NoDup (echo <$> requests c).
Proof.
  intros [_ Hreq] Hlen. apply NoDup_alt. intros i j e Hi Hj.
  rewrite list_lookup_fmap in Hi, Hj.
  destruct (requests c !! i) as [ri |] eqn:Hri; [| done].
  destruct (requests c !! j) as [rj |] eqn:Hrj; [| done].
  injection Hi as Hi. injection Hj as Hj.
  destruct (Hreq i ri Hri) as [ni Hni], (Hreq j rj Hrj) as [nj Hnj].
  apply lookup_lt_Some in Hri, Hrj.
  assert (Heq : Z.min (Z.of_nat i + 1) 9007199254740992
                = Z.min (Z.of_nat j + 1) 9007199254740992).
  { apply (mint_inj _ _ ni nj); [lia | lia | congruence]. }
  lia.
Qed.

(** A listener ignores every frame that does not carry its token. *)
Lemma handler_other (raw : frame) (r : request) :
  addressed (echo r) raw = false -> handler raw r = r.
Proof.
  unfold addressed, handler. destruct raw as [| data]; [done |].
  destruct data; cbn [get get_opt]; try done.
  by intros ->.
Qed.

(** A listener that finds its token in a frame clears its timer, removes
    itself and settles its promise from the frame, unless the error it
    has to build cannot be printed. *)
Lemma handler_match (data : json) (r : request) :
  addressed (echo r) (Decoded data) = true ->
  handler (Decoded data) r
  = {| echo := echo r; action := action r; due := due r;
       timer_set := false; listening := false;
       outcome :=
         if is_number (get_opt (Some data) (js "retcode")) 0
         then resolve (outcome r) (get_opt (Some data) (js "data"))
         else match api_error (action r) data with
              | Ok err => reject (outcome r) err
              | Throw _ => outcome r
              end |}.
Proof.
  unfold addressed, handler.
  destruct data; cbn [get get_opt is_string]; try done.
  by intros ->.
Qed.

Lemma handler_match_listening (raw : frame) (r : request) :
  addressed (echo r) raw = true -> listening (handler raw r) = false.
Proof.
  destruct raw as [| data]; [done |]. intros H. by rewrite handler_match.
Qed.

Lemma emit_lookup (raw : frame) (c : correlator) (i : nat) :
  requests (emit_message raw c) !! i
  = (fun r => if listening r then handler raw r else r) <$> requests c !! i.
Proof. cbn [emit_message requests]. apply list_lookup_fmap. Qed.

(** A request that no longer listens is untouched by any run of frames. *)
Lemma deliver_deaf (frames : list frame) (c : correlator) (i : nat)
    (r : request) :
  requests c !! i = Some r -> listening r = false ->
  requests (deliver c frames) !! i = Some r.
Proof.
  unfold deliver. revert c.
  induction frames as [| raw frames IH]; intros c Hi Hl; [done |].
  cbn [foldl]. apply IH; [| done].
  by rewrite emit_lookup, Hi; cbn; rewrite Hl.
Qed.

(** A listening request sees, of a run of frames, the first that carries
    its token and no other. *)
Lemma deliver_listening (frames : list frame) (c : correlator) (i : nat)
    (r : request) :
  requests c !! i = Some r -> listening r = true ->
  requests (deliver c frames) !! i
  = Some match find (addressed (echo r)) frames with
         | Some raw => handler raw r
         | None => r
         end.
Proof.
  revert c.
  induction frames as [| raw frames IH]; intros c Hi Hl; [done |].
  change (deliver c (raw :: frames))
    with (deliver (emit_message raw c) frames).
  cbn [find].
  assert (Hstep : requests (emit_message raw c) !! i = Some (handler raw r)).
  { by rewrite emit_lookup, Hi; cbn; rewrite Hl. }
  destruct (addressed (echo r) raw) eqn:Haddr.
  - apply deliver_deaf; [done |]. by apply handler_match_listening.
  - rewrite handler_other in Hstep by done. by apply IH.
Qed.

Lemma addressed_same (raw : frame) (e e' : jsstring) :
  addressed e raw = true -> addressed e' raw = true -> e = e'.
Proof.
  unfold addressed. destruct raw as [| data]; [done |].
  unfold is_string. destruct (get_opt _ _) as [[] |]; try done.
  intros H1%str_eqb_eq H2%str_eqb_eq. congruence.
Qed.

(** Distinct tokens among the listening requests: two of them with one
    token are one request. *)
Lemma pending_tokens_unique (l : list request) (i j : nat) (ri rj : request) :
  NoDup (echo <$> filter (fun r => listening r = true) l) ->
  l !! i = Some ri -> l !! j = Some rj ->
  listening ri = true -> listening rj = true ->
  echo ri = echo rj -> i = j.
Proof.
  revert i j. induction l as [| r l IH]; intros i j Hnd Hi Hj Hli Hlj He.
  - done.
  - rewrite filter_cons in Hnd.
    destruct i as [| i], j as [| j]; cbn in Hi, Hj.
    + done.
    + injection Hi as ->. rewrite decide_True in Hnd by done.
      cbn in Hnd. apply NoDup_cons in Hnd as [Hnot _].
      exfalso. apply Hnot. rewrite He.
      apply list_elem_of_fmap. exists rj. split; [done |].
      apply list_elem_of_filter. split; [done |].
      by eapply list_elem_of_lookup_2.
    + injection Hj as ->. rewrite decide_True in Hnd by done.
      cbn in Hnd. apply NoDup_cons in Hnd as [Hnot _].
      exfalso. apply Hnot. rewrite <- He.
      apply list_elem_of_fmap. exists ri. split; [done |].
      apply list_elem_of_filter. split; [done |].
      by eapply list_elem_of_lookup_2.
    + f_equal. apply IH; try done.
      destruct (decide (listening r = true)); [| done].
      cbn in Hnd. by apply NoDup_cons in Hnd as [_ Hnd].
Qed.

(** The timer of a pending request, when due, rejects it with the timeout
    error that names its action, and leaves its listener in place. *)
Lemma fire_timer_pending (c : correlator) (i : nat) (r : request) (t : Z) :
  requests c !! i = Some r -> timer_set r = true -> due r <= t ->
  requests (fire_timer t i c) !! i = Some (on_timeout r).
Proof.
  intros Hi Hset Hdue. unfold fire_timer. rewrite Hi, Hset.
  destruct (Z.leb_spec (due r) t); [| lia]. cbn.
  apply list_lookup_insert_eq. by eapply lookup_lt_Some.
Qed.

Lemma settle_settled (p : promise) (v : value) (e : error) :
  p <> Pending -> resolve p v = p /\ reject p e = p.
Proof. by destruct p. Qed.

Lemma step_keeps_settled (c : correlator) (te : Z * event) (i : nat)
    (r : request) :
  requests c !! i = Some r -> outcome r <> Pending ->
  exists r', requests (step c te) !! i = Some r' /\ outcome r' = outcome r.
Proof.
  intros Hi Hset. destruct te as [t [act params | raw | j |]]; cbn [step].
  - exists r. split; [| done]. cbn [sendRequest requests].
    by apply lookup_app_l_Some.
  - rewrite emit_lookup, Hi. cbn. eexists; split; [done |].
    destruct (listening r); [| done].
    unfold handler. destruct raw as [| data]; [done |].
    destruct (get _ _) as [e |]; [| done].
    destruct (is_string e (echo r)); [| done]. cbn [outcome].
    destruct (is_number _ _).
    + by destruct (settle_settled (outcome r)
                     (get_opt (Some data) (js "data")) TypeError Hset)
        as [-> _].
    + destruct (api_error (action r) data) as [err |]; [| done].
      by destruct (settle_settled (outcome r) None err Hset) as [_ ->].
  - unfold fire_timer. destruct (requests c !! j) as [rj |] eqn:Hj; [| eauto].
    destruct (timer_set rj && (due rj <=? t)); [| eauto].
    cbn [requests]. destruct (decide (j = i)) as [-> | Hne].
    + rewrite list_lookup_insert_eq by (by eapply lookup_lt_Some).
      eexists; split; [done |]. rewrite Hi in Hj. injection Hj as <-.
      cbn [on_timeout outcome].
      by destruct (settle_settled (outcome r) None
                     (request_timeout (action r)) Hset) as [_ ->].
    + rewrite list_lookup_insert_ne by done. eauto.
  - eauto.
Qed.

End CorrelatorFacts.

(** ** Facts about the fetch flow *)

Module FetchFacts.
Import Js Json Date Message Runtime Props StringFacts MessageFacts.
Import CorrelatorFacts Fetch.

(** An item the formatter returns for is kept exactly when its extracted
    text is not empty. *)
Lemma formatted_has_text (ev : json) (f : option CollectedRecord) :
  formatMessage (Some ev) = Ok f -> has_text ev = bool_decide (is_Some f).
Proof.
  intros H. unfold has_text, extracted_text. destruct f as [r |].
  - apply formatMessage_record_text in H as (message & -> & Htext & Hne).
    cbn [bind]. rewrite Htext. by destruct (content r).
  - apply formatMessage_null_iff in H as (message & -> & Htext).
    cbn [bind]. by rewrite Htext.
Qed.

Lemma map_format_count (items : list json)
    (formatted : list (option CollectedRecord)) :
  map_format items = Ok formatted ->
  length (filter_Boolean formatted) = text_count items.
Proof.
  unfold text_count, filter_Boolean. revert formatted.
  induction items as [| ev items IH]; intros formatted; cbn [map_format].
  - by intros [= <-].
  - destruct (formatMessage (Some ev)) as [f |] eqn:Hf; cbn [bind]; [| done].
    destruct (map_format items) as [others |]; cbn [bind]; [| done].
    intros [= <-]. rewrite filter_cons, (formatted_has_text ev f Hf).
    specialize (IH others eq_refl).
    destruct f as [r |]; cbn.
    + rewrite decide_True by done. cbn. by rewrite IH.
    + rewrite decide_False by done. exact IH.
Qed.

(** Both shapes of the history payload give the same list of items. *)
Lemma rawMessages_direct (items : list json) :
  item_list (rawMessages (Some (JArr items))) = items.
Proof. reflexivity. Qed.

Lemma rawMessages_nested (historyData : json) (items : list json) :
  get_opt (Some historyData) (js "messages") = Some (JArr items) ->
  item_list (rawMessages (Some historyData)) = items.
Proof. intros H. unfold rawMessages. by rewrite H. Qed.

Lemma response_fields (e : jsstring) (retcode : Z) (data : json) :
  get (Some (response e retcode data)) (js "echo") = Ok (Some (JStr e))
  /\ get_opt (Some (response e retcode data)) (js "echo") = Some (JStr e)
  /\ get_opt (Some (response e retcode data)) (js "retcode")
     = Some (JNum (Int retcode))
  /\ get_opt (Some (response e retcode data)) (js "data") = Some data.
Proof. repeat split; reflexivity. Qed.

(** The one request of [main], answered with return code 0, hands its
    payload to the rest of [main]. *)
Lemma main_answered (a : arguments) (t0 t1 t2 : Z) (historyData : json)
    (o : output) :
  match result_of a (Some historyData) t2 with
  | Ok r => Printed r
  | Throw e => Failed e
  end = o ->
  state (main_run (main_start a Constructed t0)
           [(t1, Open);
            (t2, Frame (Decoded (response (mint 1 t1) 0 historyData)))])
  = Exited o.
Proof.
  intros Ho. unfold main_run, main_start. cbn [foldl main_step state args].
  unfold resume. rewrite emit_lookup.
  change (requests (sendRequest t1 (js "get_group_msg_history")
                      (history_params a) start) !! 0%nat)
    with (Some {| echo := mint 1 t1; action := js "get_group_msg_history";
                  due := t1 + 15000; timer_set := true; listening := true;
                  outcome := Pending |}).
  destruct (response_fields (mint 1 t1) 0 historyData) as (_ & He & Hrc & Hd).
  cbn [fmap option_fmap option_map listening].
  rewrite handler_match
    by (unfold addressed; cbn [echo]; rewrite He; apply str_eqb_refl).
  rewrite Hrc, Hd. cbn [is_number num_strict_eq Z.eqb outcome resolve].
  rewrite <- Ho. by destruct (result_of a (Some historyData) t2).
Qed.

End FetchFacts.

(** ** Facts about the command line of collect.mjs *)

Module ArgsFacts.
Import Js Json Runtime Collect.

Lemma int_or_nonzero (arg : option jsstring) (fallback : number) :
  nonzero fallback = true -> nonzero (int_or arg fallback) = true.
Proof.
  intros H. unfold int_or.
  by destruct (nonzero (parseInt_string (text_to_string arg))) eqn:Hn.
Qed.

Lemma nonzero_not_zero (x : number) : nonzero x = true -> x <> Int 0.
Proof. by intros H ->. Qed.

Lemma parse_loop_duration (n : nat) (argv : list jsstring) (a a' : arguments) :
  (length argv <= n)%nat -> nonzero (duration a) = true ->
  parse_loop argv a = Some a' -> nonzero (duration a') = true.
Proof.
  revert argv a. induction n as [| n IH]; intros argv a Hlen Ha.
  - destruct argv; [| cbn in Hlen; lia]. by intros [= <-].
  - destruct argv as [| flag rest]; [by intros [= <-] |].
    cbn [length] in Hlen. cbn [parse_loop].
    repeat match goal with
           | |- context [if ?b then _ else _] => destruct b
           end;
      try discriminate;
      try (destruct rest as [| operand rest'];
           [ intros [= <-]; cbn [duration]; auto using int_or_nonzero
           | apply IH; cbn [length duration] in *;
             [lia | auto using int_or_nonzero] ]).
Qed.

(** No command line gives a duration of 0. *)
Lemma parseArgs_duration (env : environment) (argv : list jsstring)
    (a : arguments) :
  parseArgs env argv = Parsed a -> nonzero (duration a) = true.
Proof.
  unfold parseArgs.
  destruct (parse_loop _ _) as [a' |] eqn:Hloop; [| done].
  destruct (truthy _); [| done]. intros [= <-].
  eapply parse_loop_duration; [reflexivity | | exact Hloop]. done.
Qed.

End ArgsFacts.

(** ** Facts about whole runs of the collection session *)

Module SessionFacts.
Import Js Json Date Message Runtime Props StringFacts MessageFacts.
Import CollectFacts Collect.

Lemma silent_waiting (due : Z) (trace : list (Z * event)) :
  forallb (silent due) trace = true ->
  forallb (waiting due) trace = true /\ frames_of trace = [].
Proof.
  induction trace as [| [t e] trace IH]; [done |].
  cbn [forallb]. intros [Hte Htrace]%andb_prop.
  destruct (IH Htrace) as [Hw Hf]. unfold frames_of in *.
  destruct e; cbn in *; try done; by rewrite ?Hte, ?Hw.
Qed.

Lemma forallb_take {A} (f : A -> bool) (l : list A) (k : nat) :
  forallb f l = true -> forallb f (take k l) = true.
Proof.
  revert k. induction l as [| x l IH]; intros [| k]; try done.
  cbn. intros [-> H]%andb_prop. by apply IH.
Qed.

Lemma omap_length_filter {A B} (f : A -> option B) (l : list A) :
  length (omap f l) = length (filter (fun x => is_Some (f x)) l).
Proof.
  induction l as [| x l IH]; [done |].
  rewrite filter_cons. csimpl.
  destruct (f x) as [y |].
  - rewrite decide_True by done. cbn [length]. by rewrite IH.
  - rewrite decide_False by (by intros [? ?]). exact IH.
Qed.

(** A session opened at [t1] that sees the events [body], none of which
    ends the wait, and then its timer: the report holds the accepted
    records of the frames of [body]. *)
Lemma session_report (a : arguments) (t0 t1 t2 : Z) (body : list (Z * event)) :
  forallb (waiting (t1 + timer_delay (durationMs a))) body = true ->
  t1 + timer_delay (durationMs a) <= t2 ->
  state (main_run (main_start a Constructed t0)
           ((t1, Open) :: body ++ [(t2, DeadlineTimer)]))
  = Exited (Printed (result_of a t0 t2
                       (omap (accepted (targetGroup a)) (frames_of body)))).
Proof.
  intros Hbody Hdue. unfold main_run. cbn [foldl].
  rewrite foldl_app. cbn [foldl].
  set (p1 := main_step (main_start a Constructed t0) (t1, Open)).
  pose proof (collecting_run p1 _ [] body eq_refl Hbody) as Hrun.
  unfold main_run in Hrun. rewrite Hrun.
  by rewrite (deadline_step _ (t1 + timer_delay (durationMs a)) t2
                (omap (accepted (targetGroup a)) (frames_of body))).
Qed.

(** Within the range of [setTimeout] the timer of the session is due a
    full duration after the opening. *)
Lemma opened_deadline (a : arguments) (t0 t1 ms : Z) :
  durationMs a = Int ms -> 1 <= ms <= 2147483647 ->
  state (main_step (main_start a Constructed t0) (t1, Open))
  = Collecting (t1 + ms) [].
Proof.
  intros Hms [Hlo Hhi]. cbn [main_start main_step state args].
  rewrite Hms. unfold timer_delay.
  destruct (Z.leb_spec 1 ms); [| lia].
  by destruct (Z.leb_spec ms 2147483647); [| lia].
Qed.

(** A printed report carries the clock readings of the start and of the
    callback that printed it. *)
Lemma printed_times (trace : list (Z * event)) (p : process) (r : report) :
  Forall (fun te => startTime p <= te.1) trace ->
  state (main_run p trace) = Exited (Printed r) ->
  state p = Exited (Printed r)
  \/ exists t1 buf, startTime p <= t1
                    /\ r = result_of (args p) (startTime p) t1 buf.
Proof.
  unfold main_run. revert p.
  induction trace as [| [t e] trace IH]; intros p Hclock Hend; [by left |].
  apply Forall_cons in Hclock as [Ht Hclock]. cbn [foldl] in Hend.
  destruct (step_args p (t, e)) as [Hargs Hstart].
  destruct (IH (main_step p (t, e))) as [Hnow | Hlater];
    [by rewrite Hstart | done | | right; by rewrite <- Hargs, <- Hstart].
  destruct (state p) as [| due | due buf | o |] eqn:Hp.
  - exfalso. revert Hnow. unfold main_step. by rewrite Hp, Hp.
  - exfalso. revert Hnow. unfold main_step. rewrite Hp.
    destruct e; cbn; rewrite ?Hp; try done.
    destruct (due <=? t); cbn; rewrite ?Hp; done.
  - right. exists t, buf. split; [done |].
    by eapply printed_by_timer.
  - left. rewrite terminal_step in Hnow by (left; eauto). by rewrite <- Hp.
  - left. rewrite terminal_step in Hnow by (by right). by rewrite <- Hp.
Qed.

End SessionFacts.

(** ** The properties of the specification *)

Import Js Json Date Message Runtime Props Samples.
Import StringFacts NumberFacts MessageFacts CollectFacts CorrelatorFacts FetchFacts.
Import ArgsFacts SessionFacts.

(** C8. Text extraction concatenates the text of the segments of the text
    kind and trims the result, and gives the empty string when no segment
    is of the text kind; on the two examples of the specification it gives
    "hello world" and the empty string, for which the formatter returns
    null; and the formatter returns null exactly when the text extracted
    from its argument is empty. *)
Theorem extraction_and_formatter :
  (forall segs : list segment,
     extractText (Some (JArr (map encode_segment segs)))
     = Ok (extract_spec segs))
  /\ (forall segs : list segment,
        extractText (Some (JArr (map encode_segment
                                   (filter (fun s => kind s <> js "text") segs))))
        = Ok [])
  /\ extractText (Some (JArr [text_seg (js "hello "); image_seg;
                              text_seg (js "world")]))
     = Ok (js "hello world")
  /\ extractText (Some (JArr [image_seg])) = Ok []
  /\ formatMessage (Some (JObj [(js "message", JArr [image_seg])])) = Ok None
  /\ (forall msg : value,
        formatMessage msg = Ok None
        <-> exists message, get msg (js "message") = Ok message
                            /\ extractText message = Ok []).
Proof.
  split; [exact extractText_refines |].
  split; [exact extractText_no_text |].
  split; [by vm_compute |].
  split; [by vm_compute |].
  split; [by vm_compute |].
  exact formatMessage_null_iff.
Qed.

(** C9. While the counter is below 2^53, a call of [sendRequest] raises
    it and mints a token that differs from every token minted before in
    the same process: the tokens of all the requests made so far stay
    pairwise distinct. *)
Theorem minted_token_is_fresh (trace : list (Z * Fetch.event)) (now : Z)
    (act : jsstring) (params : json) :
  Fetch.requestId (Fetch.run Fetch.start trace) < 9007199254740992 ->
  Fetch.requestId (Fetch.run Fetch.start trace)
  < Fetch.requestId (Fetch.sendRequest now act params
                       (Fetch.run Fetch.start trace))
  /\ Fetch.echo <$> Fetch.requests (Fetch.sendRequest now act params
                                      (Fetch.run Fetch.start trace))
     = (Fetch.echo <$> Fetch.requests (Fetch.run Fetch.start trace))
       ++ [Fetch.mint (Fetch.requestId (Fetch.run Fetch.start trace) + 1) now]
  /\ NoDup (Fetch.echo <$> Fetch.requests
              (Fetch.sendRequest now act params
                 (Fetch.run Fetch.start trace))).
Proof.
  intros Hlt. set (c := Fetch.run Fetch.start trace) in *.
  pose proof (numbered_run trace) as Hc. fold c in Hc.
  pose proof (numbered_step c (now, Fetch.Call act params) Hc) as Hc'.
  cbn [Fetch.step] in Hc'.
  assert (Hinc : Fetch.increment (Fetch.requestId c) = Fetch.requestId c + 1)
    by by apply increment_exact.
  split; [cbn [Fetch.sendRequest Fetch.requestId]; lia |].
  split.
  - cbn [Fetch.sendRequest Fetch.requests]. rewrite fmap_app. cbn.
    by rewrite Hinc.
  - apply numbered_distinct; [done |].
    cbn [Fetch.sendRequest Fetch.requests]. rewrite length_app. cbn [length].
    destruct Hc as [Hid _]. lia.
Qed.

Lemma minted_token_is_fresh_witness :
  NoDup (Fetch.echo <$> Fetch.requests
           (Fetch.sendRequest 1001 history (JObj [])
              (Fetch.run Fetch.start [(1000, Fetch.Call history (JObj []))]))).
Proof.
  apply (minted_token_is_fresh [(1000, Fetch.Call history (JObj []))]
           1001 history (JObj [])).
  vm_compute. reflexivity.
Defined.

(** C1. Among requests that listen with pairwise distinct tokens, and for
    every run of inbound frames in whatever order: a listening request is
    handed the first frame whose echo field is its token and no other
    frame, a request that no longer listens is handed nothing, and a frame
    is addressed to at most one listening request. A frame that does not
    carry the token of a request leaves it as it is; the frame that does
    ends its listening and clears its timer, and settles it from its
    return code and data: fulfilled with the data when the return code is
    0, rejected with the error of the bus otherwise, and left unsettled
    when the text of that error cannot be printed. *)
Theorem correlator_routes_by_token (c : Fetch.correlator)
    (frames : list frame) :
  NoDup (pending_tokens c) ->
  (forall i r, Fetch.requests c !! i = Some r -> Fetch.listening r = true ->
     Fetch.requests (deliver c frames) !! i
     = Some match find (addressed (Fetch.echo r)) frames with
            | Some raw => Fetch.handler raw r
            | None => r
            end)
  /\ (forall i r, Fetch.requests c !! i = Some r ->
        Fetch.listening r = false ->
        Fetch.requests (deliver c frames) !! i = Some r)
  /\ (forall raw i j ri rj,
        Fetch.requests c !! i = Some ri -> Fetch.requests c !! j = Some rj ->
        Fetch.listening ri = true -> Fetch.listening rj = true ->
        addressed (Fetch.echo ri) raw = true ->
        addressed (Fetch.echo rj) raw = true -> i = j)
  /\ (forall raw r,
        addressed (Fetch.echo r) raw = false -> Fetch.handler raw r = r)
  /\ (forall data r,
        addressed (Fetch.echo r) (Decoded data) = true ->
        Fetch.listening (Fetch.handler (Decoded data) r) = false
        /\ Fetch.timer_set (Fetch.handler (Decoded data) r) = false
        /\ Fetch.outcome (Fetch.handler (Decoded data) r)
           = if is_number (get_opt (Some data) (js "retcode")) 0
             then Fetch.resolve (Fetch.outcome r)
                                (get_opt (Some data) (js "data"))
             else match Fetch.api_error (Fetch.action r) data with
                  | Ok err => Fetch.reject (Fetch.outcome r) err
                  | Throw _ => Fetch.outcome r
                  end).
Proof.
  intros Hnd. split; [| split; [| split; [| split]]].
  - intros i r. apply deliver_listening.
  - intros i r. apply deliver_deaf.
  - intros raw i j ri rj Hi Hj Hli Hlj Hai Haj.
    eapply (pending_tokens_unique (Fetch.requests c)); eauto.
    eapply addressed_same; eauto.
  - exact handler_other.
  - intros data r Haddr. by rewrite handler_match.
Qed.

Lemma correlator_routes_by_token_witness :
  Fetch.outcome <$>
    Fetch.requests
      (deliver two_pending
         [Decoded (response (js "req_2_1001") 0 (JStr (js "second")));
          Malformed;
          Decoded (response (js "req_1_1000") 0 (JStr (js "first")))])
    !! 0%nat
  = Some (Fetch.Fulfilled (Some (JStr (js "first")))).
Proof.
  assert (Hnd : NoDup (pending_tokens two_pending)).
  { apply (bool_decide_unpack _). vm_compute. exact I. }
  destruct (correlator_routes_by_token two_pending
              [Decoded (response (js "req_2_1001") 0 (JStr (js "second")));
               Malformed;
               Decoded (response (js "req_1_1000") 0 (JStr (js "first")))]
              Hnd) as [Hroute _].
  erewrite Hroute; [| vm_compute; reflexivity | vm_compute; reflexivity].
  vm_compute. reflexivity.
Defined.

(** C2. A request that is issued at 1000 and sees no frame is rejected by
    its timer with the timeout error that names its action; but the timer
    does not remove its listener, so the request stays in the table, and a
    frame with its token that arrives later is still handed to it: only
    that frame removes the listener (the promise, settled, keeps its
    rejection). *)
Theorem timeout_keeps_listener :
  Fetch.outcome <$> Fetch.requests timed_out !! 0%nat
  = Some (Fetch.Rejected (Fetch.request_timeout history))
  /\ Fetch.listening <$> Fetch.requests timed_out !! 0%nat = Some true
  /\ addressed (js "req_1_1000")
       (Decoded (response (js "req_1_1000") 0 (JArr []))) = true
  /\ Fetch.listening <$>
       Fetch.requests
         (Fetch.step timed_out
            (17000, Fetch.Message
                      (Decoded (response (js "req_1_1000") 0 (JArr [])))))
       !! 0%nat
     = Some false
  /\ Fetch.outcome <$>
       Fetch.requests
         (Fetch.step timed_out
            (17000, Fetch.Message
                      (Decoded (response (js "req_1_1000") 0 (JArr [])))))
       !! 0%nat
     = Some (Fetch.Rejected (Fetch.request_timeout history)).
Proof. repeat split; vm_compute; reflexivity. Qed.

(** C3, as the code has it. A close of the socket settles no request: the
    correlator and [main] are as before it, and a pending request fails
    only when its timer runs, with the timeout error that names its
    action. *)
Theorem close_does_not_settle (c : Fetch.correlator) (i : nat)
    (r : Fetch.request) (tc t : Z) :
  Fetch.requests c !! i = Some r ->
  Fetch.outcome r = Fetch.Pending ->
  Fetch.timer_set r = true ->
  Fetch.due r <= t ->
  Fetch.step c (tc, Fetch.Closed) = c
  /\ (forall p, Fetch.main_step p (tc, Fetch.Disconnected) = p)
  /\ Fetch.outcome <$>
       Fetch.requests
         (Fetch.run c [(tc, Fetch.Closed); (t, Fetch.TimerFired i)]) !! i
     = Some (Fetch.Rejected (Fetch.request_timeout (Fetch.action r))).
Proof.
  intros Hi Hpending Hset Hdue. split; [done |]. split.
  - intros p. unfold Fetch.main_step. by destruct (Fetch.state p).
  - cbn [Fetch.run foldl Fetch.step].
    rewrite (fire_timer_pending c i r t Hi Hset Hdue). cbn.
    by rewrite Hpending.
Qed.

Lemma close_does_not_settle_witness :
  Fetch.outcome <$>
    Fetch.requests
      (Fetch.run
         (Fetch.sendRequest 1000 history (JObj []) Fetch.start)
         [(2000, Fetch.Closed); (16000, Fetch.TimerFired 0)]) !! 0%nat
  = Some (Fetch.Rejected (Fetch.request_timeout history)).
Proof.
  refine (proj2 (proj2
    (close_does_not_settle
       (Fetch.sendRequest 1000 history (JObj []) Fetch.start) 0
       {| Fetch.echo := Fetch.mint 1 1000; Fetch.action := history;
          Fetch.due := 16000; Fetch.timer_set := true;
          Fetch.listening := true; Fetch.outcome := Fetch.Pending |}
       2000 16000 eq_refl eq_refl eq_refl _))).
  cbn [Fetch.due]. lia.
Defined.

(** C3 as stated fails: the request issued at 1000 is still pending after
    the close at 2000, and what fails it at 16000 is its timeout. *)
Lemma close_leaves_request_pending :
  Fetch.outcome <$> Fetch.requests closed_early !! 0%nat
  = Some Fetch.Pending
  /\ Fetch.outcome <$>
       Fetch.requests
         (Fetch.run closed_early [(16000, Fetch.TimerFired 0)]) !! 0%nat
     = Some (Fetch.Rejected (Fetch.request_timeout history)).
Proof. split; vm_compute; reflexivity. Qed.

(** C4, as the code has it. A collecting session has no cancellation: a
    signal ends the process and nothing is printed, whatever follows. The
    session is finalized by its timer alone: when the timer runs with the
    records [buf] in the buffer, the report printed is a success, holds
    exactly those records and counts them; and on a clock that does not
    run backwards the end time of a printed report is not before its start
    time. *)
Theorem collection_ends_by_timer (p : Collect.process) (due t : Z)
    (buf : list CollectedRecord) :
  Collect.state p = Collect.Collecting due buf ->
  due <= t ->
  (exists r,
     collected (Collect.main_step p (t, Collect.DeadlineTimer)) = Some r
     /\ Collect.success r = true
     /\ Collect.messages r = buf
     /\ Collect.collected_count r = length buf
     /\ Collect.start_time r = iso_string (Collect.startTime p)
     /\ Collect.end_time r = iso_string t)
  /\ (forall t' e r,
        collected (Collect.main_step p (t', e)) = Some r ->
        e = Collect.DeadlineTimer /\ due <= t')
  /\ (forall t' trace,
        Collect.state (Collect.main_run p ((t', Collect.Signal) :: trace))
        = Collect.Killed)
  /\ (forall a ws t0 trace r,
        Forall (fun te => t0 <= te.1) trace ->
        collected (Collect.main_run (Collect.main_start a ws t0) trace) = Some r ->
        exists t1, t0 <= t1
                   /\ Collect.start_time r = iso_string t0
                   /\ Collect.end_time r = iso_string t1).
Proof.
  intros Hp Hdue. split; [| split; [| split]].
  - eexists. unfold collected.
    rewrite (deadline_step p due t buf Hp Hdue). by repeat split.
  - intros t' e r. unfold collected.
    destruct (Collect.state (Collect.main_step p (t', e)))
      as [| | | [r' |] |] eqn:Hstep; try done.
    intros [= ->].
    by destruct (printed_by_timer p due t' buf e r Hp Hstep) as (-> & ? & _).
  - intros t' trace. unfold Collect.main_run. cbn [foldl].
    assert (Hk : Collect.state (Collect.main_step p (t', Collect.Signal))
                 = Collect.Killed)
      by (unfold Collect.main_step; by rewrite Hp).
    pose proof (terminal_run _ trace (or_intror Hk)) as Hrun.
    unfold Collect.main_run in Hrun. by rewrite Hrun.
  - intros a ws t0 trace r Hclock. unfold collected.
    destruct (Collect.state (Collect.main_run (Collect.main_start a ws t0) trace))
      as [| | | [r' |] |] eqn:Hend; try done.
    intros [= ->].
    destruct (printed_times trace (Collect.main_start a ws t0) r Hclock Hend)
      as [Hnow | (t1 & buf' & Ht1 & ->)]; [by destruct ws |].
    by exists t1.
Qed.

Lemma collection_ends_by_timer_witness :
  exists r,
    collected (Collect.main_step one_buffered (3600100, Collect.DeadlineTimer))
    = Some r
    /\ Collect.collected_count r = 1%nat.
Proof.
  destruct (collection_ends_by_timer one_buffered 3600100 3600100
              (Collect.on_message (Int 123456789)
                 (Decoded (group_event 123456789 1700000000 "hi")) []))
    as [(r & Hr & _ & _ & Hcount & _) _].
  - vm_compute. reflexivity.
  - lia.
  - exists r. split; [exact Hr |]. rewrite Hcount. vm_compute. reflexivity.
Defined.

(** C4 as stated fails: a session with one record in its buffer that
    receives a signal is ended without a report, and its timer prints
    nothing afterwards. *)
Lemma signal_prints_no_report :
  (exists buf, Collect.state one_buffered = Collect.Collecting 3600100 buf
               /\ length buf = 1%nat)
  /\ Collect.state
       (Collect.main_run one_buffered
          [(300, Collect.Signal); (3600100, Collect.DeadlineTimer)])
     = Collect.Killed
  /\ collected
       (Collect.main_run one_buffered
          [(300, Collect.Signal); (3600100, Collect.DeadlineTimer)])
     = None.
Proof.
  split; [eexists; split; vm_compute; reflexivity |].
  split; vm_compute; reflexivity.
Qed.




(** C6, as the code has it. The command line cannot ask for a deadline of
    0 minutes: [--duration 0] is read as the default of 60 minutes, and no
    command line gives a duration of 0. A session during which no frame is
    accepted is finalized when its timer runs and prints a success report
    with an empty list of records and a count of 0. *)
Theorem empty_session_report (a : Collect.arguments) (t0 t1 t2 : Z)
    (body : list (Z * Collect.event)) :
  forallb (waiting (t1 + timer_delay (Collect.durationMs a))) body = true ->
  omap (accepted (Collect.targetGroup a)) (frames_of body) = [] ->
  t1 + timer_delay (Collect.durationMs a) <= t2 ->
  (exists r,
     collected (Collect.main_run (Collect.main_start a Constructed t0)
                  ((t1, Collect.Open) :: body ++ [(t2, Collect.DeadlineTimer)]))
     = Some r
     /\ Collect.success r = true
     /\ Collect.messages r = []
     /\ Collect.collected_count r = 0%nat)
  /\ int_or (Some (js "0")) (Int 60) = Int 60
  /\ (forall env argv a',
        Collect.parseArgs env argv = Collect.Parsed a' ->
        Collect.duration a' <> Int 0).
Proof.
  intros Hbody Hnone Hdue. split; [| split].
  - eexists. unfold collected.
    rewrite (session_report a t0 t1 t2 body Hbody Hdue), Hnone.
    by repeat split.
  - by vm_compute.
  - intros env argv a' Ha'. apply nonzero_not_zero.
    by eapply parseArgs_duration.
Qed.

Lemma empty_session_report_witness :
  exists r,
    collected
      (Collect.main_run (Collect.main_start (collect_args 60) Constructed 0)
         ((100, Collect.Open)
          :: [(300, Collect.Message (Decoded (group_event 42 1700000001 "other")))]
          ++ [(3600100, Collect.DeadlineTimer)]))
    = Some r
    /\ Collect.collected_count r = 0%nat.
Proof.
  destruct (empty_session_report (collect_args 60) 0 100 3600100
              [(300, Collect.Message (Decoded (group_event 42 1700000001 "other")))])
    as [(r & Hr & _ & _ & Hcount) _].
  - vm_compute. reflexivity.
  - vm_compute. reflexivity.
  - vm_compute. discriminate.
  - exists r. split; [exact Hr | exact Hcount].
Defined.

(** C6 as stated fails: on [--duration 0] the session runs with the
    default of 60 minutes; a timer event one millisecond after the opening
    does not finalize it, a message that arrives after a minute is
    collected, and the report, printed an hour after the opening, counts
    1. *)
Lemma duration_zero_runs_an_hour :
  match Collect.parseArgs no_env zero_argv with
  | Collect.Parsed a => Collect.duration a
  | _ => Int 0
  end = Int 60
  /\ (Collect.main no_env zero_argv accepting 0 (take 2 hour_trace) ≫= collected) = None
  /\ Collect.collected_count <$>
       (Collect.main no_env zero_argv accepting 0 hour_trace ≫= collected)
     = Some 1%nat
  /\ Collect.duration_minutes <$>
       (Collect.main no_env zero_argv accepting 0 hour_trace ≫= collected)
     = Some (Int 60).
Proof. repeat split; vm_compute; reflexivity. Qed.

(** C7, as the code has it. The fetch flow takes the history payload as
    a direct list of items or as an object whose [messages] member is the
    list. When the formatter returns for every item, the report printed is
    a success whose [fetched_count] is the number of items with non-empty
    extracted text and whose [requested_count] is the count of the
    command line, which the request carried; when the formatter throws on
    an item, no report is printed and the flow fails with what was
    thrown. *)
Theorem fetch_counts_text_items (a : Fetch.arguments) (t0 t1 t2 : Z)
    (historyData : json) (items : list json) :
  historyData = JArr items
  \/ get_opt (Some historyData) (js "messages") = Some (JArr items) ->
  match Fetch.map_format items with
  | Ok formatted =>
    exists r,
      fetched (Fetch.main_run (Fetch.main_start a Constructed t0)
                 [(t1, Fetch.Open);
                  (t2, Fetch.Frame
                         (Decoded (response (Fetch.mint 1 t1) 0 historyData)))])
      = Some r
      /\ Fetch.success r = true
      /\ Fetch.fetched_count r = text_count items
      /\ Fetch.requested_count r = Fetch.count a
      /\ Fetch.messages r = Fetch.filter_Boolean formatted
  | Throw e =>
    Fetch.state (Fetch.main_run (Fetch.main_start a Constructed t0)
                   [(t1, Fetch.Open);
                    (t2, Fetch.Frame
                           (Decoded (response (Fetch.mint 1 t1) 0
                                       historyData)))])
    = Fetch.Exited (Fetch.Failed e)
  end
  /\ get_opt (Some (Fetch.history_params a)) (js "count")
     = Some (of_number (Fetch.count a)).
Proof.
  intros Hshape. split; [| reflexivity].
  assert (Hitems : Fetch.item_list (Fetch.rawMessages (Some historyData)) = items).
  { destruct Hshape as [-> | Hnested];
      [apply rawMessages_direct | by apply rawMessages_nested]. }
  destruct (Fetch.map_format items) as [formatted | e] eqn:Hformat.
  - eexists. unfold fetched.
    erewrite main_answered; [| unfold Fetch.result_of; rewrite Hitems, Hformat;
                                cbn [bind]; reflexivity].
    cbn [Fetch.success Fetch.fetched_count Fetch.requested_count Fetch.messages].
    repeat split. by apply map_format_count.
  - apply main_answered. unfold Fetch.result_of.
    by rewrite Hitems, Hformat.
Qed.

Lemma fetch_counts_text_items_witness :
  exists r,
    fetched (Fetch.main_run (Fetch.main_start (fetch_args 3) Constructed 0)
               [(100, Fetch.Open);
                (200, Fetch.Frame
                        (Decoded (response (Fetch.mint 1 100) 0
                                    (JObj [(js "messages", JArr three_items)]))))])
    = Some r
    /\ Fetch.fetched_count r = 2%nat
    /\ Fetch.requested_count r = Int 3.
Proof.
  destruct (fetch_counts_text_items (fetch_args 3) 0 100 200
              (JObj [(js "messages", JArr three_items)]) three_items)
    as [Hreport _].
  - right. vm_compute. reflexivity.
  - destruct (Fetch.map_format three_items) as [formatted | e] eqn:Hformat;
      [| vm_compute in Hformat; discriminate].
    destruct Hreport as (r & Hr & _ & Hfetched & Hrequested & _).
    exists r. split; [exact Hr |]. rewrite Hfetched, Hrequested.
    split; vm_compute; reflexivity.
Defined.

(** C7 as stated fails: of the three items of [late_history] two have
    non-empty extracted text, but the time of one of them lies beyond the
    range of dates; the formatter throws on it, and the flow prints no
    report at all. *)
Lemma text_items_without_report :
  text_count late_history = 2%nat
  /\ Fetch.state
       (Fetch.main_run (Fetch.main_start (fetch_args 3) Constructed 0)
          [(100, Fetch.Open);
           (200, Fetch.Frame
                   (Decoded (response (Fetch.mint 1 100) 0
                               (JArr late_history))))])
     = Fetch.Exited (Fetch.Failed RangeError)
  /\ fetched
       (Fetch.main_run (Fetch.main_start (fetch_args 3) Constructed 0)
          [(100, Fetch.Open);
           (200, Fetch.Frame
                   (Decoded (response (Fetch.mint 1 100) 0
                               (JArr late_history))))])
     = None.
Proof. repeat split; vm_compute; reflexivity. Qed.

(** C10. A close of the socket during collection changes nothing in the
    session: it goes on collecting, no error is raised, and when nothing
    but the timer follows the close the session stays in Collecting until
    the timer is due and then prints a success report with exactly the
    records that were in the buffer at the close. *)
Theorem close_keeps_collecting (p : Collect.process) (due tc t : Z)
    (buf : list CollectedRecord) (idle : list (Z * Collect.event)) :
  Collect.state p = Collect.Collecting due buf ->
  forallb (silent due) idle = true ->
  due <= t ->
  Collect.main_step p (tc, Collect.Closed) = p
  /\ (forall k,
        Collect.state (Collect.main_run p ((tc, Collect.Closed) :: take k idle))
        = Collect.Collecting due buf)
  /\ exists r,
       collected (Collect.main_run p
                    ((tc, Collect.Closed) :: idle ++ [(t, Collect.DeadlineTimer)]))
       = Some r
       /\ Collect.success r = true
       /\ Collect.messages r = buf
       /\ Collect.collected_count r = length buf.
Proof.
  intros Hp Hidle Hdue.
  assert (Hclose : Collect.main_step p (tc, Collect.Closed) = p)
    by (unfold Collect.main_step; by rewrite Hp).
  assert (Hquiet : forall l, forallb (silent due) l = true ->
            Collect.main_run p ((tc, Collect.Closed) :: l)
            = {| Collect.args := Collect.args p;
                 Collect.startTime := Collect.startTime p;
                 Collect.state := Collect.Collecting due buf |}).
  { intros l Hl. destruct (silent_waiting due l Hl) as [Hw Hf].
    unfold Collect.main_run. cbn [foldl]. rewrite Hclose.
    pose proof (collecting_run p due buf l Hp Hw) as Hrun.
    unfold Collect.main_run in Hrun. rewrite Hrun, Hf. cbn [omap].
    by rewrite app_nil_r. }
  split; [exact Hclose |]. split.
  - intros k. by rewrite Hquiet by by apply forallb_take.
  - eexists. unfold collected.
    change ((tc, Collect.Closed) :: idle ++ [(t, Collect.DeadlineTimer)])
      with (((tc, Collect.Closed) :: idle) ++ [(t, Collect.DeadlineTimer)]).
    rewrite main_run_app, (Hquiet idle Hidle).
    unfold Collect.main_run. cbn [foldl].
    rewrite (deadline_step
               {| Collect.args := Collect.args p;
                  Collect.startTime := Collect.startTime p;
                  Collect.state := Collect.Collecting due buf |}
               due t buf eq_refl Hdue).
    by repeat split.
Qed.

Lemma close_keeps_collecting_witness :
  exists r,
    collected
      (Collect.main_run one_buffered
         ((300, Collect.Closed)
          :: [(400, Collect.SocketError (js "ECONNRESET")); (500, Collect.Closed)]
          ++ [(3600100, Collect.DeadlineTimer)]))
    = Some r
    /\ Collect.collected_count r = 1%nat.
Proof.
  destruct (close_keeps_collecting one_buffered 3600100 300 3600100
              (Collect.on_message (Int 123456789)
                 (Decoded (group_event 123456789 1700000000 "hi")) [])
              [(400, Collect.SocketError (js "ECONNRESET")); (500, Collect.Closed)])
    as (_ & _ & r & Hr & _ & _ & Hcount).
  - vm_compute. reflexivity.
  - vm_compute. reflexivity.
  - lia.
  - exists r. split; [exact Hr |]. rewrite Hcount. vm_compute. reflexivity.
Defined.

(** X1. A settled request is never settled again: once the promise of a
    request is fulfilled or rejected, no call, frame, timer or close
    changes its outcome. *)
Theorem settled_outcome_is_final (c : Fetch.correlator)
    (trace : list (Z * Fetch.event)) (i : nat) (r : Fetch.request) :
  Fetch.requests c !! i = Some r ->
  Fetch.outcome r <> Fetch.Pending ->
  Fetch.outcome <$> Fetch.requests (Fetch.run c trace) !! i
  = Some (Fetch.outcome r).
Proof.
  unfold Fetch.run. revert c r.
  induction trace as [| te trace IH]; intros c r Hi Hset.
  - cbn [foldl]. by rewrite Hi.
  - cbn [foldl].
    destruct (step_keeps_settled c te i r Hi Hset) as (r' & Hi' & Hout).
    rewrite (IH _ r' Hi') by by rewrite Hout. by rewrite Hout.
Qed.

Lemma settled_outcome_is_final_witness :
  Fetch.outcome <$>
    Fetch.requests
      (Fetch.run timed_out
         [(17000, Fetch.Message
                    (Decoded (response (js "req_1_1000") 0 (JArr []))));
          (18000, Fetch.TimerFired 0); (19000, Fetch.Closed)]) !! 0%nat
  = Some (Fetch.Rejected (Fetch.request_timeout history)).
Proof.
  refine (settled_outcome_is_final timed_out _ 0
            {| Fetch.echo := Fetch.mint 1 1000; Fetch.action := history;
               Fetch.due := 16000; Fetch.timer_set := false;
               Fetch.listening := true;
               Fetch.outcome := Fetch.Rejected (Fetch.request_timeout history) |}
            eq_refl _).
  cbn [Fetch.outcome]. discriminate.
Defined.

(** X2. The timeout of one request leaves every other request as it is. *)
Theorem timeout_is_local (c : Fetch.correlator) (t : Z) (i j : nat) :
  i <> j ->
  Fetch.requests (Fetch.fire_timer t i c) !! j = Fetch.requests c !! j.
Proof.
  intros Hne. unfold Fetch.fire_timer.
  destruct (Fetch.requests c !! i) as [r |]; [| done].
  destruct (Fetch.timer_set r && (Fetch.due r <=? t)); [| done].
  cbn [Fetch.requests]. by apply list_lookup_insert_ne.
Qed.

Lemma timeout_is_local_witness :
  Fetch.requests (Fetch.fire_timer 16000 0 two_pending) !! 1%nat
  = Fetch.requests two_pending !! 1%nat.
Proof. apply (timeout_is_local two_pending 16000 0 1). discriminate. Defined.

(** X3. The buffer of a collecting session only grows at its end: however
    the session goes on, the records it holds now are a prefix, in the same
    order, of the buffer it holds later and of the report it prints. *)
Theorem buffer_only_grows (trace : list (Z * Collect.event))
    (p : Collect.process) (due : Z) (buf : list CollectedRecord) :
  Collect.state p = Collect.Collecting due buf ->
  match Collect.state (Collect.main_run p trace) with
  | Collect.Collecting due' buf' => due' = due /\ buf `prefix_of` buf'
  | Collect.Exited (Collect.Printed r) => buf `prefix_of` Collect.messages r
  | _ => True
  end.
Proof.
  unfold Collect.main_run. revert p buf.
  induction trace as [| [t e] trace IH]; intros p buf Hp.
  - cbn [foldl]. by rewrite Hp.
  - cbn [foldl].
    destruct (Collect.state (Collect.main_step p (t, e)))
      as [| due' | due' buf' | [r |] |] eqn:Hstep.
    + exfalso. revert Hstep. unfold Collect.main_step. rewrite Hp.
      destruct e; cbn; rewrite ?Hp; try done.
      destruct (due <=? t); cbn; rewrite ?Hp; done.
    + exfalso. revert Hstep. unfold Collect.main_step. rewrite Hp.
      destruct e; cbn; rewrite ?Hp; try done.
      destruct (due <=? t); cbn; rewrite ?Hp; done.
    + assert (Hgrow : due' = due /\ buf `prefix_of` buf').
      { revert Hstep. unfold Collect.main_step. rewrite Hp.
        destruct e; cbn; rewrite ?Hp; try done;
          try (by intros [= <- <-]).
        - intros [= <- <-]. rewrite on_message_accepted.
          split; [done |]. by apply prefix_app_r.
        - destruct (due <=? t); cbn; rewrite ?Hp; [done |].
          by intros [= <- <-]. }
      destruct Hgrow as [-> Hpre].
      specialize (IH _ buf' Hstep).
      destruct (Collect.state (foldl Collect.main_step _ trace))
        as [| | due'' buf'' | [r |] |]; try done.
      * destruct IH as [-> Hpre']. split; [done |]. by etrans.
      * by etrans.
    + pose proof (terminal_run (Collect.main_step p (t, e)) trace) as Hrun.
      unfold Collect.main_run in Hrun. rewrite Hrun, Hstep by (left; eauto).
      by destruct (printed_by_timer p due t buf e r Hp Hstep) as (_ & _ & ->).
    + pose proof (terminal_run (Collect.main_step p (t, e)) trace) as Hrun.
      unfold Collect.main_run in Hrun. by rewrite Hrun, Hstep by (left; eauto).
    + pose proof (terminal_run (Collect.main_step p (t, e)) trace) as Hrun.
      unfold Collect.main_run in Hrun. by rewrite Hrun, Hstep by (by right).
Qed.

Lemma buffer_only_grows_witness :
  match Collect.state
          (Collect.main_run one_buffered
             [(300, Collect.Message
                      (Decoded (group_event 123456789 1700000005 "again")));
              (400, Collect.Closed)]) with
  | Collect.Collecting due' buf' =>
    due' = 3600100
    /\ Collect.on_message (Int 123456789)
         (Decoded (group_event 123456789 1700000000 "hi")) []
       `prefix_of` buf'
  | Collect.Exited (Collect.Printed r) =>
    Collect.on_message (Int 123456789)
      (Decoded (group_event 123456789 1700000000 "hi")) []
    `prefix_of` Collect.messages r
  | _ => True
  end.
Proof.
  apply (buffer_only_grows _ one_buffered 3600100). vm_compute. reflexivity.
Defined.

(** ** Facts about the waits of [main] in fetch.mjs *)

Module FlowFacts.
Import Js Json Date Message Runtime Props StringFacts MessageFacts.
Import CorrelatorFacts FetchFacts Fetch.

Lemma fetch_run_app (p : process) (l1 l2 : list (Z * main_event)) :
  main_run p (l1 ++ l2) = main_run (main_run p l1) l2.
Proof. apply foldl_app. Qed.

Lemma exited_run (p : process) (trace : list (Z * main_event)) (o : output) :
  state p = Exited o -> main_run p trace = p.
Proof.
  unfold main_run. intros Hp.
  induction trace as [| [t e] trace IH]; [done |].
  cbn [foldl]. unfold main_step at 2. by rewrite Hp.
Qed.

(** The correlator of [main] once the socket opened at [t1]: one pending
    request, one frame sent. *)
Lemma opened (a : arguments) (t0 t1 : Z) :
  main_step (main_start a Constructed t0) (t1, Open)
  = {| args := a;
       state := Requesting
         {| requestId := 1;
            requests := [{| echo := mint 1 t1;
                            action := js "get_group_msg_history";
                            due := t1 + 15000; timer_set := true;
                            listening := true; outcome := Pending |}];
            sent := [history_request a t1] |} |}.
Proof. reflexivity. Qed.

Lemma requesting_passes (a : arguments) (c : correlator) (r : request)
    (te : Z * main_event) :
  requests c = [r] -> outcome r = Pending ->
  listening r = true -> timer_set r = true ->
  passed_over (echo r) (due r) te = true ->
  main_step {| args := a; state := Requesting c |} te
  = {| args := a; state := Requesting c |}.
Proof.
  intros Hc Hout Hl Hset. destruct te as [t e]. unfold passed_over. cbn [snd fst].
  destruct c as [id reqs out]. cbn [requests] in Hc. subst reqs.
  destruct e; cbn [main_step state args]; try done.
  - intros Hraw%negb_true_iff. unfold resume, emit_message.
    cbn [requests map requestId sent]. rewrite Hl, (handler_other raw r Hraw).
    cbn. by rewrite Hout.
  - intros Hearly%Z.ltb_lt. unfold resume, fire_timer.
    cbn [requests lookup list_lookup]. rewrite Hset.
    destruct (Z.leb_spec (due r) t); [lia |]. cbn. by rewrite Hout.
Qed.

Lemma requesting_run (a : arguments) (c : correlator) (r : request)
    (idle : list (Z * main_event)) :
  requests c = [r] -> outcome r = Pending ->
  listening r = true -> timer_set r = true ->
  forallb (passed_over (echo r) (due r)) idle = true ->
  main_run {| args := a; state := Requesting c |} idle
  = {| args := a; state := Requesting c |}.
Proof.
  intros Hc Hout Hl Hset. unfold main_run.
  induction idle as [| te idle IH]; [done |].
  cbn [forallb foldl]. intros [Hte Hidle]%andb_prop.
  rewrite (requesting_passes a c r te) by done. by apply IH.
Qed.

(** The wait of [main] for its answer, through whatever it passes over. *)
Lemma waited (a : arguments) (t0 t1 : Z) (idle : list (Z * main_event)) :
  forallb (passed_over (mint 1 t1) (t1 + 15000)) idle = true ->
  main_run (main_start a Constructed t0) ((t1, Open) :: idle)
  = main_step (main_start a Constructed t0) (t1, Open).
Proof.
  intros Hidle. unfold main_run. cbn [foldl]. rewrite opened.
  eapply requesting_run; [reflexivity .. | exact Hidle].
Qed.

(** The request of [main] as a frame with its token leaves it when the
    error of the bus cannot be printed: dismantled and not settled. *)
Lemma unsettled (a : arguments) (c : correlator) (r : request)
    (trace : list (Z * main_event)) :
  requests c = [r] -> dismantled r = true -> outcome r = Pending ->
  main_run {| args := a; state := Requesting c |} trace
  = {| args := a; state := Requesting c |}.
Proof.
  intros Hc [Htimer%negb_true_iff Hlisten%negb_true_iff]%andb_prop Hout.
  unfold main_run.
  induction trace as [| [t e] trace IH]; [done |].
  cbn [foldl].
  replace (main_step {| args := a; state := Requesting c |} (t, e))
    with {| args := a; state := Requesting c |}; [exact IH |].
  destruct c as [id reqs out]. cbn [requests] in Hc. subst reqs.
  destruct e; cbn [main_step state args]; try done.
  - unfold resume, emit_message. cbn [requests map requestId sent].
    rewrite Hlisten. cbn. by rewrite Hout.
  - unfold resume, fire_timer. cbn [requests lookup list_lookup].
    rewrite Htimer. cbn. by rewrite Hout.
Qed.

(** A frame with the token of the request ends the wait: with the return
    code 0 [main] goes on with the data of the frame, with anything else it
    fails with the error of the bus; but when that error cannot be
    printed, the request is dismantled without being settled, and [main]
    goes on waiting. *)
Lemma answered (a : arguments) (t0 t1 t2 : Z) (idle : list (Z * main_event))
    (data : json) :
  forallb (passed_over (mint 1 t1) (t1 + 15000)) idle = true ->
  addressed (mint 1 t1) (Decoded data) = true ->
  state (main_run (main_start a Constructed t0)
           ((t1, Open) :: idle ++ [(t2, Frame (Decoded data))]))
  = if is_number (get_opt (Some data) (js "retcode")) 0
    then match result_of a (get_opt (Some data) (js "data")) t2 with
         | Ok r => Exited (Printed r)
         | Throw e => Exited (Failed e)
         end
    else match api_error (js "get_group_msg_history") data with
         | Ok err => Exited (Failed err)
         | Throw _ =>
           Requesting
             {| requestId := 1;
                requests := [{| echo := mint 1 t1;
                                action := js "get_group_msg_history";
                                due := t1 + 15000; timer_set := false;
                                listening := false; outcome := Pending |}];
                sent := [history_request a t1] |}
         end.
Proof.
  intros Hidle Haddr.
  change ((t1, Open) :: idle ++ [(t2, Frame (Decoded data))])
    with (((t1, Open) :: idle) ++ [(t2, Frame (Decoded data))]).
  rewrite fetch_run_app, (waited a t0 t1 idle Hidle), opened.
  unfold main_run. cbn [foldl main_step state args].
  unfold resume. rewrite emit_lookup. cbn [requests lookup list_lookup].
  cbn [fmap option_fmap option_map listening].
  rewrite handler_match by done. cbn [outcome resolve reject action].
  destruct (is_number _ _) eqn:Hcode; [done |].
  destruct (api_error _ data) as [err |] eqn:Herr; [done |].
  unfold emit_message. cbn [requests map requestId sent listening].
  rewrite handler_match by done. cbn [outcome action].
  by rewrite Hcode, Herr.
Qed.

(** The timer of the request, when due, ends the wait with the timeout
    error. *)
Lemma timed_out_wait (a : arguments) (t0 t1 t2 : Z)
    (idle : list (Z * main_event)) :
  forallb (passed_over (mint 1 t1) (t1 + 15000)) idle = true ->
  t1 + 15000 <= t2 ->
  state (main_run (main_start a Constructed t0)
           ((t1, Open) :: idle ++ [(t2, RequestTimer)]))
  = Exited (Failed (request_timeout (js "get_group_msg_history"))).
Proof.
  intros Hidle Hdue.
  change ((t1, Open) :: idle ++ [(t2, RequestTimer)])
    with (((t1, Open) :: idle) ++ [(t2, RequestTimer)]).
  rewrite fetch_run_app, (waited a t0 t1 idle Hidle), opened.
  unfold main_run. cbn [foldl main_step state args].
  unfold resume, fire_timer. cbn [requests lookup list_lookup timer_set due].
  destruct (Z.leb_spec (t1 + 15000) t2); [| lia]. reflexivity.
Qed.

End FlowFacts.

(** ** Facts about printing values *)

Module PrintFacts.
Import Js Json Date Message Runtime Props StringFacts.

Lemma json_induction (P : json -> Prop) :
  P JNull -> (forall b, P (JBool b)) -> (forall n, P (JNum n)) ->
  (forall s, P (JStr s)) ->
  (forall items, Forall P items -> P (JArr items)) ->
  (forall fields, P (JObj fields)) ->
  forall j, P j.
Proof.
  intros HNull HBool HNum HStr HArr HObj. fix IH 1.
  intros [| b | n | s | items | fields];
    [exact HNull | apply HBool | apply HNum | apply HStr | | apply HObj].
  apply HArr. revert items. fix IHitems 1.
  intros [| x items]; constructor; [apply IH | apply IHitems].
Qed.

Lemma to_string_cons (x : json) (l : list json) :
  to_string (JArr (x :: l))
  = let* sx := match x with JNull => Ok [] | _ => to_string x end in
    match l with
    | [] => Ok sx
    | _ => let* rest := to_string (JArr l) in Ok (sx ++ 44%N :: rest)
    end.
Proof. by destruct l. Qed.

(** Printing throws on the values without text, a TypeError, and on no
    other value. *)
Lemma to_string_spec (j : json) :
  match to_string j with
  | Ok _ => unprintable j = false
  | Throw e => e = TypeError /\ unprintable j = true
  end.
Proof.
  induction j as [| b | n | s | items IH | fields] using json_induction;
    try done.
  - by destruct b.
  - induction IH as [| x l Hx Hl IH]; [done |].
    rewrite to_string_cons. cbn [unprintable existsb].
    change (existsb unprintable l) with (unprintable (JArr l)).
    assert (Hsx : match match x with JNull => Ok [] | _ => to_string x end with
                  | Ok _ => unprintable x = false
                  | Throw e => e = TypeError /\ unprintable x = true
                  end) by (by destruct x).
    destruct (match x with JNull => Ok [] | _ => to_string x end) as [sx | e];
      cbn [bind].
    + rewrite Hsx. cbn [orb]. destruct l as [| y l]; [done |].
      by destruct (to_string (JArr (y :: l))).
    + by destruct Hsx as [-> ->].
  - cbn [to_string unprintable]. by destruct (lookup_field _ fields).
Qed.

Lemma value_to_string_spec (v : value) :
  match value_to_string v with
  | Ok _ => unprintable_value v = false
  | Throw e => e = TypeError /\ unprintable_value v = true
  end.
Proof. destruct v as [j |]; [apply to_string_spec | done]. Qed.

(** [join] throws on the first element without text. *)
Lemma join_empty_spec (l : list json) :
  match join_empty l with
  | Ok _ => existsb unprintable l = false
  | Throw e => e = TypeError /\ existsb unprintable l = true
  end.
Proof.
  induction l as [| x l IH]; [done |]. cbn [join_empty existsb].
  assert (Hsx : match match x with JNull => Ok [] | _ => to_string x end with
                | Ok _ => unprintable x = false
                | Throw e => e = TypeError /\ unprintable x = true
                end)
    by (destruct x; try done; apply to_string_spec).
  destruct (match x with JNull => Ok [] | _ => to_string x end) as [sx | e];
    cbn [bind].
  - rewrite Hsx. cbn [orb]. by destruct (join_empty l).
  - by destruct Hsx as [-> ->].
Qed.

(** The error of the bus can be built unless the return code or the
    message of the frame has no text. *)
Lemma api_error_spec (act : jsstring) (data : json) :
  match Fetch.api_error act data with
  | Ok _ =>
    unprintable_value (get_opt (Some data) (js "retcode")) = false
    /\ unprintable_value (or_else (get_opt (Some data) (js "msg"))
                                  (get_opt (Some data) (js "message")))
       = false
  | Throw e =>
    e = TypeError
    /\ (unprintable_value (get_opt (Some data) (js "retcode")) = true
        \/ unprintable_value (or_else (get_opt (Some data) (js "msg"))
                                      (get_opt (Some data) (js "message")))
           = true)
  end.
Proof.
  unfold Fetch.api_error.
  pose proof (value_to_string_spec (get_opt (Some data) (js "retcode"))) as Hrc.
  destruct (value_to_string (get_opt (Some data) (js "retcode"))) as [rc | e];
    cbn [bind]; [| destruct Hrc as [-> Hrc]; by auto].
  set (m := or_else (get_opt (Some data) (js "msg"))
                    (get_opt (Some data) (js "message"))).
  pose proof (value_to_string_spec (or_else m (Some (JStr (js "未知"))))) as Hm.
  assert (Hsame : unprintable_value (or_else m (Some (JStr (js "未知"))))
                  = unprintable_value m).
  { unfold or_else at 1. destruct (truthy m) eqn:Ht; [done |].
    by destruct m as [[] |]. }
  rewrite Hsame in Hm.
  destruct (value_to_string (or_else m _)) as [msg | e]; cbn [bind]; [done |].
  destruct Hm as [-> Hm]. by auto.
Qed.

End PrintFacts.

(** ** Further properties of the code *)

Import FlowFacts PrintFacts.

(** X4. When the frame that answers the request of [main] in fetch.mjs
    carries anything but the number 0 as its return code (another number,
    a string, no return code at all), the flow fails with the error of the
    bus for the action and prints no report, whatever other frames, socket
    errors or stale timers came before the answer, provided the text of
    that error can be built. It cannot when the return code or the message
    of the frame has no text (an object with a member [toString], or an
    array that holds one): the handler has then cleared the timer and
    removed the listener without settling the promise, and whatever
    follows, [main] waits on and prints nothing. *)
Theorem bus_error_fails_fetch (a : Fetch.arguments) (t0 t1 t2 : Z)
    (idle : list (Z * Fetch.main_event)) (data : json) :
  forallb (passed_over (Fetch.mint 1 t1) (t1 + 15000)) idle = true ->
  addressed (Fetch.mint 1 t1) (Decoded data) = true ->
  is_number (get_opt (Some data) (js "retcode")) 0 = false ->
  (forall err,
     Fetch.api_error (js "get_group_msg_history") data = Ok err ->
     Fetch.state (Fetch.main_run (Fetch.main_start a Constructed t0)
                    ((t1, Fetch.Open) :: idle
                     ++ [(t2, Fetch.Frame (Decoded data))]))
     = Fetch.Exited (Fetch.Failed err))
  /\ (forall e rest,
        Fetch.api_error (js "get_group_msg_history") data = Throw e ->
        exists r,
          Fetch.state (Fetch.main_run (Fetch.main_start a Constructed t0)
                         ((t1, Fetch.Open) :: idle
                          ++ (t2, Fetch.Frame (Decoded data)) :: rest))
          = Fetch.Requesting
              {| Fetch.requestId := 1; Fetch.requests := [r];
                 Fetch.sent := [history_request a t1] |}
          /\ dismantled r = true
          /\ Fetch.outcome r = Fetch.Pending)
  /\ ((exists e, Fetch.api_error (js "get_group_msg_history") data = Throw e)
      <-> unprintable_value (get_opt (Some data) (js "retcode")) = true
          \/ unprintable_value (or_else (get_opt (Some data) (js "msg"))
                                        (get_opt (Some data) (js "message")))
             = true).
Proof.
  intros Hidle Haddr Hcode. split; [| split].
  - intros err Herr. by rewrite answered, Hcode, Herr.
  - intros e rest Herr. eexists.
    replace ((t1, Fetch.Open) :: idle
             ++ (t2, Fetch.Frame (Decoded data)) :: rest)
      with (((t1, Fetch.Open) :: idle ++ [(t2, Fetch.Frame (Decoded data))])
            ++ rest)
      by (cbn [app]; by rewrite <- app_assoc).
    rewrite fetch_run_app.
    pose proof (answered a t0 t1 t2 idle data Hidle Haddr) as Hstate.
    rewrite Hcode, Herr in Hstate.
    destruct (Fetch.main_run (Fetch.main_start a Constructed t0)
                ((t1, Fetch.Open) :: idle
                 ++ [(t2, Fetch.Frame (Decoded data))])) as [a' st] eqn:Hrun.
    cbn [Fetch.state] in Hstate. subst st.
    erewrite unsettled; [| reflexivity | reflexivity | reflexivity].
    by repeat split.
  - pose proof (api_error_spec (js "get_group_msg_history") data) as Hspec.
    destruct (Fetch.api_error _ data) as [err | e].
    + destruct Hspec as [Hrc Hm]. rewrite Hrc, Hm. split.
      * by intros [e ?].
      * by intros [? | ?].
    + destruct Hspec as [_ Hspec]. split; [done | eauto].
Qed.

Lemma bus_error_fails_fetch_witness :
  Fetch.state
    (Fetch.main_run (Fetch.main_start (fetch_args 3) Constructed 0)
       ((100, Fetch.Open)
        :: [(150, Fetch.Frame (Decoded (group_event 123456789 1700000000 "hi")));
            (160, Fetch.Frame Malformed)]
        ++ [(200, Fetch.Frame
                    (Decoded (JObj [(js "echo", JStr (Fetch.mint 1 100));
                                    (js "retcode", JNum (Int 1404));
                                    (js "msg", JStr (js "no such group"))])))]))
  = Fetch.Exited
      (Fetch.Failed
         (Error (js "API 错误 [get_group_msg_history]: retcode=1404, msg=no such group"))).
Proof.
  refine (proj1 (bus_error_fails_fetch (fetch_args 3) 0 100 200
                   [(150, Fetch.Frame
                            (Decoded (group_event 123456789 1700000000 "hi")));
                    (160, Fetch.Frame Malformed)]
                   (JObj [(js "echo", JStr (Fetch.mint 1 100));
                          (js "retcode", JNum (Int 1404));
                          (js "msg", JStr (js "no such group"))])
                   _ _ _) _ _);
    vm_compute; reflexivity.
Defined.

(** X5. When no frame with the token of the request arrives, the flow of
    fetch.mjs fails once the 15000 ms timer of the request runs, with the
    timeout error that names get_group_msg_history, and prints no report;
    frames without the token, socket errors and a close of the socket in
    the meantime change nothing. *)
Theorem unanswered_request_fails_fetch (a : Fetch.arguments) (t0 t1 t2 : Z)
    (idle : list (Z * Fetch.main_event)) :
  forallb (passed_over (Fetch.mint 1 t1) (t1 + 15000)) idle = true ->
  t1 + 15000 <= t2 ->
  (forall k,
     Fetch.main_run (Fetch.main_start a Constructed t0)
       ((t1, Fetch.Open) :: take k idle)
     = Fetch.main_step (Fetch.main_start a Constructed t0) (t1, Fetch.Open))
  /\ Fetch.state (Fetch.main_run (Fetch.main_start a Constructed t0)
                    ((t1, Fetch.Open) :: idle ++ [(t2, Fetch.RequestTimer)]))
     = Fetch.Exited
         (Fetch.Failed (Fetch.request_timeout (js "get_group_msg_history"))).
Proof.
  intros Hidle Hdue. split; [| by apply timed_out_wait].
  intros k. apply waited. by apply forallb_take.
Qed.

Lemma unanswered_request_fails_fetch_witness :
  Fetch.state
    (Fetch.main_run (Fetch.main_start (fetch_args 3) Constructed 0)
       ((100, Fetch.Open)
        :: [(150, Fetch.Frame (Decoded (response (js "req_7_99") 0 (JArr []))));
            (5000, Fetch.Disconnected); (9000, Fetch.RequestTimer)]
        ++ [(15100, Fetch.RequestTimer)]))
  = Fetch.Exited
      (Fetch.Failed (Fetch.request_timeout (js "get_group_msg_history"))).
Proof.
  apply (unanswered_request_fails_fetch (fetch_args 3) 0 100 15100).
  - vm_compute. reflexivity.
  - lia.
Defined.

(** X6. The fetch flow prints no partial report: when formatting throws
    on an item of the history (a null item, a null segment, a time that is
    no date), the flow fails with what was thrown and no report is
    printed, even if other items had text. *)
Theorem throwing_item_fails_fetch (a : Fetch.arguments) (t0 t1 t2 : Z)
    (idle : list (Z * Fetch.main_event)) (historyData : json)
    (items : list json) (e : error) :
  forallb (passed_over (Fetch.mint 1 t1) (t1 + 15000)) idle = true ->
  historyData = JArr items
  \/ get_opt (Some historyData) (js "messages") = Some (JArr items) ->
  Fetch.map_format items = Throw e ->
  Fetch.state (Fetch.main_run (Fetch.main_start a Constructed t0)
                 ((t1, Fetch.Open) :: idle
                  ++ [(t2, Fetch.Frame
                             (Decoded (response (Fetch.mint 1 t1) 0
                                         historyData)))]))
  = Fetch.Exited (Fetch.Failed e).
Proof.
  intros Hidle Hshape Hthrow.
  destruct (response_fields (Fetch.mint 1 t1) 0 historyData)
    as (_ & He & Hrc & Hd).
  rewrite answered; [| done | unfold addressed; rewrite He; apply str_eqb_refl].
  rewrite Hrc, Hd. cbn [is_number Z.eqb]. unfold Fetch.result_of.
  replace (Fetch.item_list (Fetch.rawMessages (Some historyData))) with items.
  - by rewrite Hthrow.
  - destruct Hshape as [-> | Hnested];
      [by rewrite rawMessages_direct | by rewrite (rawMessages_nested _ items)].
Qed.

Lemma throwing_item_fails_fetch_witness :
  Fetch.state
    (Fetch.main_run (Fetch.main_start (fetch_args 3) Constructed 0)
       ((100, Fetch.Open) :: []
        ++ [(200, Fetch.Frame
                    (Decoded (response (Fetch.mint 1 100) 0
                                (JArr [item 1700000000 (text_seg (js "one"));
                                       JNull]))))]))
  = Fetch.Exited (Fetch.Failed TypeError).
Proof.
  apply (throwing_item_fails_fetch (fetch_args 3) 0 100 200 []
           (JArr [item 1700000000 (text_seg (js "one")); JNull])
           [item 1700000000 (text_seg (js "one")); JNull]).
  - reflexivity.
  - by left.
  - vm_compute. reflexivity.
Defined.

(** X7. A payload that holds no list in either place (it is missing, null,
    a string, a number, or an object whose [messages] member is missing or
    no array) is taken as an empty history: the flow prints a success
    report with no message, a fetched count of 0 and the requested count. *)
Theorem payload_without_list_is_empty (a : Fetch.arguments) (t0 t1 t2 : Z)
    (idle : list (Z * Fetch.main_event)) (data : json) :
  forallb (passed_over (Fetch.mint 1 t1) (t1 + 15000)) idle = true ->
  addressed (Fetch.mint 1 t1) (Decoded data) = true ->
  is_number (get_opt (Some data) (js "retcode")) 0 = true ->
  is_array (get_opt (Some data) (js "data")) = false ->
  is_array (get_opt (get_opt (Some data) (js "data")) (js "messages")) = false ->
  fetched (Fetch.main_run (Fetch.main_start a Constructed t0)
             ((t1, Fetch.Open) :: idle ++ [(t2, Fetch.Frame (Decoded data))]))
  = Some {| Fetch.success := true; Fetch.group_id := Fetch.group a;
            Fetch.fetched_count := 0; Fetch.requested_count := Fetch.count a;
            Fetch.fetch_time := iso_string t2; Fetch.messages := [] |}.
Proof.
  intros Hidle Haddr Hcode Hdirect Hnested. unfold fetched.
  rewrite answered, Hcode by done. unfold Fetch.result_of.
  replace (Fetch.item_list (Fetch.rawMessages (get_opt (Some data) (js "data"))))
    with (@nil json); [done |].
  assert (Hnone : forall v, is_array v = false -> Fetch.item_list v = [])
    by (by intros [[] |]).
  unfold Fetch.rawMessages, or_else.
  destruct (truthy (get_opt (get_opt (Some data) (js "data")) (js "messages")))
    eqn:Hm.
  - rewrite Hm. by rewrite Hnone.
  - destruct (truthy (get_opt (Some data) (js "data"))); [| done].
    by rewrite Hnone.
Qed.

Lemma payload_without_list_is_empty_witness :
  fetched
    (Fetch.main_run (Fetch.main_start (fetch_args 3) Constructed 0)
       ((100, Fetch.Open) :: []
        ++ [(200, Fetch.Frame
                    (Decoded (JObj [(js "echo", JStr (Fetch.mint 1 100));
                                    (js "retcode", JNum (Int 0))])))]))
  = Some {| Fetch.success := true;
            Fetch.group_id := Fetch.group (fetch_args 3);
            Fetch.fetched_count := 0;
            Fetch.requested_count := Fetch.count (fetch_args 3);
            Fetch.fetch_time := iso_string 200; Fetch.messages := [] |}.
Proof.
  apply (payload_without_list_is_empty (fetch_args 3) 0 100 200 []);
    vm_compute; reflexivity.
Defined.

(** X8. The fetch flow issues exactly one request: at every moment at
    which [main] of fetch.mjs waits for its answer, the socket has opened,
    [sendRequest] has run once, at the opening, and the correlator holds
    that one request, still pending, with the token req_1_<opening time>
    and its timer and listener either both in place or both removed; one
    frame was sent, the history request for the group and the count of the
    command line. *)
Theorem fetch_issues_one_request (a : Fetch.arguments) (ws : construction)
    (t0 : Z) (trace : list (Z * Fetch.main_event)) (c : Fetch.correlator) :
  Fetch.state (Fetch.main_run (Fetch.main_start a ws t0) trace)
  = Fetch.Requesting c ->
  exists t1 r,
    (t1, Fetch.Open) ∈ trace
    /\ Fetch.requestId c = 1
    /\ Fetch.requests c = [r]
    /\ history_call t1 r
    /\ Fetch.sent c = [history_request a t1].
Proof.
  revert c. induction trace as [| [t e] trace IH] using rev_ind;
    [by destruct ws |].
  intros c. rewrite fetch_run_app.
  assert (Hargs : Fetch.args (Fetch.main_run (Fetch.main_start a ws t0) trace) = a).
  { clear. unfold Fetch.main_run.
    change a with (Fetch.args (Fetch.main_start a ws t0)) at 2.
    generalize (Fetch.main_start a ws t0).
    induction trace as [| [t e] trace IH]; intros p; [done |].
    cbn [foldl]. rewrite IH. unfold Fetch.main_step.
    destruct (Fetch.state p), e; try done. by destruct (_ <=? _). }
  destruct (Fetch.main_run (Fetch.main_start a ws t0) trace) as [a' st].
  cbn [Fetch.args] in Hargs. subst a'.
  unfold Fetch.main_run. cbn [foldl Fetch.main_step Fetch.state Fetch.args].
  cbn [Fetch.state] in IH.
  destruct st as [| due0 | c0 | o]; [done | | | done].
  - destruct e; cbn [Fetch.state]; try done.
    + intros [= <-]. exists t. eexists.
      split; [apply elem_of_app; right; by apply list_elem_of_singleton |].
      do 2 (split; [reflexivity |]). split; [| reflexivity].
      by repeat split.
    + by destruct (_ <=? _).
  - destruct (IH c0 eq_refl) as (t1 & r0 & Hin & Hid & Hreqs & Hcall & Hsent).
    assert (Hopen : (t1, Fetch.Open) ∈ trace ++ [(t, e)])
      by (apply elem_of_app; by left).
    destruct c0 as [id reqs out]. cbn [Fetch.requestId Fetch.requests
                                        Fetch.sent] in Hid, Hreqs, Hsent.
    subst id reqs out.
    destruct Hcall as (Hecho & Hact & Hdue & Hpair & Hout).
    destruct e; cbn [Fetch.state];
      try (intros [= <-]; exists t1, r0; by do 4 (split; [done |])).
    + unfold Fetch.resume, Fetch.emit_message.
      cbn [Fetch.requests map lookup list_lookup fmap option_fmap option_map
           Fetch.requestId Fetch.sent].
      set (r1 := if Fetch.listening r0 then Fetch.handler raw r0 else r0).
      destruct (Fetch.outcome r1) as [| v | err] eqn:Hout1;
        [| by destruct (Fetch.result_of a v t) | done].
      intros [= <-]. exists t1, r1.
      assert (Hcall : history_call t1 r1).
      { subst r1.
        destruct (Fetch.listening r0) eqn:Hl;
          [| repeat split; congruence].
        destruct (addressed (Fetch.echo r0) raw) eqn:Haddr.
        - destruct raw as [| data]; [done |].
          rewrite handler_match in Hout1 |- * by done.
          unfold history_call.
          cbn [Fetch.echo Fetch.action Fetch.due Fetch.timer_set
               Fetch.listening Fetch.outcome] in *.
          by repeat split.
        - rewrite handler_other by done. repeat split; congruence. }
      by do 4 (split; [done |]).
    + unfold Fetch.resume, Fetch.fire_timer.
      cbn [Fetch.requests lookup list_lookup].
      destruct (Fetch.timer_set r0 && (Fetch.due r0 <=? t)) eqn:Hfire.
      * cbn [Fetch.requests list_insert insert lookup list_lookup fmap
             option_fmap option_map Fetch.on_timeout Fetch.outcome].
        by rewrite Hout.
      * cbn [Fetch.requests lookup list_lookup fmap option_fmap option_map].
        rewrite Hout. intros [= <-]. exists t1, r0.
        by do 4 (split; [done |]).
Qed.

Lemma fetch_issues_one_request_witness :
  exists t1 r,
    (t1, Fetch.Open)
    ∈ [(100, Fetch.Open);
       (150, Fetch.Frame (Decoded (opaque_answer (Fetch.mint 1 100))))]
    /\ Fetch.requestId
         {| Fetch.requestId := 1;
            Fetch.requests :=
              [{| Fetch.echo := Fetch.mint 1 100; Fetch.action := history;
                  Fetch.due := 15100; Fetch.timer_set := false;
                  Fetch.listening := false; Fetch.outcome := Fetch.Pending |}];
            Fetch.sent := [history_request (fetch_args 3) 100] |} = 1
    /\ [{| Fetch.echo := Fetch.mint 1 100; Fetch.action := history;
           Fetch.due := 15100; Fetch.timer_set := false;
           Fetch.listening := false; Fetch.outcome := Fetch.Pending |}] = [r]
    /\ history_call t1 r.
Proof.
  destruct (fetch_issues_one_request (fetch_args 3) Constructed 0
              [(100, Fetch.Open);
               (150, Fetch.Frame (Decoded (opaque_answer (Fetch.mint 1 100))))]
              {| Fetch.requestId := 1;
                 Fetch.requests :=
                   [{| Fetch.echo := Fetch.mint 1 100; Fetch.action := history;
                       Fetch.due := 15100; Fetch.timer_set := false;
                       Fetch.listening := false;
                       Fetch.outcome := Fetch.Pending |}];
                 Fetch.sent := [history_request (fetch_args 3) 100] |})
    as (t1 & r & Hin & Hid & Hreqs & Hcall & _).
  - vm_compute. reflexivity.
  - exists t1, r. by do 3 (split; [done |]).
Defined.

(** X9. Request and response round trip: the frame [sendRequest] hands to
    [ws.send] carries the action, the parameters and the token of the new
    request, and, while the counter is below 2^53, a response that echoes
    the token of that frame with the return code 0 fulfils the promise of
    exactly this call with the data of the response: every request made
    before is left as it was. *)
Theorem response_round_trip (trace : list (Z * Fetch.event)) (now : Z)
    (act : jsstring) (params data : json) :
  Fetch.requestId (Fetch.run Fetch.start trace) < 9007199254740992 ->
  exists frame e,
    last (Fetch.sent (Fetch.sendRequest now act params
                        (Fetch.run Fetch.start trace)))
    = Some frame
    /\ get_opt (Some frame) (js "action") = Some (JStr act)
    /\ get_opt (Some frame) (js "params") = Some params
    /\ get_opt (Some frame) (js "echo") = Some (JStr e)
    /\ Fetch.outcome <$>
         Fetch.requests
           (Fetch.emit_message (Decoded (response e 0 data))
              (Fetch.sendRequest now act params (Fetch.run Fetch.start trace)))
         !! length (Fetch.requests (Fetch.run Fetch.start trace))
       = Some (Fetch.Fulfilled (Some data))
    /\ (forall i r,
          Fetch.requests (Fetch.run Fetch.start trace) !! i = Some r ->
          Fetch.requests
            (Fetch.emit_message (Decoded (response e 0 data))
               (Fetch.sendRequest now act params
                  (Fetch.run Fetch.start trace))) !! i
          = Some r).
Proof.
  intros Hlt. set (c := Fetch.run Fetch.start trace) in *.
  set (e := Fetch.mint (Fetch.increment (Fetch.requestId c)) now).
  exists (JObj [(js "action", JStr act); (js "params", params);
                (js "echo", JStr e)]), e.
  destruct (response_fields e 0 data) as (_ & He & Hrc & Hd).
  split; [cbn [Fetch.sendRequest Fetch.sent]; apply last_snoc |].
  do 3 (split; [reflexivity |]). split.
  - rewrite emit_lookup. cbn [Fetch.sendRequest Fetch.requests].
    rewrite lookup_app_r, Nat.sub_diag by done.
    cbn [lookup list_lookup fmap option_fmap option_map Fetch.listening].
    rewrite handler_match
      by (unfold addressed; cbn [Fetch.echo]; fold e; rewrite He;
          apply str_eqb_refl).
    by rewrite Hrc, Hd.
  - intros i r Hi. rewrite emit_lookup. cbn [Fetch.sendRequest Fetch.requests].
    rewrite (lookup_app_l_Some _ _ _ _ Hi).
    cbn [fmap option_fmap option_map]. f_equal.
    destruct (Fetch.listening r); [| done]. apply handler_other.
    unfold addressed. rewrite He. cbn [is_string]. apply str_eqb_neq.
    intros Hsame.
    pose proof (numbered_run trace) as Hc. fold c in Hc.
    pose proof (numbered_step c (now, Fetch.Call act params) Hc) as Hc'.
    cbn [Fetch.step] in Hc'.
    assert (Hnd : NoDup (Fetch.echo <$> Fetch.requests
                           (Fetch.sendRequest now act params c))).
    { apply numbered_distinct; [done |].
      cbn [Fetch.sendRequest Fetch.requests]. rewrite length_app.
      cbn [length]. destruct Hc as [Hid _]. lia. }
    cbn [Fetch.sendRequest Fetch.requests] in Hnd. rewrite fmap_app in Hnd.
    apply NoDup_app in Hnd as (_ & Hfresh & _).
    apply (Hfresh (Fetch.echo r)).
    + apply list_elem_of_fmap. exists r. split; [done |].
      by eapply list_elem_of_lookup_2.
    + cbn. fold e. rewrite <- Hsame. apply list_elem_of_here.
Qed.

Lemma response_round_trip_witness :
  exists frame e,
    get_opt (Some frame) (js "echo") = Some (JStr e)
    /\ Fetch.outcome <$>
         Fetch.requests
           (Fetch.emit_message (Decoded (response e 0 (JArr [])))
              (Fetch.sendRequest 1001 history (JObj [])
                 (Fetch.run Fetch.start
                    [(1000, Fetch.Call history (JObj []))])))
         !! 0%nat
       = Some Fetch.Pending.
Proof.
  destruct (response_round_trip [(1000, Fetch.Call history (JObj []))]
              1001 history (JObj []) (JArr []))
    as (frame & e & _ & _ & _ & He & _ & Hothers).
  - vm_compute. reflexivity.
  - exists frame, e. split; [exact He |].
    erewrite Hothers; [| vm_compute; reflexivity]. reflexivity.
Defined.

(** X10. An answered request is done with: the frame that carries its
    token clears its timer and removes its listener, and from then on no
    call, frame, timer or close changes anything of the request. *)
Theorem answered_request_is_inert (c : Fetch.correlator) (i : nat)
    (r : Fetch.request) (data : json) (trace : list (Z * Fetch.event)) :
  Fetch.requests c !! i = Some r ->
  Fetch.listening r = true ->
  addressed (Fetch.echo r) (Decoded data) = true ->
  dismantled (Fetch.handler (Decoded data) r) = true
  /\ Fetch.requests (Fetch.run (Fetch.emit_message (Decoded data) c) trace) !! i
     = Some (Fetch.handler (Decoded data) r).
Proof.
  intros Hi Hl Haddr.
  assert (Hdone : dismantled (Fetch.handler (Decoded data) r) = true)
    by by rewrite handler_match.
  split; [done |].
  assert (Hfirst : Fetch.requests (Fetch.emit_message (Decoded data) c) !! i
                   = Some (Fetch.handler (Decoded data) r))
    by (by rewrite emit_lookup, Hi; cbn; rewrite Hl).
  revert Hfirst Hdone.
  generalize (Fetch.handler (Decoded data) r) as r'.
  generalize (Fetch.emit_message (Decoded data) c) as c'. clear.
  unfold Fetch.run, dismantled.
  induction trace as [| [t e] trace IH]; intros c' r' Hi Hd; [done |].
  cbn [foldl]. apply IH; [| done].
  apply andb_prop in Hd as [Htimer%negb_true_iff Hlisten%negb_true_iff].
  destruct e as [act params | raw | j |]; cbn [Fetch.step].
  - cbn [Fetch.sendRequest Fetch.requests]. by apply lookup_app_l_Some.
  - by rewrite emit_lookup, Hi; cbn; rewrite Hlisten.
  - unfold Fetch.fire_timer.
    destruct (Fetch.requests c' !! j) as [rj |] eqn:Hj; [| done].
    destruct (Fetch.timer_set rj && (Fetch.due rj <=? t)) eqn:Hfire; [| done].
    cbn [Fetch.requests]. rewrite list_lookup_insert_ne; [done |].
    intros ->. rewrite Hi in Hj. injection Hj as <-.
    by rewrite Htimer in Hfire.
  - done.
Qed.

Lemma answered_request_is_inert_witness :
  Fetch.requests
    (Fetch.run
       (Fetch.emit_message
          (Decoded (response (js "req_1_1000") 0 (JArr []))) two_pending)
       [(2000, Fetch.Message (Decoded (response (js "req_1_1000") 7 JNull)));
        (16000, Fetch.TimerFired 0); (17000, Fetch.Closed)]) !! 0%nat
  = Some {| Fetch.echo := js "req_1_1000"; Fetch.action := history;
            Fetch.due := 16000; Fetch.timer_set := false;
            Fetch.listening := false;
            Fetch.outcome := Fetch.Fulfilled (Some (JArr [])) |}.
Proof.
  refine (proj2 (answered_request_is_inert two_pending 0
            {| Fetch.echo := Fetch.mint 1 1000; Fetch.action := history;
               Fetch.due := 16000; Fetch.timer_set := true;
               Fetch.listening := true; Fetch.outcome := Fetch.Pending |}
            (response (js "req_1_1000") 0 (JArr [])) _ eq_refl eq_refl _)).
  vm_compute. reflexivity.
Defined.

(** X11. Frames that are no JSON objects are discarded without effect:
    text that does not parse, and values that are null, booleans, numbers,
    strings or arrays, change neither the correlator of fetch.mjs nor the
    buffer of a collection session. *)
Theorem non_object_frames_are_discarded (raw : frame) (c : Fetch.correlator)
    (target : number) (buf : list CollectedRecord) :
  not_object raw = true ->
  Fetch.emit_message raw c = c
  /\ Collect.on_message target raw buf = buf.
Proof.
  intros Hraw. split.
  - destruct c as [id reqs out]. unfold Fetch.emit_message.
    cbn [Fetch.requestId Fetch.requests Fetch.sent]. f_equal.
    rewrite <- (list_fmap_id reqs) at 2. apply list_fmap_ext.
    intros _ r _. destruct (Fetch.listening r); [| done].
    by destruct raw as [| []].
  - rewrite on_message_accepted. unfold accepted, is_group_message.
    destruct raw as [| []]; try done; by rewrite app_nil_r.
Qed.

Lemma non_object_frames_are_discarded_witness :
  Fetch.emit_message (Decoded JNull) two_pending = two_pending
  /\ Collect.on_message (Int 123456789) (Decoded JNull) [] = [].
Proof.
  apply (non_object_frames_are_discarded (Decoded JNull) two_pending
           (Int 123456789) []).
  reflexivity.
Defined.

(** ** Facts about trimming and the fields of a record *)

Module RecordFacts.
Import Js Json Date Message Runtime Props StringFacts MessageFacts.

Lemma trim_start_clean (s : jsstring) (c : N) :
  head (trim_start s) = Some c -> is_space c = false.
Proof.
  induction s as [| x s IH]; [done |]. cbn [trim_start].
  destruct (is_space x) eqn:Hx; [exact IH |]. by intros [= <-].
Qed.

Lemma last_trim_start (s : jsstring) (c : N) :
  last (trim_start s) = Some c -> last s = Some c.
Proof.
  induction s as [| x s IH]; [done |]. cbn [trim_start].
  destruct (is_space x); [| done].
  intros H. specialize (IH H). destruct s as [| y s]; [done |].
  by rewrite last_cons_cons.
Qed.

(** A trimmed string has no white space at either end. *)
Lemma trim_clean (s : jsstring) (c : N) :
  head (trim s) = Some c \/ last (trim s) = Some c -> is_space c = false.
Proof.
  unfold trim, trim_end. intros [H | H].
  - rewrite head_reverse in H. apply last_trim_start in H.
    rewrite last_reverse in H. by apply trim_start_clean in H.
  - rewrite last_reverse in H. by apply trim_start_clean in H.
Qed.

Lemma extractText_trimmed (message : value) (s : jsstring) :
  extractText message = Ok s -> exists x, s = trim x.
Proof.
  unfold extractText.
  destruct message as [[| | | | segs |] |];
    try (intros [= <-]; by exists []).
  destruct (filter_text segs) as [kept |]; cbn [bind]; [| done].
  destruct (join_empty _) as [joined |]; cbn [bind]; [| done].
  intros [= <-]. eauto.
Qed.

(** The record [formatMessage] builds from a message whose sender is
    [sender_v] and whose time is [time_v]. *)
Lemma formatMessage_fields (msg : value) (r : CollectedRecord) :
  formatMessage msg = Ok (Some r) ->
  exists sender_v time_v,
    get msg (js "sender") = Ok sender_v
    /\ get msg (js "time") = Ok time_v
    /\ (if truthy (or_else (get_opt sender_v (js "nickname"))
                           (get_opt sender_v (js "card")))
        then Some (sender r) = or_else (get_opt sender_v (js "nickname"))
                                       (get_opt sender_v (js "card"))
        else exists id,
               value_to_string (or_else (get_opt sender_v (js "user_id"))
                                        (Some (JStr (js "未知"))))
               = Ok id
               /\ sender r = JStr (js "用户" ++ id))
    /\ user_id r = or_null (get_opt sender_v (js "user_id"))
    /\ timestamp r = or_null time_v
    /\ (if truthy time_v
        then exists s, iso_of_seconds time_v = Ok s /\ time r = JStr s
        else time r = JNull).
Proof.
  unfold formatMessage.
  destruct (get msg (js "message")) as [message |]; cbn [bind]; [| done].
  destruct (extractText message) as [[| c t] |]; cbn [bind]; [done | | done].
  destruct (get msg (js "sender")) as [sender_v |]; cbn [bind]; [| done].
  set (name := or_else (get_opt sender_v (js "nickname"))
                       (get_opt sender_v (js "card"))).
  set (fallback := value_to_string
                     (or_else (get_opt sender_v (js "user_id"))
                              (Some (JStr (js "未知"))))).
  assert (Hsender : forall sender_j,
            match name with
            | Some j => if truthy name then Ok j
                        else let* id := fallback in Ok (JStr (js "用户" ++ id))
            | None => let* id := fallback in Ok (JStr (js "用户" ++ id))
            end = Ok sender_j ->
            if truthy name then Some sender_j = name
            else exists id, fallback = Ok id
                            /\ sender_j = JStr (js "用户" ++ id)).
  { intros sender_j. destruct name as [j |] eqn:Hname.
    - destruct (truthy (Some j)); [by intros [= <-] |].
      destruct fallback as [id |]; cbn [bind]; [| done].
      intros [= <-]. eauto.
    - cbn [truthy]. destruct fallback as [id |]; cbn [bind]; [| done].
      intros [= <-]. eauto. }
  destruct (match name with Some _ => _ | None => _ end) as [sender_j |];
    cbn [bind]; [| done].
  specialize (Hsender sender_j eq_refl).
  destruct (get msg (js "time")) as [time_v |]; cbn [bind]; [| done].
  destruct (truthy time_v) eqn:Htime.
  - destruct (iso_of_seconds time_v) as [s |] eqn:Hs; cbn [bind]; [| done].
    intros [= <-]. exists sender_v, time_v. rewrite Htime.
    cbn [sender user_id timestamp time]. repeat split; eauto.
  - cbn [bind]. intros [= <-]. exists sender_v, time_v. rewrite Htime.
    cbn [sender user_id timestamp time]. by repeat split.
Qed.

Lemma or_null_truthy (v : value) :
  or_null v = JNull \/ truthy (Some (or_null v)) = true.
Proof.
  unfold or_null, or_else. destruct (truthy v) eqn:Hv; [| by left].
  destruct v as [j |]; [by right | done].
Qed.

End RecordFacts.

Import RecordFacts.

(** X12. Every record [formatMessage] returns has a content that is not
    empty and has no white space at either end, a sender that is never
    empty or null (a nickname, a card, or the fallback built from the user
    id), a user id that is null or a truthy value, and a time text that is
    null exactly when the timestamp is null. *)
Theorem record_fields_are_filled (msg : value) (r : CollectedRecord) :
  formatMessage msg = Ok (Some r) ->
  content r <> []
  /\ (forall c, head (content r) = Some c \/ last (content r) = Some c ->
                is_space c = false)
  /\ truthy (Some (sender r)) = true
  /\ (user_id r = JNull \/ truthy (Some (user_id r)) = true)
  /\ (time r = JNull <-> timestamp r = JNull).
Proof.
  intros Hf.
  destruct (formatMessage_record_text msg r Hf) as (message & _ & Htext & Hne).
  destruct (extractText_trimmed message _ Htext) as [x Hx].
  destruct (formatMessage_fields msg r Hf)
    as (sender_v & time_v & _ & _ & Hsender & Huser & Hstamp & Htime).
  split; [done |]. split; [| split; [| split]].
  - intros c. rewrite Hx. apply trim_clean.
  - destruct (truthy (or_else _ _)) eqn:Hname.
    + by rewrite Hsender.
    + by destruct Hsender as (id & _ & ->).
  - rewrite Huser. apply or_null_truthy.
  - rewrite Hstamp. unfold or_null, or_else.
    destruct (truthy time_v) eqn:Ht.
    + destruct Htime as (s & _ & ->).
      destruct time_v as [[] |]; split; done.
    + by rewrite Htime.
Qed.

Lemma record_fields_are_filled_witness :
  truthy (Some (sender
                  {| sender := JStr (js "alice"); user_id := JNum (Int 10001);
                     time := JStr (iso_string 1700000000000);
                     timestamp := JNum (Int 1700000000);
                     content := js "hi" |}))
  = true.
Proof.
  apply (record_fields_are_filled
           (Some (group_event 123456789 1700000000 "hi"))).
  vm_compute. reflexivity.
Defined.

(** X13. Whatever the events of a run of collect.mjs, a report that is
    printed is well formed: the socket has opened before, the report is a
    success for the group and the duration of the command line, its count
    is the number of its messages, and every message has a content that is
    not empty. *)
Theorem collect_report_is_well_formed (a : Collect.arguments)
    (ws : construction) (t0 : Z) (trace : list (Z * Collect.event))
    (r : Collect.report) :
  collected (Collect.main_run (Collect.main_start a ws t0) trace) = Some r ->
  (exists t1, (t1, Collect.Open) ∈ trace)
  /\ Collect.success r = true
  /\ Collect.group_id r = Collect.group a
  /\ Collect.duration_minutes r = Collect.duration a
  /\ Collect.collected_count r = length (Collect.messages r)
  /\ Forall (fun m => content m <> []) (Collect.messages r).
Proof.
  assert (Hinv :
    match Collect.state (Collect.main_run (Collect.main_start a ws t0) trace) with
    | Collect.Collecting _ buf =>
      (exists t1, (t1, Collect.Open) ∈ trace)
      /\ Forall (fun m => content m <> []) buf
    | Collect.Exited (Collect.Printed r') =>
      (exists t1, (t1, Collect.Open) ∈ trace)
      /\ exists t2 buf, r' = Collect.result_of a t0 t2 buf
                        /\ Forall (fun m => content m <> []) buf
    | _ => True
    end
    /\ Collect.args (Collect.main_run (Collect.main_start a ws t0) trace) = a
    /\ Collect.startTime (Collect.main_run (Collect.main_start a ws t0) trace)
       = t0).
  { induction trace as [| [t e] trace IH] using rev_ind; [by destruct ws |].
    rewrite CollectFacts.main_run_app.
    destruct (Collect.main_run (Collect.main_start a ws t0) trace)
      as [a' t0' st].
    cbn [Collect.args Collect.startTime Collect.state] in IH.
    destruct IH as (IH & -> & ->).
    unfold Collect.main_run. cbn [foldl].
    split; [| apply (step_args {| Collect.args := a; Collect.startTime := t0;
                                   Collect.state := st |} (t, e))].
    unfold Collect.main_step.
    cbn [Collect.state Collect.args Collect.startTime].
    destruct st as [| due0 | due buf | [r' |] |].
    - done.
    - destruct e; cbn [Collect.state]; try done.
      + split; [| done]. exists t. apply elem_of_app. right.
        by apply list_elem_of_singleton.
      + by destruct (_ <=? _).
    - destruct IH as [[t1 Hin] Hbuf].
      assert (Hopen : exists t1', (t1', Collect.Open) ∈ trace ++ [(t, e)])
        by (exists t1; apply elem_of_app; by left).
      destruct e; cbn [Collect.state]; try done.
      + split; [done |]. rewrite on_message_accepted. apply Forall_app.
        split; [done |]. unfold accepted.
        destruct (_ && _); [| done]. unfold formatted.
        destruct raw as [| ev]; [done |].
        destruct (formatMessage (Some ev)) as [[m |] |] eqn:Hf; try done.
        apply Forall_singleton.
        by destruct (formatMessage_record_text _ _ Hf) as (_ & _ & _ & ?).
      + destruct (_ <=? _); cbn [Collect.state]; [| done].
        split; [done |]. eauto.
    - destruct IH as [[t1 Hin] Hr]. split; [| done].
      exists t1. apply elem_of_app. by left.
    - done.
    - done. }
  unfold collected. destruct Hinv as (Hinv & _ & _).
  destruct (Collect.state _) as [| | | [r' |] |]; try done.
  intros [= ->]. destruct Hinv as (Hopen & t2 & buf & -> & Hbuf).
  by repeat split.
Qed.

Lemma collect_report_is_well_formed_witness :
  Collect.collected_count
    (Collect.result_of (collect_args 60) 0 3600100
       (Collect.on_message (Int 123456789)
          (Decoded (group_event 123456789 1700000000 "hi")) []))
  = length
      (Collect.messages
         (Collect.result_of (collect_args 60) 0 3600100
            (Collect.on_message (Int 123456789)
               (Decoded (group_event 123456789 1700000000 "hi")) []))).
Proof.
  apply (collect_report_is_well_formed (collect_args 60) Constructed 0
           [(100, Collect.Open);
            (200, Collect.Message
                    (Decoded (group_event 123456789 1700000000 "hi")));
            (3600100, Collect.DeadlineTimer)]).
  vm_compute. reflexivity.
Defined.

(** X14. A report of fetch.mjs is well formed: it is a success for the
    group and the count of the command line, its messages are the records
    of the items of the history for which the formatter returns one, in
    the order of the history, so there are no more of them than items; its
    count is their number and each has a content that is not empty. *)
Theorem fetch_report_is_well_formed (a : Fetch.arguments)
    (historyData : value) (t : Z) (r : Fetch.report) :
  Fetch.result_of a historyData t = Ok r ->
  Fetch.success r = true
  /\ Fetch.group_id r = Fetch.group a
  /\ Fetch.requested_count r = Fetch.count a
  /\ Fetch.fetched_count r = length (Fetch.messages r)
  /\ Fetch.messages r
     = omap (fun ev => formatted (Decoded ev))
            (Fetch.item_list (Fetch.rawMessages historyData))
  /\ (Fetch.fetched_count r
      <= length (Fetch.item_list (Fetch.rawMessages historyData)))%nat
  /\ Forall (fun m => content m <> []) (Fetch.messages r).
Proof.
  unfold Fetch.result_of.
  generalize (Fetch.item_list (Fetch.rawMessages historyData)) as items.
  intros items.
  destruct (Fetch.map_format items) as [fs |] eqn:Hmap; cbn [bind]; [| done].
  intros [= <-].
  cbn [Fetch.success Fetch.group_id Fetch.requested_count Fetch.fetched_count
       Fetch.messages].
  assert (Hrecords : Fetch.filter_Boolean fs
                     = omap (fun ev => formatted (Decoded ev)) items).
  { revert fs Hmap. unfold Fetch.filter_Boolean.
    induction items as [| ev items IH]; intros fs; cbn [Fetch.map_format].
    - by intros [= <-].
    - destruct (formatMessage (Some ev)) as [f |] eqn:Hf; cbn [bind]; [| done].
      destruct (Fetch.map_format items) as [others |]; cbn [bind]; [| done].
      intros [= <-]. specialize (IH others eq_refl).
      csimpl. rewrite Hf, IH. by destruct f. }
  repeat split; try done.
  - rewrite Hrecords, omap_length_filter. apply length_filter.
  - rewrite Hrecords. apply Forall_forall. intros m Hm.
    apply list_elem_of_omap in Hm as (ev & _ & Hev). unfold formatted in Hev.
    destruct (formatMessage (Some ev)) as [[m' |] |] eqn:Hf; try done.
    injection Hev as ->.
    by destruct (formatMessage_record_text _ _ Hf) as (_ & _ & _ & ?).
Qed.

Lemma fetch_report_is_well_formed_witness :
  exists r,
    Fetch.result_of (fetch_args 3) (Some (JArr three_items)) 200 = Ok r
    /\ Fetch.fetched_count r = length (Fetch.messages r).
Proof.
  destruct (Fetch.result_of (fetch_args 3) (Some (JArr three_items)) 200)
    as [r | e] eqn:Hr.
  - exists r. split; [reflexivity |].
    apply (fetch_report_is_well_formed (fetch_args 3)
             (Some (JArr three_items)) 200 r Hr).
  - vm_compute in Hr. discriminate.
Defined.

(** ** Facts about the connection wait of both scripts *)

Module ConnectFacts.
Import Js Json Date Message Runtime Props StringFacts.

Lemma collect_connecting (p : Collect.process) (due : Z)
    (pre : list (Z * Collect.event)) :
  Collect.state p = Collect.Connecting due ->
  forallb (before_open due) pre = true ->
  Collect.main_run p pre = p.
Proof.
  intros Hp. unfold Collect.main_run.
  induction pre as [| [t e] pre IH]; [done |].
  cbn [forallb foldl]. intros [Hte Hpre]%andb_prop.
  replace (Collect.main_step p (t, e)) with p; [by apply IH |].
  unfold Collect.main_step, before_open in *. rewrite Hp. cbn [snd fst] in Hte.
  destruct e; try done.
  apply Z.ltb_lt in Hte. by destruct (Z.leb_spec due t); [lia |].
Qed.

Lemma fetch_connecting (p : Fetch.process) (due : Z)
    (pre : list (Z * Fetch.main_event)) :
  Fetch.state p = Fetch.Connecting due ->
  forallb (before_open_fetch due) pre = true ->
  Fetch.main_run p pre = p.
Proof.
  intros Hp. unfold Fetch.main_run.
  induction pre as [| [t e] pre IH]; [done |].
  cbn [forallb foldl]. intros [Hte Hpre]%andb_prop.
  replace (Fetch.main_step p (t, e)) with p; [by apply IH |].
  unfold Fetch.main_step, before_open_fetch in *. rewrite Hp.
  cbn [snd fst] in Hte.
  destruct e; try done.
  apply Z.ltb_lt in Hte. by destruct (Z.leb_spec due t); [lia |].
Qed.

End ConnectFacts.

Import ConnectFacts.

(** X15. Both scripts report a failed connection and nothing else: while
    the socket has not opened, frames and a close are passed over; a
    socket error then ends the run with the failure that quotes the
    message of the error, and the connect timer, 10000 ms after the start,
    ends it with the timeout failure that names the address. Whatever
    arrives afterwards, no report is printed. *)
Theorem connection_failure_is_reported (a : Collect.arguments)
    (b : Fetch.arguments) (t0 : Z) (pre : list (Z * Collect.event))
    (pre' : list (Z * Fetch.main_event)) :
  forallb (before_open (t0 + 10000)) pre = true ->
  forallb (before_open_fetch (t0 + 10000)) pre' = true ->
  (forall t message rest rest',
     Collect.state (Collect.main_run (Collect.main_start a Constructed t0)
                      (pre ++ (t, Collect.SocketError message) :: rest))
     = Collect.Exited (Collect.Failed (connect_failed message))
     /\ Fetch.state (Fetch.main_run (Fetch.main_start b Constructed t0)
                       (pre' ++ (t, Fetch.SocketError message) :: rest'))
        = Fetch.Exited (Fetch.Failed (connect_failed message)))
  /\ (forall t rest rest',
        t0 + 10000 <= t ->
        Collect.state (Collect.main_run (Collect.main_start a Constructed t0)
                         (pre ++ (t, Collect.ConnectTimer) :: rest))
        = Collect.Exited
            (Collect.Failed (connect_timeout (Collect.napcat a)))
        /\ Fetch.state (Fetch.main_run (Fetch.main_start b Constructed t0)
                          (pre' ++ (t, Fetch.ConnectTimer) :: rest'))
           = Fetch.Exited
               (Fetch.Failed (connect_timeout (Fetch.napcat b)))).
Proof.
  intros Hpre Hpre'.
  assert (Hc : forall te rest o,
            Collect.state (Collect.main_step (Collect.main_start a Constructed t0) te)
            = Collect.Exited o ->
            Collect.state (Collect.main_run (Collect.main_start a Constructed t0)
                             (pre ++ te :: rest))
            = Collect.Exited o).
  { intros te rest o Hstep.
    rewrite CollectFacts.main_run_app,
      (collect_connecting (Collect.main_start a Constructed t0) (t0 + 10000) pre
         eq_refl Hpre).
    change (Collect.main_run (Collect.main_start a Constructed t0) (te :: rest))
      with (Collect.main_run (Collect.main_step (Collect.main_start a Constructed t0) te)
              rest).
    rewrite terminal_run by (left; eauto). exact Hstep. }
  assert (Hf : forall te rest o,
            Fetch.state (Fetch.main_step (Fetch.main_start b Constructed t0) te)
            = Fetch.Exited o ->
            Fetch.state (Fetch.main_run (Fetch.main_start b Constructed t0)
                           (pre' ++ te :: rest))
            = Fetch.Exited o).
  { intros te rest o Hstep.
    rewrite fetch_run_app,
      (fetch_connecting (Fetch.main_start b Constructed t0) (t0 + 10000) pre'
         eq_refl Hpre').
    change (Fetch.main_run (Fetch.main_start b Constructed t0) (te :: rest))
      with (Fetch.main_run (Fetch.main_step (Fetch.main_start b Constructed t0) te) rest).
    by rewrite (exited_run _ rest o Hstep). }
  split.
  - intros t message rest rest'. split; [by apply Hc | by apply Hf].
  - intros t rest rest' Hdue.
    split; [apply Hc | apply Hf]; cbn;
      by destruct (Z.leb_spec (t0 + 10000) t); [| lia].
Qed.

Lemma connection_failure_is_reported_witness :
  Collect.state
    (Collect.main_run (Collect.main_start (collect_args 60) Constructed 0)
       ([(50, Collect.Closed); (60, Collect.ConnectTimer)]
        ++ (70, Collect.SocketError (js "ECONNREFUSED"))
           :: [(80, Collect.Open); (3600080, Collect.DeadlineTimer)]))
  = Collect.Exited (Collect.Failed (connect_failed (js "ECONNREFUSED"))).
Proof.
  refine (proj1 (proj1 (connection_failure_is_reported
                          (collect_args 60) (fetch_args 3) 0
                          [(50, Collect.Closed); (60, Collect.ConnectTimer)]
                          [] _ _)
                   70 (js "ECONNREFUSED")
                   [(80, Collect.Open); (3600080, Collect.DeadlineTimer)] []));
    vm_compute; reflexivity.
Defined.

(** X16. A group given on the command line in which [parseInt] finds no
    digit (after its leading white space and one sign the text ends or
    goes on with a code unit that is no decimal digit) makes the target of
    the session NaN, and no other group does. NaN equals no group id: such
    a session accepts no frame, and any report it prints is empty. *)
Theorem nan_target_collects_nothing (a : Collect.arguments)
    (ws : construction) (t0 : Z) (trace : list (Z * Collect.event))
    (s : jsstring) :
  Collect.group a = Some s ->
  no_leading_digit s = true ->
  Collect.targetGroup a = NaN
  /\ (forall raw buf, Collect.on_message (Collect.targetGroup a) raw buf = buf)
  /\ (forall r,
        collected (Collect.main_run (Collect.main_start a ws t0) trace) = Some r ->
        Collect.messages r = [] /\ Collect.collected_count r = 0%nat)
  /\ (forall a' s',
        Collect.group a' = Some s' ->
        Collect.targetGroup a' = NaN <-> no_leading_digit s' = true).
Proof.
  intros Hgroup Hs.
  assert (Hiff : forall a' s',
            Collect.group a' = Some s' ->
            Collect.targetGroup a' = NaN <-> no_leading_digit s' = true).
  { intros a' s' Ha'. unfold Collect.targetGroup. rewrite Ha'.
    apply parseInt_string_NaN. }
  assert (Hnan : Collect.targetGroup a = NaN) by by apply (Hiff a s).
  assert (Hnone : forall raw buf,
            Collect.on_message (Collect.targetGroup a) raw buf = buf).
  { intros raw buf. rewrite on_message_accepted, Hnan.
    unfold accepted, scope_matches.
    destruct raw as [| ev].
    - rewrite andb_false_r. apply app_nil_r.
    - destruct (parseInt _) as [[] |]; rewrite andb_false_r; apply app_nil_r. }
  split; [exact Hnan |]. split; [exact Hnone |]. split; [| exact Hiff].
  assert (Hinv :
    match Collect.state (Collect.main_run (Collect.main_start a ws t0) trace) with
    | Collect.Collecting _ buf => buf = []
    | Collect.Exited (Collect.Printed r') =>
      Collect.messages r' = [] /\ Collect.collected_count r' = 0%nat
    | _ => True
    end
    /\ Collect.args (Collect.main_run (Collect.main_start a ws t0) trace) = a).
  { induction trace as [| [t e] trace IH] using rev_ind; [by destruct ws |].
    rewrite CollectFacts.main_run_app.
    destruct (Collect.main_run (Collect.main_start a ws t0) trace)
      as [a' t0' st].
    cbn [Collect.args Collect.state] in IH. destruct IH as (IH & ->).
    unfold Collect.main_run. cbn [foldl].
    split; [| apply (step_args {| Collect.args := a; Collect.startTime := t0';
                                   Collect.state := st |} (t, e))].
    unfold Collect.main_step.
    cbn [Collect.state Collect.args Collect.startTime].
    destruct st as [| due0 | due buf | [r' |] |]; try done.
    - destruct e; cbn [Collect.state]; try done. by destruct (_ <=? _).
    - subst buf.
      destruct e; cbn [Collect.state]; try done; try apply Hnone.
      by destruct (_ <=? _). }
  intros r. unfold collected. destruct Hinv as [Hinv _].
  destruct (Collect.state _) as [| | | [r' |] |]; try done.
  by intros [= ->].
Qed.

Lemma nan_target_collects_nothing_witness :
  Collect.on_message
    (Collect.targetGroup
       {| Collect.napcat := Some (js "ws://127.0.0.1:3001");
          Collect.group := Some (js " -my-group"); Collect.duration := Int 60;
          Collect.token := Some [] |})
    (Decoded (group_event 123456789 1700000000 "hi")) []
  = [].
Proof.
  refine (proj1 (proj2 (nan_target_collects_nothing
           {| Collect.napcat := Some (js "ws://127.0.0.1:3001");
              Collect.group := Some (js " -my-group");
              Collect.duration := Int 60;
              Collect.token := Some [] |} Constructed 0 [] (js " -my-group")
           eq_refl _)) _ _).
  vm_compute. reflexivity.
Defined.

(** ** Facts about printing and reading integers *)

Module DigitFacts.
Import Js Json Runtime Props StringFacts NumberFacts.

Lemma read_digits_acc (d : Decimal.uint) (acc : positive) (count : nat) :
  read_digits (Z.pos acc) count (uint_units d)
  = (Z.pos (Pos.of_uint_acc d acc), (count + length (uint_units d))%nat, []).
Proof.
  revert acc count.
  induction d; intros acc count; cbn [uint_units read_digits Pos.of_uint_acc];
    [by rewrite Nat.add_0_r | ..];
    match goal with
    | |- context [is_digit ?c] => change (is_digit c) with true
    end;
    cbn match;
    match goal with
    | |- read_digits ?v _ _ = (Z.pos (Pos.of_uint_acc _ ?q), _, _) =>
      replace v with (Z.pos q) by (cbn; lia)
    end;
    rewrite IHd; cbn [length]; do 2 f_equal; lia.
Qed.

Lemma read_digits_units (d : Decimal.uint) (count : nat) :
  read_digits 0 count (uint_units d)
  = (Z.of_N (Pos.of_uint d), (count + length (uint_units d))%nat, []).
Proof.
  revert count.
  induction d; intros count; cbn [uint_units read_digits Pos.of_uint];
    [by rewrite Nat.add_0_r | ..];
    match goal with
    | |- context [is_digit ?c] => change (is_digit c) with true
    end;
    cbn match.
  1: { change (0 * 10 + (Z.of_N 48 - 48)) with 0.
       rewrite IHd. cbn [length]. do 2 f_equal. lia. }
  all: match goal with
       | |- read_digits ?v _ _ = (Z.of_N (N.pos (Pos.of_uint_acc _ ?q)), _, _) =>
         change v with (Z.pos q)
       end;
       rewrite read_digits_acc; cbn [length Z.of_N]; do 2 f_equal; lia.
Qed.

Lemma to_uint_units (n : N) : exists c s, dec_N n = c :: s /\ is_digit c = true.
Proof.
  unfold dec_N.
  assert (Hnil : N.to_uint n <> Decimal.Nil).
  { destruct n as [| p]; [done |].
    apply Stdlib.Numbers.DecimalPos.Unsigned.to_uint_nonnil. }
  destruct (N.to_uint n); [done | ..]; cbn [uint_units]; eauto.
Qed.

Lemma read_dec_N (n : N) :
  exists count, read_digits 0 0 (dec_N n) = (Z.of_N n, S count, []).
Proof.
  destruct (to_uint_units n) as (c & s & Hs & _).
  unfold dec_N in *. rewrite read_digits_units.
  change (Pos.of_uint (N.to_uint n)) with (N.of_uint (N.to_uint n)).
  rewrite Unsigned.of_to, Hs. cbn [length]. eauto.
Qed.

Lemma digit_led (c : N) (s : jsstring) :
  is_digit c = true ->
  trim_start (c :: s) = c :: s /\ split_sign (c :: s) = (1, c :: s).
Proof.
  unfold is_digit. intros [Hlo Hhi]%andb_prop.
  apply N.leb_le in Hlo, Hhi.
  assert (Hc : (c = 48 \/ c = 49 \/ c = 50 \/ c = 51 \/ c = 52 \/ c = 53
                \/ c = 54 \/ c = 55 \/ c = 56 \/ c = 57)%N) by lia.
  repeat (destruct Hc as [-> | Hc]; [done |]). by subst c.
Qed.

(** Reading back the decimal text of an integer gives the double nearest
    to the integer. *)
Lemma parseInt_dec_Z (n : Z) : parseInt_string (dec_Z n) = of_Z n.
Proof.
  unfold parseInt_string, dec_Z. destruct (Z.ltb_spec n 0) as [Hneg | Hpos].
  - change (trim_start (45%N :: dec_N (Z.to_N (- n))))
      with (45%N :: dec_N (Z.to_N (- n))).
    cbn [split_sign].
    destruct (read_dec_N (Z.to_N (- n))) as [count ->]. f_equal. lia.
  - destruct (to_uint_units (Z.to_N n)) as (c & s & Hs & Hc).
    rewrite Hs. destruct (digit_led c s Hc) as [-> ->]. rewrite <- Hs.
    destruct (read_dec_N (Z.to_N n)) as [count ->]. f_equal. lia.
Qed.

Lemma num_strict_eq_Int (x : number) (n : Z) :
  num_strict_eq x (Int n) = true <-> x = Int n.
Proof.
  destruct x as [| b | z | m k]; cbn [num_strict_eq]; try done.
  rewrite Z.eqb_eq. split; [by intros -> | by intros [= ->]].
Qed.

End DigitFacts.

Import DigitFacts.

(** X17. A group id is compared as a number, whichever way it is
    written, within the integers that are doubles of their own (those
    below 2^53 in absolute value). For the group given on the command line
    as the decimal text of such an [n], the target of the session is [n];
    an event whose group id is the decimal text of any integer [m] is in
    scope exactly when [m] is [n]; so is an event whose group id is the
    number [m], for [m] below 2^53; and the history request of fetch.mjs
    asks for group [n] as a number. Beyond that range the comparison goes
    through the printed form: the number 10^21 prints as 1e+21, of which
    [parseInt] reads the 1, and is in scope of the target 1. *)
Theorem group_id_text_or_number (a : Collect.arguments) (n : Z) (ev : json) :
  safe n ->
  Collect.group a = Some (dec_Z n) ->
  Collect.targetGroup a = Int n
  /\ (forall m,
        get_opt (Some ev) (js "group_id") = Some (JStr (dec_Z m)) ->
        scope_matches (Collect.targetGroup a) (Decoded ev) = true <-> m = n)
  /\ (forall m,
        safe m ->
        get_opt (Some ev) (js "group_id") = Some (JNum (Int m)) ->
        scope_matches (Collect.targetGroup a) (Decoded ev) = true <-> m = n)
  /\ (forall b,
        Fetch.group b = Some (dec_Z n) ->
        get_opt (Some (Fetch.history_params b)) (js "group_id")
        = Some (JNum (Int n)))
  /\ scope_matches (Int 1)
       (Decoded (JObj [(js "group_id", JNum (Int (10 ^ 21)))]))
     = true.
Proof.
  intros Hn Hgroup.
  assert (Hexact : of_Z n = Int n) by (apply of_Z_exact; unfold safe in Hn; lia).
  assert (Htarget : Collect.targetGroup a = Int n).
  { unfold Collect.targetGroup. rewrite Hgroup. cbn [text_to_string].
    by rewrite parseInt_dec_Z. }
  split; [done |]. rewrite Htarget. split; [| split; [| split]].
  - intros m Hgid. unfold scope_matches. rewrite Hgid.
    cbn [parseInt value_to_string to_string bind].
    rewrite parseInt_dec_Z, num_strict_eq_Int. split.
    + by apply of_Z_safe.
    + by intros ->.
  - intros m Hm Hgid. unfold scope_matches. rewrite Hgid.
    cbn [parseInt value_to_string to_string bind].
    rewrite number_to_string_exact by (unfold safe in Hm; lia).
    rewrite parseInt_dec_Z, num_strict_eq_Int. split.
    + by apply of_Z_safe.
    + by intros ->.
  - intros b Hb. unfold Fetch.history_params. rewrite Hb.
    cbn [text_to_string]. by rewrite parseInt_dec_Z, Hexact.
  - by vm_compute.
Qed.

Lemma group_id_text_or_number_witness :
  Collect.targetGroup (collect_args 60) = Int 123456789.
Proof.
  refine (proj1 (group_id_text_or_number (collect_args 60) 123456789 JNull
                   _ _)).
  - unfold safe. vm_compute. reflexivity.
  - vm_compute. reflexivity.
Defined.

(** ** Facts about the command lines *)

Module OptionFacts.
Import Js Json Runtime Props StringFacts.

Lemma not_option (w : jsstring) :
  is_option w = false ->
  str_eqb w (js "--napcat") = false /\ str_eqb w (js "--group") = false
  /\ str_eqb w (js "--duration") = false /\ str_eqb w (js "--count") = false
  /\ str_eqb w (js "--token") = false /\ str_eqb w (js "--help") = false.
Proof.
  unfold is_option. intros H.
  repeat (apply orb_false_elim in H as [H ?]). by repeat split.
Qed.

Lemma collect_loop_skips (junk rest : list jsstring) (a : Collect.arguments) :
  forallb (fun w => negb (is_option w)) junk = true ->
  Collect.parse_loop (junk ++ rest) a = Collect.parse_loop rest a.
Proof.
  induction junk as [| w junk IH]; [done |].
  cbn [forallb]. intros [Hw Hjunk]%andb_prop. apply negb_true_iff in Hw.
  destruct (not_option w Hw) as (Hn & Hg & Hd & _ & Ht & Hh).
  cbn [app Collect.parse_loop]. rewrite Hn, Hg, Hd, Ht, Hh. by apply IH.
Qed.

Lemma fetch_loop_count (n : nat) (argv : list jsstring)
    (a a' : Fetch.arguments) :
  (length argv <= n)%nat -> nonzero (Fetch.count a) = true ->
  Fetch.parse_loop argv a = Some a' -> nonzero (Fetch.count a') = true.
Proof.
  revert argv a. induction n as [| n IH]; intros argv a Hlen Ha.
  - destruct argv; [| cbn in Hlen; lia]. by intros [= <-].
  - destruct argv as [| flag rest]; [by intros [= <-] |].
    cbn [length] in Hlen. cbn [Fetch.parse_loop].
    repeat match goal with
           | |- context [if ?b then _ else _] => destruct b
           end;
      try discriminate;
      try (destruct rest as [| operand rest'];
           [ intros [= <-]; cbn [Fetch.count];
             auto using ArgsFacts.int_or_nonzero
           | apply IH; cbn [length Fetch.count] in *;
             [lia | auto using ArgsFacts.int_or_nonzero] ]).
Qed.

End OptionFacts.

Import OptionFacts.

(** X18. What [parseArgs] of fetch.mjs lets through: every accepted
    command line has a group that is a string and not empty, and a count
    that is never 0 (a count of 0 or one that is no number is replaced by
    100); without a group from the options or the environment the command
    line is refused. *)
Theorem fetch_arguments_are_usable (env : environment)
    (argv : list jsstring) :
  match Fetch.parseArgs env argv with
  | Fetch.Parsed a =>
    (exists c g, Fetch.group a = Some (c :: g)) /\ Fetch.count a <> Int 0
  | Fetch.MissingGroup =>
    exists a, Fetch.parse_loop (drop 2 argv)
                {| Fetch.napcat := Some (env_or (NAPCAT_WS env)
                                           (js "ws://127.0.0.1:3001"));
                   Fetch.group := Some (env_or (NAPCAT_GROUP env) []);
                   Fetch.count := Int 100;
                   Fetch.token := Some (env_or (NAPCAT_TOKEN env) []) |}
              = Some a
              /\ (Fetch.group a = None \/ Fetch.group a = Some [])
  | Fetch.Usage => True
  end.
Proof.
  unfold Fetch.parseArgs.
  destruct (Fetch.parse_loop _ _) as [a |] eqn:Hloop; [| done].
  destruct (Fetch.group a) as [[| c g] |] eqn:Hgroup; cbn.
  - exists a. by eauto.
  - split; [eauto |]. apply ArgsFacts.nonzero_not_zero.
    eapply fetch_loop_count; [reflexivity | | exact Hloop]. done.
  - exists a. by eauto.
Qed.

(** X19. How [parseArgs] of collect.mjs reads a command line: words that
    are no options are skipped, so a command line of such words alone
    gives the defaults and the environment (and is refused when the
    environment names no group); [--help] after them ends the parsing
    with the usage text even when the group is missing; and a group given
    as an option takes the place of the one of the environment. *)
Theorem plain_words_are_skipped (env : environment) (node script : jsstring)
    (junk rest : list jsstring) :
  forallb (fun w => negb (is_option w)) junk = true ->
  Collect.parseArgs env (node :: script :: junk)
  = match NAPCAT_GROUP env with
    | Some (c :: g) =>
      Collect.Parsed
        {| Collect.napcat := Some (env_or (NAPCAT_WS env)
                                     (js "ws://127.0.0.1:3001"));
           Collect.group := Some (c :: g);
           Collect.duration := Int 60;
           Collect.token := Some (env_or (NAPCAT_TOKEN env) []) |}
    | _ => Collect.MissingGroup
    end
  /\ Collect.parseArgs env (node :: script :: junk ++ js "--help" :: rest)
     = Collect.Usage
  /\ (forall c g,
        Collect.parseArgs env
          (node :: script :: junk ++ [js "--group"; c :: g])
        = Collect.Parsed
            {| Collect.napcat := Some (env_or (NAPCAT_WS env)
                                         (js "ws://127.0.0.1:3001"));
               Collect.group := Some (c :: g);
               Collect.duration := Int 60;
               Collect.token := Some (env_or (NAPCAT_TOKEN env) []) |}).
Proof.
  intros Hjunk. unfold Collect.parseArgs. cbn [drop]. rewrite !drop_0.
  split; [| split].
  - rewrite <- (app_nil_r junk) at 1. rewrite collect_loop_skips by done.
    cbn [Collect.parse_loop Collect.group]. unfold env_or.
    by destruct (NAPCAT_GROUP env) as [[| c g] |].
  - by rewrite collect_loop_skips.
  - intros c g. rewrite drop_0. by rewrite collect_loop_skips.
Qed.

Lemma plain_words_are_skipped_witness :
  Collect.parseArgs
    {| NAPCAT_WS := None; NAPCAT_GROUP := Some (js "42"); NAPCAT_TOKEN := None |}
    (js "node" :: js "collect.mjs" :: [js "verbose"; js "-x"]
     ++ js "--help" :: [js "--group"; js "7"])
  = Collect.Usage.
Proof.
  apply (plain_words_are_skipped
           {| NAPCAT_WS := None; NAPCAT_GROUP := Some (js "42");
              NAPCAT_TOKEN := None |}
           (js "node") (js "collect.mjs") [js "verbose"; js "-x"]
           [js "--group"; js "7"]).
  vm_compute. reflexivity.
Defined.

(** X20. What [extractText] throws is a TypeError, and it throws exactly
    when its argument is an array that holds a null element, or a segment
    of the text kind whose text has no printed form (an object with a
    member [toString], or an array that holds one); on everything else (no
    array, or segments of any other shape) it returns. *)
Theorem extractText_throws_type_error (message : value) (e : error) :
  extractText message = Throw e
  <-> e = TypeError
      /\ exists segs,
           message = Some (JArr segs)
           /\ (JNull ∈ segs
               \/ exists seg, seg ∈ segs /\ unprintable_text seg = true).
Proof.
  assert (Hget : forall seg, seg <> JNull ->
            get (Some seg) (js "type") = Ok (get_opt (Some seg) (js "type")))
    by (by intros []).
  assert (Hcase : forall seg : json, seg = JNull \/ seg <> JNull)
    by (intros []; (by left) || (by right)).
  assert (Hthrow : forall segs e',
            filter_text segs = Throw e' -> e' = TypeError /\ JNull ∈ segs).
  { induction segs as [| seg segs IH]; intros e'; cbn [filter_text]; [done |].
    destruct (Hcase seg) as [-> | Hseg].
    - intros [= <-]. split; [done | apply list_elem_of_here].
    - rewrite (Hget seg Hseg). cbn [bind].
      destruct (filter_text segs) as [kept |]; cbn [bind]; [done |].
      intros [= <-]. destruct (IH _ eq_refl) as [-> Hin].
      split; [done | by apply list_elem_of_further]. }
  assert (Hnull : forall segs,
            JNull ∈ segs -> filter_text segs = Throw TypeError).
  { induction segs as [| seg segs IH]; cbn [filter_text].
    - by intros ?%not_elem_of_nil.
    - destruct (Hcase seg) as [-> | Hseg]; [done |].
      intros [? | Hin]%elem_of_cons; [congruence |].
      rewrite (Hget seg Hseg). cbn [bind]. by rewrite (IH Hin). }
  assert (Hkept : forall segs kept,
            filter_text segs = Ok kept ->
            forall seg,
              seg ∈ kept
              <-> seg ∈ segs
                  /\ is_string (get_opt (Some seg) (js "type")) (js "text")
                     = true).
  { induction segs as [| x segs IH]; intros kept; cbn [filter_text].
    - intros [= <-] seg. split; [by intros ?%not_elem_of_nil |].
      by intros [?%not_elem_of_nil _].
    - destruct (Hcase x) as [-> | Hx]; [done |].
      rewrite (Hget x Hx). cbn [bind].
      destruct (filter_text segs) as [kept' |]; cbn [bind]; [| done].
      destruct (is_string (get_opt (Some x) (js "type")) (js "text")) eqn:Hty;
        intros [= <-] seg; specialize (IH kept' eq_refl seg).
      + rewrite !elem_of_cons, IH. split.
        * intros [-> | [? ?]]; by auto.
        * intros [[-> | ?] ?]; by auto.
      + rewrite elem_of_cons, IH. split.
        * intros [? ?]; by auto.
        * intros [[-> | ?] ?]; [congruence | by auto]. }
  assert (Hjoin : forall kept,
            existsb unprintable (map seg_text kept) = true
            <-> exists seg, seg ∈ kept /\ unprintable (seg_text seg) = true).
  { intros kept. rewrite existsb_exists. split.
    - intros (x & Hin & Hx). apply in_map_iff in Hin as (seg & <- & Hin).
      exists seg. split; [by apply list_elem_of_In | done].
    - intros (seg & Hin & Hx). exists (seg_text seg). split; [| done].
      apply in_map. by apply list_elem_of_In. }
  unfold extractText. split.
  - destruct message as [[| | | | segs |] |]; try done.
    destruct (filter_text segs) as [kept |] eqn:Hsegs; cbn [bind].
    + pose proof (join_empty_spec (map seg_text kept)) as Hspec.
      destruct (join_empty _) as [joined | e']; cbn [bind]; [done |].
      intros [= <-]. destruct Hspec as [-> Hex]. split; [done |].
      exists segs. split; [done |]. right.
      apply Hjoin in Hex as (seg & Hin & Hx).
      apply (Hkept segs kept Hsegs) in Hin as [Hin Hty].
      exists seg. split; [done |]. unfold unprintable_text.
      by rewrite Hty, Hx.
    + intros [= <-]. destruct (Hthrow segs _ Hsegs) as [-> Hin]. eauto.
  - intros (-> & segs & -> & [Hin | (seg & Hin & Hseg)]).
    + by rewrite (Hnull segs Hin).
    + destruct (filter_text segs) as [kept | e'] eqn:Hsegs; cbn [bind].
      * apply andb_prop in Hseg as [Hty Hx].
        assert (Hex : existsb unprintable (map seg_text kept) = true).
        { apply Hjoin. exists seg. split; [| done].
          by apply (Hkept segs kept Hsegs). }
        pose proof (join_empty_spec (map seg_text kept)) as Hspec.
        destruct (join_empty _) as [joined | e'']; cbn [bind];
          [congruence |].
        by destruct Hspec as [-> _].
      * by destruct (Hthrow segs _ Hsegs) as [-> _].
Qed.

(** X21. The time of a record whose message is stamped with the number
    [n] of epoch seconds: the second 0 counts as no time at all, and both
    the time text and the timestamp are null; any other [n] is kept as the
    timestamp and printed as the date of [n * 1000] milliseconds, and a
    record exists only when that lies within the range of dates. *)
Theorem record_time_of_number (msg : value) (n : Z) (r : CollectedRecord) :
  get msg (js "time") = Ok (Some (JNum (Int n))) ->
  formatMessage msg = Ok (Some r) ->
  timestamp r = (if n =? 0 then JNull else JNum (Int n))
  /\ time r = (if n =? 0 then JNull else JStr (iso_string (n * 1000)))
  /\ (n = 0 \/ Z.abs (n * 1000) <= 8640000000000000).
Proof.
  intros Htime Hf.
  destruct (formatMessage_fields msg r Hf)
    as (sender_v & time_v & _ & Htime' & _ & _ & Hstamp & Hiso).
  rewrite Htime in Htime'. injection Htime' as <-.
  rewrite Hstamp. unfold or_null, or_else. cbn [truthy nonzero] in *.
  destruct (Z.eqb_spec n 0) as [-> | Hn].
  - split; [done |]. split; [done | by left].
  - assert (Htruthy : match n with 0 => false | _ => true end = true)
      by (by destruct n).
    rewrite Htruthy in *. destruct Hiso as (s & Hs & ->). split; [done |].
    unfold iso_of_seconds, toISOString in Hs.
    cbn [to_number bind times] in Hs. rewrite time_clip_of_Z in Hs.
    destruct (Z.leb_spec (Z.abs (n * 1000)) 8640000000000000); [| done].
    injection Hs as <-. split; [done | by right].
Qed.

Lemma record_time_of_number_witness :
  time {| sender := JStr (js "alice"); user_id := JNum (Int 10001);
          time := JStr (iso_string 1700000000000);
          timestamp := JNum (Int 1700000000); content := js "hi" |}
  = (if 1700000000 =? 0 then JNull
     else JStr (iso_string (1700000000 * 1000))).
Proof.
  refine (proj1 (proj2 (record_time_of_number
                          (Some (group_event 123456789 1700000000 "hi"))
                          1700000000 _ _ _))).
  - reflexivity.
  - vm_compute. reflexivity.
Defined.
